(** * chat-git: checkpoints of a conversation bound to git snapshots

    A shallow embedding of [packages/cli/src/ui/commands/chatGitCommand.ts]:
    the four sub-commands [list], [save], [resume] and [delete] of
    [/chat-git], together with the three stores they keep in step (the
    tag ledger file, the checkpoint store of the logger, and the git
    repository of the working directory).

    The commands are [async] functions full of early [return]s inside
    [try]/[catch] blocks, so they are written in a small monad over the
    state of the outside world whose results are ECMAScript completions:
    normal, [return], or [throw]. *)

From stdpp Require Import base option list strings gmap.
From Stdlib Require Import ZArith Ascii Lia.

Local Open Scope string_scope.
Local Open Scope list_scope.

(** ** JavaScript strings

    A string is kept as its UTF-8 bytes.  [!s] on a string is [true]
    exactly for the empty string. *)

Definition truthy (s : string) : bool :=
  match s with
  | EmptyString => false
  | String _ _ => true
  end.

(** [s || d] on strings. *)
Definition or_else (s d : string) : string :=
  if truthy s then s else d.

(** ECMAScript WhiteSpace and LineTerminator code points, as the UTF-8
    sequences [String.prototype.trim] has to strip: U+0009..U+000D and
    U+0020 (one byte), U+00A0 (two bytes), U+1680, U+2000..U+200A,
    U+2028, U+2029, U+202F, U+205F, U+3000 and U+FEFF (three bytes). *)
Definition isWs1 (a : ascii) : bool :=
  let n := nat_of_ascii a in
  ((9 <=? n)%nat && (n <=? 13)%nat) || (n =? 32)%nat.

Definition isWs2 (a b : ascii) : bool :=
  (nat_of_ascii a =? 194)%nat && (nat_of_ascii b =? 160)%nat.

Definition isWs3 (a b c : ascii) : bool :=
  let x := nat_of_ascii a in
  let y := nat_of_ascii b in
  let z := nat_of_ascii c in
  ((x =? 225) && (y =? 154) && (z =? 128))%nat
  || ((x =? 226) && (y =? 128)
      && (((128 <=? z) && (z <=? 138)) || (z =? 168) || (z =? 169) || (z =? 175)))%nat
  || ((x =? 226) && (y =? 129) && (z =? 159))%nat
  || ((x =? 227) && (y =? 128) && (z =? 128))%nat
  || ((x =? 239) && (y =? 187) && (z =? 191))%nat.

(** Strips white space from the front; [backwards] is set when the
    string is read from its end, where the bytes of a sequence come in
    the opposite order. *)
Fixpoint stripWs (backwards : bool) (s : string) : string :=
  match s with
  | EmptyString => EmptyString
  | String a s1 =>
      if isWs1 a then stripWs backwards s1 else
      match s1 with
      | EmptyString => s
      | String b s2 =>
          if (if backwards then isWs2 b a else isWs2 a b)
          then stripWs backwards s2 else
          match s2 with
          | EmptyString => s
          | String c s3 =>
              if (if backwards then isWs3 c b a else isWs3 a b c)
              then stripWs backwards s3 else s
          end
      end
  end.

Definition trimStart (s : string) : string := stripWs false s.
Definition trimEnd (s : string) : string :=
  String.rev (stripWs true (String.rev s)).
Definition trim (s : string) : string := trimEnd (trimStart s).

(** [name.startsWith(partialArg)]. *)
Definition startsWith (name partialArg : string) : bool :=
  String.prefix partialArg name.

(** [a.localeCompare(b)], used on the fixed-width output of
    [Date.prototype.toISOString] only, where it agrees with the
    comparison of the strings byte by byte. *)
Definition localeCompare (a b : string) : comparison := String.compare a b.

(** [path.join] of a directory and a file name (POSIX). *)
Definition path_join (dir file : string) : string := dir +:+ "/" +:+ file.

(** [!n] on a number: [true] for zero alone (a [NaN] does not arise
    here). *)
Definition not_number (n : Z) : bool := (n =? 0)%Z.

(** ** Arrays *)

(** [Array.prototype.findIndex]: the first index whose element passes
    the test, [-1] when none does. *)
Fixpoint findIndex_from {A} (p : A -> bool) (l : list A) (i : Z) : Z :=
  match l with
  | [] => (-1)%Z
  | x :: l' => if p x then i else findIndex_from p l' (i + 1)%Z
  end.

Definition findIndex {A} (p : A -> bool) (l : list A) : Z :=
  findIndex_from p l 0%Z.

(** [Array.prototype.splice(start, deleteCount)] without inserted items:
    a negative [start] counts from the end of the array. *)
Definition splice {A} (start deleteCount : Z) (l : list A) : list A :=
  let len := Z.of_nat (length l) in
  let actualStart :=
    if (start <? 0)%Z then Z.max (len + start) 0 else Z.min start len in
  let actualDeleteCount :=
    Z.min (Z.max deleteCount 0) (len - actualStart) in
  firstn (Z.to_nat actualStart) l
    ++ skipn (Z.to_nat (actualStart + actualDeleteCount)) l.

(** [Array.prototype.sort] with a comparator: a stable sort, here by
    insertion.  An element goes behind every element it does not precede. *)
Fixpoint sort_insert {A} (cmp : A -> A -> comparison) (x : A) (l : list A)
  : list A :=
  match l with
  | [] => [x]
  | y :: l' =>
      match cmp x y with
      | Lt => x :: y :: l'
      | _ => y :: sort_insert cmp x l'
      end
  end.

Definition array_sort {A} (cmp : A -> A -> comparison) (l : list A) : list A :=
  fold_left (fun acc x => sort_insert cmp x acc) l [].

(** ** Data model *)

(** An entry of the ledger [chatGitTags.json]. *)
Record LedgerEntry := mkEntry {
  commitHash : string;
  tag : string
}.

(** What [JSON.parse] makes of the ledger file: the array of entries the
    commands write, or some other JSON value (an object, a number,
    [null], ...), which has no [find] and cannot be iterated. *)
Inductive JsonValue :=
| JArray (chatGitLog : list LedgerEntry)
| JOther.

(** The text of a file: the [JSON.stringify] of a value, or text that
    [JSON.parse] rejects. *)
Inductive Text :=
| Stringified (v : JsonValue)
| NotJson.

Definition JSON_stringify (v : JsonValue) : Text := Stringified v.

(** A part of a conversation turn; only its optional [text] is used. *)
Record Part := mkPart { text : option string }.

(** [Content] of the conversation history: both fields are optional. *)
Record Content := mkContent {
  role : option string;
  parts : option (list Part)
}.

(** The record the logger keeps per tag. *)
Record Checkpoint := mkCheckpoint {
  history : list Content;
  authType : option string
}.

Record ChatDetail := mkChatDetail {
  name : string;
  mtime : string
}.

(** The values the [type] of a history item takes here: three members
    of the enum, and [INHERITED key], which is no member of it: the
    value every object inherits from [Object.prototype] under [key] (a
    function, or the prototype itself under [__proto__]), which a lookup
    in a plain object yields for such a key. *)
Inductive MessageType := USER | GEMINI | CHAT_LIST | INHERITED (key : string).

Record HistoryItemWithoutId := mkHistoryItem {
  type : MessageType;
  item_text : string
}.

Inductive MessageKind := info | error.

(** The React prompt of a confirmation request: text with the tag set in
    the accent colour. *)
Inductive PromptPiece :=
| Plain (s : string)
| Accent (s : string).

Inductive SlashCommandActionReturn :=
| message (messageType : MessageKind) (content : string)
| confirm_action (prompt : list PromptPiece) (originalInvocation_raw : string)
| load_history (ui_history : list HistoryItemWithoutId)
               (clientHistory : list Content).

(** The part of [CommandContext] the commands read.  [chat_history] is
    [config.getGeminiClient()?.getChat()] followed by [getHistory()],
    [currentAuthType] is [config.getContentGeneratorConfig()?.authType]
    and [projectTempDir] is [config.storage?.getProjectTempDir()]. *)
Record Config := mkConfig {
  chat_history : option (list Content);
  currentAuthType : option string;
  projectTempDir : option string
}.

Record CommandContext := mkContext {
  overwriteConfirmed : bool;
  invocation_raw : option string;
  config : option Config
}.

(** ** The outside world *)

Inductive Result (A : Type) :=
| Ok (a : A)
| Err (e : string).
Arguments Ok {A} a.
Arguments Err {A} e.

(** Calls the commands make on their collaborators, in order. *)
Inductive Event :=
| EvExistsSync (path : string)
| EvReadFileSync (path : string)
| EvWriteFileSync (path : string) (data : Text)
| EvStat (path : string)
| EvLoggerInitialize
| EvCheckpointExists (t : string)
| EvSaveCheckpoint (c : Checkpoint) (t : string)
| EvLoadCheckpoint (t : string)
| EvDeleteCheckpoint (t : string)
| EvCheckIsRepo
| EvStatus (options : list string)
| EvAdd (files : string)
| EvCommit (msg : string) (options : list string)
| EvRevparse (options : list string)
| EvCheckout (what : string)
| EvAddItem (chats : list ChatDetail).

(** The git repository of the working directory, as simple-git shows it:
    what each call answers, the commit a successful [commit] creates, and
    the commits made so far (hash and message, newest first). *)
Record Repo := mkRepo {
  checkIsRepo_out : Result bool;
  status_isClean : Result bool;
  add_out : Result unit;
  commit_out : Result string;
  HEAD : Result string;
  commits : list (string * string);
  checkout_out : Result unit
}.

Record World := mkWorld {
  files : gmap string Text;
  read_fails : option string;
  write_fails : option string;
  mtimes : gmap string string;
  checkpoints : gmap string Checkpoint;
  repo : Repo;
  trace : list Event
}.

Definition log (e : Event) (w : World) : World :=
  mkWorld (files w) (read_fails w) (write_fails w) (mtimes w)
          (checkpoints w) (repo w) (trace w ++ [e]).

Definition set_files (f : gmap string Text) (w : World) : World :=
  mkWorld f (read_fails w) (write_fails w) (mtimes w)
          (checkpoints w) (repo w) (trace w).

Definition set_checkpoints (c : gmap string Checkpoint) (w : World) : World :=
  mkWorld (files w) (read_fails w) (write_fails w) (mtimes w)
          c (repo w) (trace w).

Definition set_repo (r : Repo) (w : World) : World :=
  mkWorld (files w) (read_fails w) (write_fails w) (mtimes w)
          (checkpoints w) r (trace w).

(** ** Completions and the command monad *)

Inductive Completion (R A : Type) :=
| Normal (a : A)
| Return (r : R)
| Throw (e : string).
Arguments Normal {R A} a.
Arguments Return {R A} r.
Arguments Throw {R A} e.

Definition M (R A : Type) : Type := World -> Completion R A * World.

Definition pure {R A} (a : A) : M R A := fun w => (Normal a, w).

Definition bind {R A B} (m : M R A) (k : A -> M R B) : M R B :=
  fun w =>
    match m w with
    | (Normal a, w') => k a w'
    | (Return r, w') => (Return r, w')
    | (Throw e, w') => (Throw e, w')
    end.

(** [return r;] *)
Definition return_ {R A} (r : R) : M R A := fun w => (Return r, w).

(** [throw e;] *)
Definition throw {R A} (e : string) : M R A := fun w => (Throw e, w).

(** [try { body } catch (e) { handler }]: only a [throw] reaches the
    handler, a [return] inside [body] leaves the function. *)
Definition try_catch {R A} (body : M R A) (handler : string -> M R A) : M R A :=
  fun w =>
    match body w with
    | (Throw e, w') => handler e w'
    | other => other
    end.

Declare Scope js_scope.
Delimit Scope js_scope with js.
Notation "'let*' x := m 'in' k" := (bind m (fun x => k))
  (at level 10, x name, m at level 100, k at level 200) : js_scope.
Notation "m ;; k" := (bind m (fun _ => k))
  (at level 100, k at level 200, right associativity) : js_scope.
Notation "'try' body 'catch' x => handler" :=
  (try_catch body (fun x => handler))
  (at level 10, x name, body at level 200, handler at level 200) : js_scope.

(** A promise once settled. *)
Inductive Settled (R : Type) :=
| Resolved (r : R)
| Rejected (e : string).
Arguments Resolved {R} r.
Arguments Rejected {R} e.

(** An [async] function: its promise resolves with the value returned
    and rejects with what the body throws. *)
Definition async {R} (body : M R R) : World -> Settled R * World :=
  fun w =>
    match body w with
    | (Normal r, w') => (Resolved r, w')
    | (Return r, w') => (Resolved r, w')
    | (Throw e, w') => (Rejected e, w')
    end.

(** [await p] *)
Definition await {R R'} (p : World -> Settled R' * World) : M R R' :=
  fun w =>
    match p w with
    | (Resolved r, w') => (Normal r, w')
    | (Rejected e, w') => (Throw e, w')
    end.

Definition of_result {R A} (r : Result A) : M R A :=
  match r with
  | Ok a => pure a
  | Err e => throw e
  end.

Definition emit {R} (e : Event) : M R unit := fun w => (Normal tt, log e w).

Definition get {R A} (f : World -> A) : M R A := fun w => (Normal (f w), w).

Definition modify {R} (f : World -> World) : M R unit :=
  fun w => (Normal tt, f w).

(** [if (c) stmt] *)
Definition when_ {R} (c : bool) (stmt : M R unit) : M R unit :=
  if c then stmt else pure tt.

Local Open Scope js_scope.

(** ** node:fs *)

Definition isSome {A} (o : option A) : bool :=
  match o with
  | Some _ => true
  | None => false
  end.

Definition existsSync {R} (path : string) : M R bool :=
  emit (EvExistsSync path);;
  get (fun w => isSome (files w !! path)).

Definition readFileSync {R} (path : string) : M R Text :=
  emit (EvReadFileSync path);;
  let* failure := get read_fails in
  match failure with
  | Some e => throw e
  | None =>
      let* file := get (fun w => files w !! path) in
      match file with
      | Some data => pure data
      | None => throw ("Error: ENOENT: no such file or directory, open '"
                       +:+ path +:+ "'")
      end
  end.

Definition writeFileSync {R} (path : string) (data : Text) : M R unit :=
  emit (EvWriteFileSync path data);;
  let* failure := get write_fails in
  match failure with
  | Some e => throw e
  | None => modify (fun w => set_files (<[path := data]> (files w)) w)
  end.

(** [(await fsPromises.stat(path)).mtime.toISOString()] *)
Definition stat_mtime {R} (path : string) : M R string :=
  emit (EvStat path);;
  let* m := get (fun w => mtimes w !! path) in
  match m with
  | Some t => pure t
  | None => throw ("Error: ENOENT: no such file or directory, stat '"
                   +:+ path +:+ "'")
  end.

Definition JSON_parse {R} (data : Text) : M R JsonValue :=
  match data with
  | Stringified v => pure v
  | NotJson => throw "SyntaxError: Unexpected token in JSON"
  end.

(** The receiver of an array method or the subject of [for ... of]: a
    value that is no array raises a [TypeError]. *)
Definition as_array {R} (v : JsonValue) (complaint : string)
  : M R (list LedgerEntry) :=
  match v with
  | JArray l => pure l
  | JOther => throw ("TypeError: " +:+ complaint)
  end.

(** ** The checkpoint store of the logger *)

(** Modelled from the spec: the logger of the core package, which keeps
    the checkpoint records, is not part of the sources at hand.  Section 6
    of the specification gives its interface, a store of one record per
    tag; [initialize()] prepares it and changes no record. *)
Definition logger_initialize {R} : M R unit := emit EvLoggerInitialize.

(** Modelled from the spec: [checkpointExists(tag)] of the logger, whether
    the store has a record for the tag. *)
Definition logger_checkpointExists {R} (t : string) : M R bool :=
  emit (EvCheckpointExists t);;
  get (fun w => isSome (checkpoints w !! t)).

(** Modelled from the spec: [saveCheckpoint({history, authType}, tag)] of
    the logger, which creates or overwrites the record of the tag. *)
Definition logger_saveCheckpoint {R} (c : Checkpoint) (t : string) : M R unit :=
  emit (EvSaveCheckpoint c t);;
  modify (fun w => set_checkpoints (<[t := c]> (checkpoints w)) w).

(** Modelled from the spec: [loadCheckpoint(tag)] of the logger, the
    record of the tag; a tag without a record loads as an empty history,
    which is what [resume] takes for "not found". *)
Definition logger_loadCheckpoint {R} (t : string) : M R Checkpoint :=
  emit (EvLoadCheckpoint t);;
  get (fun w => default (mkCheckpoint [] None) (checkpoints w !! t)).

(** Modelled from the spec: [deleteCheckpoint(tag)] of the logger, which
    removes the record of the tag and tells whether there was one. *)
Definition logger_deleteCheckpoint {R} (t : string) : M R bool :=
  emit (EvDeleteCheckpoint t);;
  let* found := get (fun w => isSome (checkpoints w !! t)) in
  if found
  then modify (fun w => set_checkpoints (delete t (checkpoints w)) w);;
       pure true
  else pure false.

(** ** simple-git *)

Definition git_checkIsRepo {R} : M R bool :=
  emit EvCheckIsRepo;;
  let* out := get (fun w => checkIsRepo_out (repo w)) in
  of_result out.

(** [(await repo.status(options)).isClean()] *)
Definition git_status_isClean {R} (options : list string) : M R bool :=
  emit (EvStatus options);;
  let* out := get (fun w => status_isClean (repo w)) in
  of_result out.

Definition git_add {R} (files : string) : M R unit :=
  emit (EvAdd files);;
  let* out := get (fun w => add_out (repo w)) in
  of_result out.

Definition committed (h msg : string) (r : Repo) : Repo :=
  mkRepo (checkIsRepo_out r) (status_isClean r) (add_out r) (commit_out r)
         (Ok h) ((h, msg) :: commits r) (checkout_out r).

Definition git_commit {R} (msg : string) (options : list string) : M R unit :=
  emit (EvCommit msg options);;
  let* out := get (fun w => commit_out (repo w)) in
  match out with
  | Err e => throw e
  | Ok h => modify (fun w => set_repo (committed h msg (repo w)) w)
  end.

Definition git_revparse {R} (options : list string) : M R string :=
  emit (EvRevparse options);;
  let* out := get (fun w => HEAD (repo w)) in
  of_result out.

Definition checked_out (what : string) (r : Repo) : Repo :=
  mkRepo (checkIsRepo_out r) (status_isClean r) (add_out r) (commit_out r)
         (Ok what) (commits r) (checkout_out r).

Definition git_checkout {R} (what : string) : M R unit :=
  emit (EvCheckout what);;
  let* out := get (fun w => checkout_out (repo w)) in
  match out with
  | Err e => throw e
  | Ok _ => modify (fun w => set_repo (checked_out what (repo w)) w)
  end.

(** [context.ui.addItem({ type: MessageType.CHAT_LIST, chats })] *)
Definition ui_addItem {R} (chats : list ChatDetail) : M R unit :=
  emit (EvAddItem chats).

(** ** The commands of chatGitCommand.ts *)

Definition projectGeminiDir : string := ".gemini".
Definition chatGitLogFile : string :=
  path_join projectGeminiDir "chatGitTags.json".

Definition not_a_repo : SlashCommandActionReturn :=
  message error
    "Current working directory is not git repo. Unable to proceed with chat-git.".

Definition repo_check_failed : SlashCommandActionReturn :=
  message error
    "Current working directory is not git repo or checkIsRepo failed. Unable to proceed with chat-git.".

(** [entry.tag], for where a local [tag] hides the field. *)
Definition entry_tag (entry : LedgerEntry) : string := tag entry.

(** The callback of [find] in [save]: the first entry with the tag gets
    the new commit hash, in place, and ends the search. *)
Fixpoint find_assign (t h : string) (chatGitLog : list LedgerEntry)
  : option LedgerEntry * list LedgerEntry :=
  match chatGitLog with
  | [] => (None, [])
  | entry :: rest =>
      if negb (String.eqb (tag entry) t)
      then let '(found, rest') := find_assign t h rest in
           (found, entry :: rest')
      else let entry' := mkEntry h (tag entry) in
           (Some entry', entry' :: rest)
  end.

(** [rolemap] of [resume], an object literal: its own properties. *)
Definition rolemap : gmap string MessageType :=
  {[ "user" := USER; "model" := GEMINI ]}.

(** The property names of [Object.prototype], which a plain object such
    as [rolemap] inherits. *)
Definition Object_prototype_keys : list string :=
  [ "constructor"; "__defineGetter__"; "__defineSetter__"; "hasOwnProperty";
    "__lookupGetter__"; "__lookupSetter__"; "isPrototypeOf";
    "propertyIsEnumerable"; "toString"; "valueOf"; "__proto__";
    "toLocaleString" ].

Definition inherits (key : string) : bool :=
  existsb (String.eqb key) Object_prototype_keys.

(** [rolemap[key]]: the own property, else the inherited one, which is
    truthy, else [undefined]. *)
Definition rolemap_get (key : string) : option MessageType :=
  match rolemap !! key with
  | Some t => Some t
  | None => if inherits key then Some (INHERITED key) else None
  end.

Definition part_has_text (m : Part) : bool :=
  match text m with
  | Some s => truthy s
  | None => false
  end.

Definition part_text (m : Part) : string := default "" (text m).

(** One round of the loop that builds [uiHistory] in [resume]. *)
Definition push_ui_item (uiHistory : list HistoryItemWithoutId) (item : Content)
  : list HistoryItemWithoutId :=
  let text :=
    or_else
      match parts item with
      | Some ps => String.concat "" (map part_text (List.filter part_has_text ps))
      | None => ""
      end
      "" in
  if negb (truthy text) then uiHistory
  else
    uiHistory ++
      [ mkHistoryItem
          match role item with
          | Some r => if truthy r then default GEMINI (rolemap_get r) else GEMINI
          | None => GEMINI
          end
          text ].

(** [saved && current && saved !== current] on two optional strings. *)
Definition auth_differs (saved current : option string) : bool :=
  match saved, current with
  | Some a, Some b => truthy a && truthy b && negb (String.eqb a b)
  | _, _ => false
  end.

Section Commands.

(** Both come from the core package, which is not among the sources:
    the length of the hidden initial context at the head of every
    history, and the decoding of a tag for display. *)
Variable INITIAL_HISTORY_LENGTH : nat.
Variable decodeTagName : string -> string.

(** The [for ... of] loop of [getSavedChatGitTags]: one [stat] and one
    [push] per entry of the ledger. *)
Definition collect_chatDetails {R} (geminiDir : string)
    (chatGitLog : list LedgerEntry) : M R (list ChatDetail) :=
  let file_head := "checkpoint-" in
  let file_tail := ".json" in
  fold_left
    (fun loop entry =>
       let* chatDetails := loop in
       let filePath :=
         path_join geminiDir (file_head +:+ tag entry +:+ file_tail) in
       let* stats_mtime := stat_mtime filePath in
       pure (chatDetails
               ++ [ mkChatDetail (decodeTagName (tag entry)) stats_mtime ]))
    chatGitLog (pure []).

Definition getSavedChatGitTags (context : CommandContext) (mtSortDesc : bool)
  : World -> Settled (list ChatDetail) * World :=
  async (
    let* file_exists := existsSync chatGitLogFile in
    when_ (negb file_exists) (return_ []);;
    let* chatGitLogStr :=
      try readFileSync chatGitLogFile
      catch err => return_ [] in
    let* chatGitLog := JSON_parse chatGitLogStr in
    let geminiDir :=
      match config context with
      | Some cfg => projectTempDir cfg
      | None => None
      end in
    match geminiDir with
    | None => return_ []
    | Some geminiDir =>
        when_ (negb (truthy geminiDir)) (return_ []);;
        try
          let* entries := as_array chatGitLog "chatGitLog is not iterable" in
          let* chatDetails := collect_chatDetails geminiDir entries in
          return_
            (array_sort
               (fun a b =>
                  if mtSortDesc
                  then localeCompare (mtime b) (mtime a)
                  else localeCompare (mtime a) (mtime b))
               chatDetails)
        catch _err => return_ []
    end).

Definition listCommand_action (context : CommandContext) (args : string)
  : World -> Settled unit * World :=
  async (
    let* chatDetails := await (getSavedChatGitTags context false) in
    ui_addItem chatDetails).

Definition saveCommand_action (context : CommandContext) (args : string)
  : World -> Settled SlashCommandActionReturn * World :=
  async (
    let tag := trim args in
    when_ (negb (truthy tag))
      (return_ (message error "Missing tag. Usage: /chat save <tag>"));;
    logger_initialize;;
    (try
       let* isRepoDefined := git_checkIsRepo in
       when_ (negb isRepoDefined) (return_ not_a_repo)
     catch err => return_ repo_check_failed);;
    when_ (negb (overwriteConfirmed context))
      (let* checkpoint_exists := logger_checkpointExists tag in
       when_ checkpoint_exists
         (return_
            (confirm_action
               [ Plain "A checkpoint with the tag ";
                 Accent tag;
                 Plain " already exists. Do you want to overwrite it?" ]
               match invocation_raw context with
               | Some raw => or_else raw ("/chat-git save " +:+ tag)
               | None => "/chat-git save " +:+ tag
               end)));;
    match
      match config context with
      | Some cfg => chat_history cfg
      | None => None
      end
    with
    | None =>
        return_ (message error "No chat client available to save conversation.")
    | Some history =>
        when_ (length history <=? INITIAL_HISTORY_LENGTH)%nat
          (return_ (message info "No conversation found to save."));;
        let* commitHash :=
          try
            let* isClean := git_status_isClean ["--porcelain"] in
            when_ (negb isClean)
              (git_add "./*";;
               git_commit ("commit made with chat-git tag " +:+ tag)
                          ["--no-verify"]);;
            git_revparse ["HEAD"]
          catch err =>
            return_ (message error ("Failed git add or commit, " +:+ err)) in
        let authType :=
          match config context with
          | Some cfg => currentAuthType cfg
          | None => None
          end in
        logger_saveCheckpoint (mkCheckpoint history authType) tag;;
        let chatGitLogEntry := mkEntry commitHash tag in
        (try
           let* file_exists := existsSync chatGitLogFile in
           if negb file_exists then
             let chatGitLog := [chatGitLogEntry] in
             writeFileSync chatGitLogFile (JSON_stringify (JArray chatGitLog))
           else
             let* chatGitLogStr := readFileSync chatGitLogFile in
             let* parsed := JSON_parse chatGitLogStr in
             let* chatGitLog :=
               as_array parsed "chatGitLog.find is not a function" in
             let '(tagReused, chatGitLog) :=
               find_assign tag commitHash chatGitLog in
             let chatGitLog :=
               if negb (isSome tagReused)
               then chatGitLog ++ [chatGitLogEntry]
               else chatGitLog in
             writeFileSync chatGitLogFile (JSON_stringify (JArray chatGitLog))
         catch err =>
           return_ (message error
                      ("Reading or writing to " +:+ chatGitLogFile
                       +:+ " failed " +:+ err)));;
        return_
          (message info
             ("Conversation checkpoint saved with tag: " +:+ decodeTagName tag
              +:+ " and git commit hash " +:+ commitHash +:+ "."))
    end).

Definition resumeCommand_action (context : CommandContext) (args : string)
  : World -> Settled SlashCommandActionReturn * World :=
  async (
    let tag := trim args in
    when_ (negb (truthy tag))
      (return_ (message error "Missing tag. Usage: /chat-git resume <tag>"));;
    logger_initialize;;
    let* checkpoint := logger_loadCheckpoint tag in
    let conversation := history checkpoint in
    when_ (length conversation =? 0)%nat
      (return_ (message info
                  ("No saved checkpoint found with tag: "
                   +:+ decodeTagName tag +:+ ".")));;
    let* commitHash :=
      try
        let* chatGitLogStr := readFileSync chatGitLogFile in
        let* parsed := JSON_parse chatGitLogStr in
        let* chatGitLog := as_array parsed "chatGitLog.find is not a function" in
        let tagFound :=
          List.find (fun entry => String.eqb (entry_tag entry) tag)
                    chatGitLog in
        match tagFound with
        | None =>
            return_ (message error
                       ("No git commit associated with tag: "
                        +:+ decodeTagName tag +:+ "."))
        | Some entry => pure (commitHash entry)
        end
      catch err =>
        return_ (message error
                   ("Error reading from chat-git log file " +:+ chatGitLogFile
                    +:+ ", " +:+ err)) in
    let currentAuthType :=
      match config context with
      | Some cfg => currentAuthType cfg
      | None => None
      end in
    when_ (auth_differs (authType checkpoint) currentAuthType)
      (return_ (message error
                  ("Cannot resume chat. It was saved with a different authentication method ("
                   +:+ default "" (authType checkpoint)
                   +:+ ") than the current one ("
                   +:+ default "" currentAuthType +:+ ").")));;
    (try
       let* isRepoDefined := git_checkIsRepo in
       when_ (negb isRepoDefined) (return_ not_a_repo)
     catch err => return_ repo_check_failed);;
    (try
       let* isClean := git_status_isClean ["--porcelain"] in
       when_ (negb isClean)
         (return_ (message error "Git repo is not clean, unable to checkout."))
     catch err =>
       return_ (message error ("Failed checking git repo status, " +:+ err)));;
    (try git_checkout commitHash
     catch err =>
       return_ (message error
                  ("Failed git checkout " +:+ commitHash +:+ ", " +:+ err)));;
    let uiHistory :=
      fold_left push_ui_item (skipn INITIAL_HISTORY_LENGTH conversation) [] in
    return_ (load_history uiHistory conversation)).

Definition resumeCommand_completion
    (context : CommandContext) (partialArg : string)
  : World -> Settled (list string) * World :=
  async (
    let* chatDetails := await (getSavedChatGitTags context true) in
    return_
      (List.filter (fun name => startsWith name partialArg)
                   (map name chatDetails))).

Definition deleteCommand_action (context : CommandContext) (args : string)
  : World -> Settled SlashCommandActionReturn * World :=
  async (
    let tag := trim args in
    when_ (negb (truthy tag))
      (return_ (message error "Missing tag. Usage: /chat-git delete <tag>"));;
    (try
       let* chatGitLogStr := readFileSync chatGitLogFile in
       let* parsed := JSON_parse chatGitLogStr in
       let* chatGitLog :=
         as_array parsed "chatGitLog.findIndex is not a function" in
       let tagIndex :=
         findIndex (fun entry => String.eqb (entry_tag entry) tag)
                   chatGitLog in
       when_ (not_number tagIndex)
         (return_ (message error
                     ("Tag not associated with git snapshot, " +:+ tag)));;
       let chatGitLog := splice tagIndex 1 chatGitLog in
       writeFileSync chatGitLogFile (JSON_stringify (JArray chatGitLog))
     catch err =>
       return_ (message error
                  ("Reading or writing to " +:+ chatGitLogFile
                   +:+ " failed, " +:+ err)));;
    logger_initialize;;
    let* deleted := logger_deleteCheckpoint tag in
    if deleted
    then return_ (message info
                    ("Conversation checkpoint '" +:+ decodeTagName tag
                     +:+ "' has been deleted."))
    else return_ (message error
                    ("Error: No checkpoint found with tag '"
                     +:+ decodeTagName tag +:+ "'."))).

Definition deleteCommand_completion
    (context : CommandContext) (partialArg : string)
  : World -> Settled (list string) * World :=
  async (
    let* chatDetails := await (getSavedChatGitTags context true) in
    return_
      (List.filter (fun name => startsWith name partialArg)
                   (map name chatDetails))).

End Commands.

(** ** Vocabulary of the properties *)

(** The text of the ledger file, if the file is there. *)
Definition ledger (w : World) : option Text := files w !! chatGitLogFile.

(** The entries of the ledger: none when the file is absent, unknown
    when its text is not an array of entries. *)
Definition ledger_entries (w : World) : option (list LedgerEntry) :=
  match ledger w with
  | None => Some []
  | Some (Stringified (JArray chatGitLog)) => Some chatGitLog
  | Some _ => None
  end.

(** Calls on the version-control tool. *)
Definition is_git_event (e : Event) : bool :=
  match e with
  | EvCheckIsRepo | EvStatus _ | EvAdd _ | EvCommit _ _ | EvRevparse _
  | EvCheckout _ => true
  | _ => false
  end.

(** Staging and committing. *)
Definition is_stage_or_commit (e : Event) : bool :=
  match e with
  | EvAdd _ | EvCommit _ _ => true
  | _ => false
  end.

(** Calls that change one of the three stores. *)
Definition is_mutation (e : Event) : bool :=
  match e with
  | EvWriteFileSync _ _ | EvSaveCheckpoint _ _ | EvDeleteCheckpoint _
  | EvAdd _ | EvCommit _ _ | EvCheckout _ => true
  | _ => false
  end.

(** [w'] comes after [w], and every call made in between passes [P]. *)
Definition calls_between (P : Event -> bool) (w w' : World) : Prop :=
  exists evs, trace w' = trace w ++ evs /\ forallb P evs = true.

(** None of the three stores differs. *)
Definition same_stores (w w' : World) : Prop :=
  files w' = files w /\ checkpoints w' = checkpoints w /\ repo w' = repo w.

(** Nothing but the ledger file and the checkpoint store differs. *)
Definition same_outside_ledger_and_store (w w' : World) : Prop :=
  repo w' = repo w
  /\ mtimes w' = mtimes w
  /\ read_fails w' = read_fails w
  /\ write_fails w' = write_fails w
  /\ forall path, path <> chatGitLogFile -> files w' !! path = files w !! path.

Definition context_history (context : CommandContext) : option (list Content) :=
  match config context with
  | Some cfg => chat_history cfg
  | None => None
  end.

Definition context_authType (context : CommandContext) : option string :=
  match config context with
  | Some cfg => currentAuthType cfg
  | None => None
  end.

(** The record [loadCheckpoint] hands out for a tag. *)
Definition loaded (w : World) (t : string) : Checkpoint :=
  default (mkCheckpoint [] None) (checkpoints w !! t).

(** The path of the checkpoint file [getSavedChatGitTags] looks at for
    an entry. *)
Definition checkpoint_path (geminiDir : string) (entry : LedgerEntry) : string :=
  path_join geminiDir ("checkpoint-" +:+ tag entry +:+ ".json").

(** ** A save that goes through *)

(** What [save] makes of the array read from the ledger. *)
Definition find_or_push (t h : string) (chatGitLog : list LedgerEntry)
  : list LedgerEntry :=
  let '(tagReused, chatGitLog') := find_assign t h chatGitLog in
  if negb (isSome tagReused)
  then chatGitLog' ++ [mkEntry h t]
  else chatGitLog'.

(** Steps 1 to 3 of [save] let the call through: the tag is not blank,
    the working directory is a repository, and no confirmation is due. *)
Definition save_cleared (context : CommandContext) (t : string) (w : World)
  : Prop :=
  t <> ""
  /\ checkIsRepo_out (repo w) = Ok true
  /\ (overwriteConfirmed context = true \/ checkpoints w !! t = None).

(** Step 5 of [save] yields the commit [h]: the HEAD of a clean tree, or
    the commit made of a dirty one. *)
Definition snapshot_yields (w : World) (h : string) : Prop :=
  match status_isClean (repo w) with
  | Ok true => HEAD (repo w) = Ok h
  | Ok false => add_out (repo w) = Ok tt /\ commit_out (repo w) = Ok h
  | Err _ => False
  end.

(** The repository after step 5 of [save] for the tag [t]. *)
Definition repo_after_snapshot (t h : string) (r : Repo) : Repo :=
  match status_isClean r with
  | Ok false => committed h ("commit made with chat-git tag " +:+ t) r
  | _ => r
  end.

(** Step 7 of [save] can go through: the ledger file holds the entries
    [chatGitLog] (none when absent), can be read if present, and can be
    written. *)
Definition ledger_usable (w : World) (chatGitLog : list LedgerEntry) : Prop :=
  ledger_entries w = Some chatGitLog
  /\ write_fails w = None
  /\ (ledger w = None \/ read_fails w = None).

(** A save that passes every check of the protocol: it is cleared, the
    session has a conversation longer than the hidden initial context,
    the snapshot yields the commit [h], and the ledger, which holds
    [chatGitLog], can be rewritten. *)
Definition save_passes (INITIAL_HISTORY_LENGTH : nat)
    (context : CommandContext) (args : string) (w : World)
    (conversation : list Content) (h : string)
    (chatGitLog : list LedgerEntry) : Prop :=
  save_cleared context (trim args) w
  /\ context_history context = Some conversation
  /\ INITIAL_HISTORY_LENGTH < length conversation
  /\ snapshot_yields w h
  /\ ledger_usable w chatGitLog.

(** The answer of a save that went through. *)
Definition saved (decodeTagName : string -> string) (t h : string)
  : Settled SlashCommandActionReturn :=
  Resolved
    (message info
       ("Conversation checkpoint saved with tag: " +:+ decodeTagName t
        +:+ " and git commit hash " +:+ h +:+ ".")).

(** The calls of a save that passes every check, in order. *)
Definition save_calls (context : CommandContext) (t h : string)
    (conversation : list Content) (w : World) : list Event :=
  [ EvLoggerInitialize; EvCheckIsRepo ]
  ++ (if overwriteConfirmed context then [] else [ EvCheckpointExists t ])
  ++ [ EvStatus ["--porcelain"] ]
  ++ match status_isClean (repo w) with
     | Ok false =>
         [ EvAdd "./*";
           EvCommit ("commit made with chat-git tag " +:+ t) ["--no-verify"] ]
     | _ => []
     end
  ++ [ EvRevparse ["HEAD"];
       EvSaveCheckpoint (mkCheckpoint conversation (context_authType context)) t;
       EvExistsSync chatGitLogFile ]
  ++ match ledger w with
     | Some _ => [ EvReadFileSync chatGitLogFile ]
     | None => []
     end
  ++ [ EvWriteFileSync chatGitLogFile
         (Stringified
            (JArray (find_or_push t h (default [] (ledger_entries w))))) ].

Definition nothing_to_save : SlashCommandActionReturn :=
  message info "No conversation found to save.".


(** ** A resume that goes through *)

(** Steps 1 to 5 of [resume] let the call through: the tag is not
    blank, the store has a record for it with a history that is not
    empty, the ledger can be read and its first entry for the tag is
    [entry], the authentication types agree, and the working directory
    is a repository. *)
Definition resume_cleared (context : CommandContext) (t : string) (w : World)
    (checkpoint : Checkpoint) (entry : LedgerEntry) : Prop :=
  t <> ""
  /\ checkpoints w !! t = Some checkpoint
  /\ history checkpoint <> []
  /\ read_fails w = None
  /\ (exists chatGitLog,
         ledger w = Some (Stringified (JArray chatGitLog))
         /\ List.find (fun e => String.eqb (entry_tag e) t) chatGitLog
            = Some entry)
  /\ auth_differs (authType checkpoint) (context_authType context) = false
  /\ checkIsRepo_out (repo w) = Ok true.

Definition dirty_tree : SlashCommandActionReturn :=
  message error "Git repo is not clean, unable to checkout.".

(** ** The specification in its own words *)

Definition has_tag (t : string) (chatGitLog : list LedgerEntry) : bool :=
  existsb (fun entry => String.eqb (tag entry) t) chatGitLog.

(** The commit hash of the entries tagged [t] set to [h], in place. *)
Definition rehash (t h : string) (chatGitLog : list LedgerEntry)
  : list LedgerEntry :=
  map (fun entry =>
         if String.eqb (tag entry) t then mkEntry h (tag entry) else entry)
      chatGitLog.

(** The upsert of section 4.1 of the specification, in its words:
    replace the entry whose tag matches, updating only its commit hash,
    or append a new entry if none matches. *)
Definition upsert_spec (t h : string) (chatGitLog : list LedgerEntry)
  : list LedgerEntry :=
  if has_tag t chatGitLog
  then rehash t h chatGitLog
  else chatGitLog ++ [mkEntry h t].

(** The display history of step 8 of [resume], in the words of the
    specification: drop the hidden initial-context prefix, map the role
    of each turn to a display role ([user] or [model], [model] for an
    unknown or absent role), concatenate the text fragments of each
    turn, and drop the turns whose text is empty. *)
Definition display_role (r : option string) : MessageType :=
  match r with
  | Some s => if String.eqb s "user" then USER else GEMINI
  | None => GEMINI
  end.

Definition turn_text (turn : Content) : string :=
  String.concat "" (omap text (default [] (parts turn))).

Definition display_history_spec (INITIAL_HISTORY_LENGTH : nat)
    (conversation : list Content) : list HistoryItemWithoutId :=
  List.filter (fun item => truthy (item_text item))
    (map (fun turn => mkHistoryItem (display_role (role turn)) (turn_text turn))
         (skipn INITIAL_HISTORY_LENGTH conversation)).

(** No turn has a role that names a property every object inherits. *)
Definition plain_roles (conversation : list Content) : Prop :=
  Forall (fun turn =>
            match role turn with
            | Some r => inherits r = false
            | None => True
            end)
         conversation.

(** The display role the loop of [resume] arrives at: [user] and [model]
    as [rolemap] has them, the inherited value for a role that names a
    property of [Object.prototype], and [model] for every other role
    and for none. *)
Definition shown_role (r : option string) : MessageType :=
  match r with
  | Some s =>
      if String.eqb s "user" then USER
      else if inherits s then INHERITED s
      else GEMINI
  | None => GEMINI
  end.

(** The display history the loop of [resume] builds. *)
Definition display_history (INITIAL_HISTORY_LENGTH : nat)
    (conversation : list Content) : list HistoryItemWithoutId :=
  List.filter (fun item => truthy (item_text item))
    (map (fun turn => mkHistoryItem (shown_role (role turn)) (turn_text turn))
         (skipn INITIAL_HISTORY_LENGTH conversation)).

(** ** Worlds for the examples *)

(** [decodeTagName] on a tag without escapes. *)
Definition plain_tag (t : string) : string := t.

Definition quiet_repo : Repo :=
  mkRepo (Ok true) (Ok true) (Ok tt) (Ok "c3") (Ok "c2") [] (Ok tt).

Definition dirty_repo : Repo :=
  mkRepo (Ok true) (Ok false) (Ok tt) (Ok "c3") (Ok "c2") [] (Ok tt).

Definition failing_commit_repo : Repo :=
  mkRepo (Ok true) (Ok false) (Ok tt) (Err "Error: Commit failed") (Ok "c2") []
         (Ok tt).

Definition failing_checkout_repo : Repo :=
  mkRepo (Ok true) (Ok true) (Ok tt) (Ok "c3") (Ok "c2") []
         (Err "Error: Checkout failed").

Definition world_of (chatGitLog : list LedgerEntry)
    (store : gmap string Checkpoint) (r : Repo) : World :=
  mkWorld {[ chatGitLogFile := Stringified (JArray chatGitLog) ]}
          None None ∅ store r [].

Definition fresh_world : World := world_of [] ∅ quiet_repo.

Definition reused_tag_world : World :=
  world_of [mkEntry "old-commit-hash" "my-tag"] ∅ dirty_repo.

(** A world whose ledger file is there but holds no JSON. *)
Definition garbled_ledger_world : World :=
  mkWorld {[ chatGitLogFile := NotJson ]} None None ∅ ∅ quiet_repo [].

(** A conversation of two turns, the first being the hidden context. *)
Definition short_talk : list Content :=
  [ mkContent (Some "user") (Some [mkPart (Some "context for our chat")]);
    mkContent (Some "user") (Some [mkPart (Some "hello")]) ].

(** A single turn: no longer than a hidden initial context of one turn,
    yet not empty. *)
Definition one_turn : list Content :=
  [ mkContent (Some "user") (Some [mkPart (Some "test")]) ].

(** A conversation with a turn in several fragments, a fragment without
    text, an unknown role and a turn without parts. *)
Definition mixed_talk : list Content :=
  [ mkContent (Some "user") (Some [mkPart (Some "context")]);
    mkContent (Some "user") (Some [mkPart (Some "hello gemini")]);
    mkContent (Some "model")
              (Some [mkPart (Some "hello "); mkPart None; mkPart (Some "world")]);
    mkContent (Some "tool") (Some [mkPart (Some "42")]);
    mkContent None None ].

(** The ledger and the store hold [good-tag], with the conversation
    [conversation] saved under the authentication type [saved_auth]. *)
Definition good_tag_world (conversation : list Content)
    (saved_auth : option string) (r : Repo) : World :=
  world_of [mkEntry "1234567890abcdef" "good-tag"]
           {[ "good-tag" := mkCheckpoint conversation saved_auth ]} r.

(** Two checkpoints, the first one hour older than the second. *)
Definition two_checkpoints (first second : string) : World :=
  mkWorld
    {[ chatGitLogFile :=
         Stringified (JArray [mkEntry "abc" first; mkEntry "def" second]) ]}
    None None
    {[ checkpoint_path "/project/root/.gemini/tmp/mockhash" (mkEntry "abc" first)
         := "2026-01-01T10:00:00.000Z";
       checkpoint_path "/project/root/.gemini/tmp/mockhash" (mkEntry "def" second)
         := "2026-01-01T11:00:00.000Z" ]}
    ∅ quiet_repo [].

Definition bare_context : CommandContext := mkContext false None None.

Definition talking_context (confirmed : bool) (conversation : list Content)
  : CommandContext :=
  mkContext confirmed None
            (Some (mkConfig (Some conversation) (Some "oauth-personal")
                            (Some "/tmp/project"))).


(** A conversation whose second turn has a role that names a property
    of [Object.prototype]. *)
Definition odd_role_talk : list Content :=
  [ mkContent (Some "user") (Some [mkPart (Some "context for our chat")]);
    mkContent (Some "constructor") (Some [mkPart (Some "hello")]) ].

(** The context of the tests: Google login, a project directory for the
    checkpoint files, and the conversation given. *)
Definition test_context (confirmed : bool) (conversation : list Content)
  : CommandContext :=
  mkContext confirmed None
            (Some (mkConfig (Some conversation) (Some "oauth-personal")
                            (Some "/project/root/.gemini/tmp/mockhash"))).

(** * Plain git commands

    A shallow embedding of [packages/cli/src/ui/commands/gitCommand.ts]:
    the sub-commands of [/git], each of which runs one git command line
    through [exec] and answers with its output.  [logCommand] is left
    out: its count goes through [parseInt] and the printing of a
    Number, which are double-precision arithmetic. *)

(** What the promise of [exec] resolves with. *)
Record ExecOut := mkExecOut {
  stdout : string;
  stderr : string
}.

(** The shell behind [exec]: for a command line, the output of the
    child process, or the message of the error the promise rejects
    with. *)
Definition Shell : Type := string -> Result ExecOut.

(** A step of a git command: from the command lines run so far to its
    value and the command lines run by its end. *)
Definition Git (A : Type) : Type := list string -> A * list string.

Definition newline : ascii := ascii_of_nat 10.

(** [s.split(sep)] for a separator of one character. *)
Fixpoint split_on (sep : ascii) (s : string) : list string :=
  match s with
  | EmptyString => [EmptyString]
  | String a s' =>
      if Ascii.eqb a sep then EmptyString :: split_on sep s'
      else match split_on sep s' with
           | first :: rest => String a first :: rest
           | [] => [String a EmptyString]
           end
  end.

(** The number of bytes of the white-space character at the head of
    [s], in the sense of [trim] and of [\s]; 0 when there is none. *)
Definition ws_width (s : string) : nat :=
  match s with
  | EmptyString => 0
  | String a s1 =>
      if isWs1 a then 1 else
      match s1 with
      | EmptyString => 0
      | String b s2 =>
          if isWs2 a b then 2 else
          match s2 with
          | EmptyString => 0
          | String c _ => if isWs3 a b c then 3 else 0
          end
      end
  end.

(** [s.split(/\s+/)]: the pieces between the runs of white space, with
    an empty piece in front of a leading run and behind a trailing one.
    [skip] counts the bytes left of the white-space character being
    read, [in_run] tells that the bytes before belong to a run. *)
Fixpoint split_ws_go (s : string) (skip : nat) (in_run : bool) : list string :=
  match s with
  | EmptyString => [EmptyString]
  | String a s' =>
      match skip with
      | S k => split_ws_go s' k in_run
      | O =>
          match ws_width (String a s') with
          | S k =>
              if in_run then split_ws_go s' k true
              else EmptyString :: split_ws_go s' k true
          | O =>
              match split_ws_go s' 0 false with
              | first :: rest => String a first :: rest
              | [] => [String a EmptyString]
              end
          end
      end
  end.

Definition split_ws (s : string) : list string := split_ws_go s 0 false.

(** [s.substring(n)], used behind a [startsWith] of [n] ASCII
    characters only. *)
Fixpoint substring_from (n : nat) (s : string) : string :=
  match n, s with
  | S k, String _ s' => substring_from k s'
  | _, _ => s
  end.

Definition usage_worktree_add : string :=
  "Usage: /git worktree add <path> [branch]"
  +:+ String newline "       /git worktree add <path> -b <new-branch>".

Section GitCommand.

Variable execAsync : Shell.

(** Helper to run git commands and return stdout/stderr. *)
Definition runGit (args : list string) : Git (Result ExecOut) :=
  fun calls =>
    let command := "git " +:+ String.concat " " args in
    (execAsync command, calls ++ [command]).

Definition statusCommand_action : Git SlashCommandActionReturn :=
  fun calls =>
    match runGit ["status"; "--short"] calls with
    | (Ok out, calls') =>
        (message info (or_else (stdout out) "Working tree clean"), calls')
    | (Err err, calls') => (message error ("Git error: " +:+ err), calls')
    end.

Definition branchCommand_action : Git SlashCommandActionReturn :=
  fun calls =>
    match runGit ["branch"; "-vv"] calls with
    | (Ok out, calls') =>
        (message info (or_else (stdout out) "No branches found"), calls')
    | (Err err, calls') => (message error ("Git error: " +:+ err), calls')
    end.

Definition diffCommand_action (args : string) : Git SlashCommandActionReturn :=
  fun calls =>
    let file := trim args in
    let gitArgs :=
      if truthy file then ["diff"; "--stat"; file] else ["diff"; "--stat"] in
    match runGit gitArgs calls with
    | (Ok out, calls') =>
        (message info (or_else (stdout out) "No changes"), calls')
    | (Err err, calls') => (message error ("Git error: " +:+ err), calls')
    end.

Definition worktreeListCommand_action : Git SlashCommandActionReturn :=
  fun calls =>
    match runGit ["worktree"; "list"] calls with
    | (Ok out, calls') =>
        (message info (or_else (stdout out) "No worktrees found"), calls')
    | (Err err, calls') => (message error ("Git error: " +:+ err), calls')
    end.

Definition worktreeAddCommand_action (args : string)
  : Git SlashCommandActionReturn :=
  fun calls =>
    let parts := split_ws (trim args) in
    if (length parts =? 0)%nat
       || match parts with
          | first :: _ => negb (truthy first)
          | [] => true
          end
    then (message error usage_worktree_add, calls)
    else
      let gitArgs := "worktree" :: "add" :: parts in
      match runGit gitArgs calls with
      | (Ok out, calls') =>
          let output := or_else (stdout out) (stderr out) in
          (message info
             (or_else output
                      ("Worktree created at " +:+ default "" (head parts))),
           calls')
      | (Err err, calls') => (message error ("Git error: " +:+ err), calls')
      end.

Definition worktreeAddCommand_completion (partialArg : string)
  : Git (list string) :=
  fun calls =>
    match runGit ["branch"; "--format=%(refname:short)"; "-a"] calls with
    | (Ok out, calls') =>
        let branches :=
          List.filter (fun b => truthy b && startsWith b partialArg)
                      (map trim (split_on newline (stdout out))) in
        (branches, calls')
    | (Err _, calls') => ([], calls')
    end.

Definition worktreeRemoveCommand_action (args : string)
  : Git SlashCommandActionReturn :=
  fun calls =>
    let worktreePath := trim args in
    if negb (truthy worktreePath)
    then (message error "Usage: /git worktree remove <path>", calls)
    else
      match runGit ["worktree"; "remove"; worktreePath] calls with
      | (Ok out, calls') =>
          let output := or_else (stdout out) (stderr out) in
          (message info
             (or_else output ("Worktree at " +:+ worktreePath +:+ " removed")),
           calls')
      | (Err err, calls') => (message error ("Git error: " +:+ err), calls')
      end.

(** One round of the loop over the lines of [git worktree list
    --porcelain]. *)
Definition push_worktree_path (partialArg : string) (paths : list string)
    (line : string) : list string :=
  if startsWith line "worktree "
  then let path := substring_from (String.length "worktree ") line in
       if startsWith path partialArg then paths ++ [path] else paths
  else paths.

Definition worktreeRemoveCommand_completion (partialArg : string)
  : Git (list string) :=
  fun calls =>
    match runGit ["worktree"; "list"; "--porcelain"] calls with
    | (Ok out, calls') =>
        (fold_left (push_worktree_path partialArg)
                   (split_on newline (stdout out)) [],
         calls')
    | (Err _, calls') => ([], calls')
    end.

Definition worktreePruneCommand_action : Git SlashCommandActionReturn :=
  fun calls =>
    match runGit ["worktree"; "prune"; "-v"] calls with
    | (Ok out, calls') =>
        let output := or_else (stdout out) (stderr out) in
        (message info (or_else output "No stale worktrees to prune"), calls')
    | (Err err, calls') => (message error ("Git error: " +:+ err), calls')
    end.

End GitCommand.

(** * fork-git

    A shallow embedding of [forkGitCommand]: a checkpoint of the
    conversation with the commit at hand named in the answer. *)

Section ForkGit.

Variable INITIAL_HISTORY_LENGTH : nat.
Variable decodeTagName : string -> string.

(** [execSync(command).toString()]: the standard output of the
    command, or the message of the error thrown. *)
Variable execSync : string -> Result string.

Definition forkGitCommand_action (context : CommandContext) (args : string)
  : World -> Settled SlashCommandActionReturn * World :=
  async (
    let tag := trim args in
    when_ (negb (truthy tag))
      (return_ (message error "Missing tag. Usage: /fork-git <tag>"));;
    logger_initialize;;
    when_ (negb (overwriteConfirmed context))
      (let* checkpoint_exists := logger_checkpointExists tag in
       when_ checkpoint_exists
         (return_
            (confirm_action
               [ Plain "A checkpoint with the tag ";
                 Accent tag;
                 Plain " already exists. Do you want to overwrite it?" ]
               match invocation_raw context with
               | Some raw => or_else raw ("/fork-git " +:+ tag)
               | None => "/fork-git " +:+ tag
               end)));;
    match
      match config context with
      | Some cfg => chat_history cfg
      | None => None
      end
    with
    | None =>
        return_ (message error "No chat client available to save conversation.")
    | Some history =>
        if (INITIAL_HISTORY_LENGTH <? length history)%nat
        then
          let authType :=
            match config context with
            | Some cfg => currentAuthType cfg
            | None => None
            end in
          let commitId :=
            match execSync "git rev-parse HEAD" with
            | Ok out => trim out
            | Err err => "Error: " +:+ err
            end in
          logger_saveCheckpoint (mkCheckpoint history authType) tag;;
          return_
            (message info
               ("Conversation checkpoint saved with tag: "
                +:+ decodeTagName tag +:+ " and commitId: " +:+ commitId
                +:+ "."))
        else return_ (message info "No conversation found to save.")
    end).

End ForkGit.

(** ** Further vocabulary *)

(** Step 2 of [resume] lets the call through: the tag is not blank and
    the store has a record for it whose history is not empty. *)
Definition resume_has_checkpoint (t : string) (w : World)
    (checkpoint : Checkpoint) : Prop :=
  t <> ""
  /\ checkpoints w !! t = Some checkpoint
  /\ history checkpoint <> [].

(** The ledger cannot be had as an array: the file is absent, cannot be
    read, is not JSON, or is JSON of another shape. *)
Definition ledger_unusable (w : World) : Prop :=
  read_fails w <> None
  \/ ledger w = None
  \/ ledger w = Some NotJson
  \/ ledger w = Some (Stringified JOther).

(** Calls that write to the ledger, the checkpoint store or the commit
    history; a checkout is not among them. *)
Definition is_write (e : Event) : bool :=
  match e with
  | EvWriteFileSync _ _ | EvSaveCheckpoint _ _ | EvDeleteCheckpoint _
  | EvAdd _ | EvCommit _ _ => true
  | _ => false
  end.

(** Calls that write a record: to a file or to the checkpoint store. *)
Definition is_record_write (e : Event) : bool :=
  match e with
  | EvWriteFileSync _ _ | EvSaveCheckpoint _ _ | EvDeleteCheckpoint _ => true
  | _ => false
  end.

(** Calls that only look at the file system. *)
Definition is_fs_read (e : Event) : bool :=
  match e with
  | EvExistsSync _ | EvReadFileSync _ | EvStat _ => true
  | _ => false
  end.

(** The stored and the current authentication type go together: one of
    them is absent or empty, or they are the same. *)
Definition auth_compatible (saved current : option string) : Prop :=
  saved = None \/ saved = Some "" \/ current = None \/ current = Some ""
  \/ saved = current.

Definition other_auth_world : World :=
  good_tag_world short_talk (Some "gemini-api-key") quiet_repo.

Definition legacy_world : World :=
  good_tag_world mixed_talk None quiet_repo.

(** The store holds [good-tag], the ledger only another tag. *)
Definition unlisted_tag_world : World :=
  world_of [mkEntry "abc" "other-tag"]
           {[ "good-tag" := mkCheckpoint short_talk (Some "oauth-personal") ]}
           quiet_repo.

(** The store holds [good-tag], the ledger file is gone. *)
Definition lost_ledger_world : World :=
  mkWorld ∅ None None ∅
          {[ "good-tag" := mkCheckpoint short_talk (Some "oauth-personal") ]}
          quiet_repo [].

(** Step 5 of [save] fails with [err]: the status cannot be had, the
    HEAD of a clean tree cannot be read, or a dirty tree cannot be
    staged or committed. *)
Definition snapshot_fails (w : World) (err : string) : Prop :=
  match status_isClean (repo w) with
  | Err e => err = e
  | Ok true => HEAD (repo w) = Err err
  | Ok false =>
      add_out (repo w) = Err err
      \/ (add_out (repo w) = Ok tt /\ commit_out (repo w) = Err err)
  end.

(** Step 7 of [save] fails: the ledger file cannot be written, or it is
    there and cannot be read or holds no array. *)
Definition ledger_fails (w : World) : Prop :=
  match ledger w with
  | None => write_fails w <> None
  | Some (Stringified (JArray _)) =>
      read_fails w <> None \/ write_fails w <> None
  | Some _ => True
  end.

(** The entries of the ledger whose tag is not [t]. *)
Definition other_tags (t : string) (chatGitLog : list LedgerEntry)
  : list LedgerEntry :=
  List.filter (fun entry => negb (String.eqb (tag entry) t)) chatGitLog.

Definition outside_repo : Repo :=
  mkRepo (Ok false) (Ok true) (Ok tt) (Ok "c3") (Ok "c2") [] (Ok tt).

Definition no_git_repo : Repo :=
  mkRepo (Err "Error: spawn git ENOENT") (Ok true) (Ok tt) (Ok "c3") (Ok "c2")
         [] (Ok tt).

(** A world whose ledger file cannot be written. *)
Definition read_only_world : World :=
  mkWorld {[ chatGitLogFile := Stringified (JArray []) ]}
          None (Some "Error: EACCES: permission denied") ∅ ∅ dirty_repo [].

(** A context without configuration, hence without chat client. *)
Definition confirmed_bare_context : CommandContext := mkContext true None None.

(** The answer of [delete] once the ledger is written back, by whether
    the store had a record of the tag. *)
Definition deleted_answer (decodeTagName : string -> string) (t : string)
    (found : bool) : SlashCommandActionReturn :=
  if found
  then message info
         ("Conversation checkpoint '" +:+ decodeTagName t
          +:+ "' has been deleted.")
  else message error
         ("Error: No checkpoint found with tag '" +:+ decodeTagName t +:+ "'.").

(** The calls of a [delete] that writes the ledger [chatGitLog] back. *)
Definition delete_calls (t : string) (chatGitLog : list LedgerEntry)
  : list Event :=
  [ EvReadFileSync chatGitLogFile;
    EvWriteFileSync chatGitLogFile (Stringified (JArray chatGitLog));
    EvLoggerInitialize;
    EvDeleteCheckpoint t ].

(** Three tags in the ledger, each with a checkpoint in the store. *)
Definition three_tags_world : World :=
  world_of [mkEntry "c1" "a"; mkEntry "c2" "b"; mkEntry "c3" "c"]
           {[ "a" := mkCheckpoint short_talk None;
              "b" := mkCheckpoint short_talk None;
              "c" := mkCheckpoint short_talk None ]}
           quiet_repo.

(** ** The enumeration of the saved chats *)

(** Nothing of the world differs but the trace, which has grown by
    calls that pass [P]. *)
Definition only_calls (P : Event -> bool) (w w' : World) : Prop :=
  files w' = files w
  /\ read_fails w' = read_fails w
  /\ write_fails w' = write_fails w
  /\ mtimes w' = mtimes w
  /\ checkpoints w' = checkpoints w
  /\ repo w' = repo w
  /\ calls_between P w w'.

(** Calls that look at the file system or add an item to the display. *)
Definition is_read_or_display (e : Event) : bool :=
  match e with
  | EvAddItem _ => true
  | _ => is_fs_read e
  end.

(** What the loop of [getSavedChatGitTags] pushes for a ledger entry
    whose checkpoint file has a modification time. *)
Definition chat_detail (decodeTagName : string -> string) (geminiDir : string)
    (times : gmap string string) (entry : LedgerEntry) : ChatDetail :=
  mkChatDetail (decodeTagName (tag entry))
               (default "" (times !! checkpoint_path geminiDir entry)).

(** The enumeration can go through: the ledger can be read and holds
    the entries [chatGitLog], the context gives the directory
    [geminiDir] of the checkpoint files, and every entry has its
    file. *)
Definition listing_ready (context : CommandContext) (w : World)
    (geminiDir : string) (chatGitLog : list LedgerEntry) : Prop :=
  read_fails w = None
  /\ ledger w = Some (Stringified (JArray chatGitLog))
  /\ (exists cfg,
         config context = Some cfg /\ projectTempDir cfg = Some geminiDir)
  /\ geminiDir <> ""
  /\ Forall (fun entry =>
               is_Some (mtimes w !! checkpoint_path geminiDir entry))
            chatGitLog.

(** Each element stands in the relation [R] to the next one. *)
Fixpoint in_order {A} (R : A -> A -> Prop) (l : list A) : Prop :=
  match l with
  | a :: (b :: _) as rest => R a b /\ in_order R rest
  | _ => True
  end.

(** [a] does not come after [b] by the comparator [cmp]. *)
Definition not_after {A} (cmp : A -> A -> comparison) (a b : A) : Prop :=
  cmp a b <> Gt.

(** The comparator [getSavedChatGitTags] sorts with. *)
Definition by_mtime (mtSortDesc : bool) (a b : ChatDetail) : comparison :=
  if mtSortDesc
  then localeCompare (mtime b) (mtime a)
  else localeCompare (mtime a) (mtime b).

(** Two entries in the ledger, the checkpoint file of the second one
    gone. *)
Definition one_file_gone : World :=
  mkWorld
    {[ chatGitLogFile :=
         Stringified (JArray [mkEntry "abc" "alpha"; mkEntry "def" "beta"]) ]}
    None None
    {[ checkpoint_path "/project/root/.gemini/tmp/mockhash" (mkEntry "abc" "alpha")
         := "2026-01-01T10:00:00.000Z" ]}
    ∅ quiet_repo [].

(** ** Plain git commands *)

(** What a command that runs the one command line [command] leaves
    behind: the command line in the record of the calls, and an answer
    that is the error of git when git failed, and otherwise an
    information that is never empty and is the standard output when
    there is one. *)
Definition answers_for (execAsync : Shell) (command : string)
    (calls : list string) (r : SlashCommandActionReturn * list string) : Prop :=
  r.2 = calls ++ [command]
  /\ match execAsync command with
     | Err err => r.1 = message error ("Git error: " +:+ err)
     | Ok out =>
         exists content,
           r.1 = message info content
           /\ content <> ""
           /\ (stdout out <> "" -> content = stdout out)
     end.

(** ** fork-git *)

(** The first two steps of [fork-git] let the call through: the tag is
    not blank and no confirmation is due. *)
Definition fork_cleared (context : CommandContext) (t : string) (w : World)
  : Prop :=
  t <> ""
  /\ (overwriteConfirmed context = true \/ checkpoints w !! t = None).

(** The commit named in the answer of [fork-git]. *)
Definition fork_commitId (execSync : string -> Result string) : string :=
  match execSync "git rev-parse HEAD" with
  | Ok out => trim out
  | Err err => "Error: " +:+ err
  end.

(** A shell in which git is not to be found. *)
Definition no_git_shell (command : string) : Result string :=
  Err "Command failed: git rev-parse HEAD".

(** The repository does not let [resume] check a commit out, and
    [answer] is what [resume] says to that: the working directory is
    no repository, the check for one fails, the status cannot be had,
    or the tree is dirty. *)
Definition repository_unfit (r : Repo) (answer : SlashCommandActionReturn)
  : Prop :=
  match checkIsRepo_out r with
  | Ok false => answer = not_a_repo
  | Err _ => answer = repo_check_failed
  | Ok true =>
      match status_isClean r with
      | Err err =>
          answer = message error ("Failed checking git repo status, " +:+ err)
      | Ok false => answer = dirty_tree
      | Ok true => False
      end
  end.

(** ** Proof automation *)

(** Runs the monad, leaving the stores and the operations on them
    folded. *)
Ltac run_cbv :=
  cbv beta iota zeta delta
    [async await bind try_catch when_ return_ throw pure get modify emit of_result
     existsSync readFileSync writeFileSync stat_mtime JSON_parse as_array
     logger_initialize logger_checkpointExists logger_saveCheckpoint
     logger_loadCheckpoint logger_deleteCheckpoint
     git_checkIsRepo git_status_isClean git_add git_commit git_revparse
     git_checkout ui_addItem
     fst snd log set_files set_checkpoints set_repo committed checked_out
     repo trace files checkpoints read_fails write_fails mtimes
     checkIsRepo_out status_isClean add_out commit_out HEAD commits checkout_out
     negb isSome truthy not_number JSON_stringify ledger same_stores
     same_outside_ledger_and_store].

Ltac case_step :=
  match goal with
  | |- context [match collect_chatDetails ?d ?g ?l ?w with _ => _ end] =>
      destruct (collect_chatDetails d g l w) as [[?|?|?] ?]
  | |- context [match ?x with _ => _ end] =>
      lazymatch x with
      | context [match _ with _ => _ end] => fail
      | _ => destruct x eqn:?
      end
  | |- context [if ?x then _ else _] =>
      lazymatch x with
      | context [match _ with _ => _ end] => fail
      | _ => destruct x eqn:?
      end
  end.

Ltac solve_calls :=
  unfold calls_between; run_cbv;
  repeat rewrite <- app_assoc; cbn [app];
  first [ eexists; split; [reflexivity | reflexivity]
        | exists []; rewrite app_nil_r; split; reflexivity ].

Ltac open_world w :=
  let r := fresh "r" in
  destruct w as [? ? ? ? ? r ?]; destruct r;
  cbn [repo trace files checkpoints read_fails write_fails mtimes
       checkIsRepo_out status_isClean add_out commit_out HEAD commits
       checkout_out] in *.

(** ** Strings and arrays *)

(** A no-break space in front, a tab and a line feed behind. *)
Example trim_strips_white_space :
  trim (String (ascii_of_nat 194) (String (ascii_of_nat 160) "  my tag ")
        +:+ String (ascii_of_nat 9) (String (ascii_of_nat 10) ""))
  = "my tag".
Proof. reflexivity. Qed.

Example splice_counts_from_the_end :
  splice (-1) 1 [1; 2; 3]%nat = [1; 2]%nat
  /\ splice 0 1 [1; 2; 3]%nat = [2; 3]%nat
  /\ splice (-1) 1 (@nil nat) = [].
Proof. repeat split; reflexivity. Qed.


Lemma findIndex_from_none {A} (p : A -> bool) (l : list A) (i : Z) :
  Forall (fun x => p x = false) l -> findIndex_from p l i = (-1)%Z.
Proof.
  intros Hl. revert i.
  induction Hl as [|x l Hx _ IH]; intros i; simpl; [reflexivity|].
  rewrite Hx. apply IH.
Qed.

Lemma findIndex_from_first {A} (p : A -> bool) (before : list A) (x : A)
    (after : list A) (i : Z) :
  Forall (fun y => p y = false) before -> p x = true ->
  findIndex_from p (before ++ x :: after) i = (i + Z.of_nat (length before))%Z.
Proof.
  intros Hb Hx. revert i.
  induction Hb as [|y before Hy _ IH]; intros i; simpl.
  - rewrite Hx. lia.
  - rewrite Hy, IH. lia.
Qed.

Lemma splice_last {A} (l : list A) : splice (-1) 1 l = removelast l.
Proof.
  unfold splice. cbn [Z.ltb Z.compare].
  destruct l as [|x l]; [reflexivity|].
  set (k := x :: l).
  assert (Hlen : (1 <= Z.of_nat (length k))%Z) by (subst k; simpl; lia).
  replace (Z.max (Z.of_nat (length k) + -1) 0) with (Z.of_nat (length k) - 1)%Z by lia.
  replace (Z.min (Z.max 1 0) (Z.of_nat (length k) - (Z.of_nat (length k) - 1)))
    with 1%Z by lia.
  replace (Z.of_nat (length k) - 1 + 1)%Z with (Z.of_nat (length k)) by lia.
  rewrite Nat2Z.id.
  replace (Z.to_nat (Z.of_nat (length k) - 1)) with (pred (length k)) by lia.
  rewrite skipn_all, app_nil_r. symmetry. apply removelast_firstn_len.
Qed.

Lemma splice_one {A} (before : list A) (x : A) (after : list A) :
  splice (Z.of_nat (length before)) 1 (before ++ x :: after) = before ++ after.
Proof.
  unfold splice.
  assert (Hlen : length (before ++ x :: after) = (length before + S (length after))%nat)
    by (rewrite length_app; reflexivity).
  rewrite Hlen.
  destruct (Z.of_nat (length before) <? 0)%Z eqn:E; [lia|].
  replace (Z.min (Z.of_nat (length before))
                 (Z.of_nat (length before + S (length after))))
    with (Z.of_nat (length before)) by lia.
  replace (Z.min (Z.max 1 0)
                 (Z.of_nat (length before + S (length after)) - Z.of_nat (length before)))
    with 1%Z by lia.
  rewrite Nat2Z.id.
  replace (Z.to_nat (Z.of_nat (length before) + 1)) with (S (length before)) by lia.
  rewrite firstn_app, firstn_all, Nat.sub_diag. cbn [firstn].
  rewrite app_nil_r.
  replace (S (length before)) with (length (before ++ [x]))
    by (rewrite length_app; simpl; lia).
  replace (before ++ x :: after) with ((before ++ [x]) ++ after)
    by (rewrite <- app_assoc; reflexivity).
  rewrite skipn_app, skipn_all, Nat.sub_diag. reflexivity.
Qed.

Lemma truthy_nonempty (s : string) : s <> "" -> truthy s = true.
Proof. destruct s; [congruence | reflexivity]. Qed.

Lemma tag_eqb_absent (t : string) (chatGitLog : list LedgerEntry) :
  Forall (fun entry => tag entry <> t) chatGitLog ->
  Forall (fun entry => String.eqb (entry_tag entry) t = false) chatGitLog.
Proof.
  intros Habs. eapply Forall_impl; [exact Habs|].
  intros entry Hne. apply String.eqb_neq. exact Hne.
Qed.

Section Delete.

Variable decodeTagName : string -> string.
Local Abbreviation delete := (deleteCommand_action decodeTagName).

(** The three ways the lookup by [findIndex] can end, and what
    [if (!tagIndex)] makes of each.  First, no entry has the tag: the
    index is [-1], which is not falsy, and [splice(-1, 1)] takes the
    last entry out. *)
Lemma delete_tag_absent (context : CommandContext) (args : string) (w : World)
    (chatGitLog : list LedgerEntry) :
  trim args <> "" ->
  read_fails w = None -> write_fails w = None ->
  ledger w = Some (Stringified (JArray chatGitLog)) ->
  Forall (fun entry => tag entry <> trim args) chatGitLog ->
  let r := delete context args w in
  ledger r.2 = Some (Stringified (JArray (removelast chatGitLog)))
  /\ trace r.2 =
       trace w ++ [ EvReadFileSync chatGitLogFile;
                    EvWriteFileSync chatGitLogFile
                      (Stringified (JArray (removelast chatGitLog)));
                    EvLoggerInitialize;
                    EvDeleteCheckpoint (trim args) ].
Proof.
  intros Htag Hr Hw Hl Habs.
  apply truthy_nonempty in Htag. apply tag_eqb_absent in Habs.
  open_world w. subst. unfold ledger in Hl. cbn [files] in Hl.
  unfold deleteCommand_action.
  cbv beta iota zeta delta [async bind when_ return_ pure negb].
  rewrite Htag. run_cbv. rewrite Hl.
  unfold findIndex. rewrite (findIndex_from_none _ _ _ Habs).
  rewrite splice_last. cbn [Z.eqb]. run_cbv.
  case_step; run_cbv; (split; [apply lookup_insert_eq|]);
    repeat rewrite <- app_assoc; reflexivity.
Qed.

(** Second, the first entry has the tag: the index is [0], which is
    falsy, and the command stops as if there were no entry. *)
Lemma delete_tag_at_head (context : CommandContext) (args : string) (w : World)
    (entry : LedgerEntry) (rest : list LedgerEntry) :
  trim args <> "" ->
  read_fails w = None ->
  ledger w = Some (Stringified (JArray (entry :: rest))) ->
  tag entry = trim args ->
  delete context args w =
    (Resolved (message error
                 ("Tag not associated with git snapshot, " +:+ trim args)),
     log (EvReadFileSync chatGitLogFile) w).
Proof.
  intros Htag Hr Hl Hentry.
  apply truthy_nonempty in Htag.
  open_world w. subst. unfold ledger in Hl. cbn [files] in Hl.
  unfold deleteCommand_action.
  cbv beta iota zeta delta [async bind when_ return_ pure negb].
  rewrite Htag. run_cbv. rewrite Hl.
  unfold findIndex. cbn [findIndex_from]. unfold entry_tag.
  rewrite Hentry, String.eqb_refl. cbn [Z.eqb]. reflexivity.
Qed.

(** Third, a later entry is the first with the tag: it is taken out
    and the checkpoint deleted. *)
Lemma delete_tag_later (context : CommandContext) (args : string) (w : World)
    (before : list LedgerEntry) (entry : LedgerEntry)
    (after : list LedgerEntry) :
  trim args <> "" ->
  read_fails w = None -> write_fails w = None ->
  ledger w = Some (Stringified (JArray (before ++ entry :: after))) ->
  before <> [] ->
  Forall (fun e => tag e <> trim args) before ->
  tag entry = trim args ->
  let r := delete context args w in
  ledger r.2 = Some (Stringified (JArray (before ++ after)))
  /\ trace r.2 =
       trace w ++ [ EvReadFileSync chatGitLogFile;
                    EvWriteFileSync chatGitLogFile
                      (Stringified (JArray (before ++ after)));
                    EvLoggerInitialize;
                    EvDeleteCheckpoint (trim args) ]
  /\ checkpoints r.2 = base.delete (trim args) (checkpoints w).
Proof.
  intros Htag Hr Hw Hl Hne Hbefore Hentry.
  apply truthy_nonempty in Htag. apply tag_eqb_absent in Hbefore.
  open_world w. subst. unfold ledger in Hl. cbn [files] in Hl.
  unfold deleteCommand_action.
  cbv beta iota zeta delta [async bind when_ return_ pure negb].
  rewrite Htag. run_cbv. rewrite Hl.
  unfold findIndex.
  rewrite (findIndex_from_first _ before entry after 0%Z Hbefore)
    by (unfold entry_tag; rewrite Hentry; apply String.eqb_refl).
  rewrite Z.add_0_l, splice_one.
  assert (Hz : (Z.of_nat (length before) =? 0)%Z = false).
  { apply Z.eqb_neq. destruct before; [congruence | simpl; lia]. }
  rewrite Hz. run_cbv.
  case_step; run_cbv;
    (split; [apply lookup_insert_eq|]);
    (split; [repeat rewrite <- app_assoc; reflexivity|]).
  - reflexivity.
  - symmetry. apply delete_id.
    destruct (checkpoints0 !! trim args); [discriminate | reflexivity].
Qed.

End Delete.

(** C1.  The ledger holds one entry, for [other-tag], and the store a
    record for [my-tag].  Deleting [my-tag] finds no entry, yet the
    command does not answer that the tag is not associated with a
    snapshot: it takes the last entry out of the ledger, writes the
    ledger back, calls [deleteCheckpoint] and reports the deletion. *)
Theorem delete_unknown_tag_drops_last_entry :
  let w := world_of [mkEntry "abc" "other-tag"]
                    {[ "my-tag" := mkCheckpoint short_talk None ]} quiet_repo in
  let r := deleteCommand_action plain_tag bare_context "my-tag" w in
  r.1 = Resolved (message info
                    "Conversation checkpoint 'my-tag' has been deleted.")
  /\ ledger w = Some (Stringified (JArray [mkEntry "abc" "other-tag"]))
  /\ ledger r.2 = Some (Stringified (JArray []))
  /\ checkpoints r.2 = ∅
  /\ trace r.2 =
       [ EvReadFileSync chatGitLogFile;
         EvWriteFileSync chatGitLogFile (Stringified (JArray []));
         EvLoggerInitialize;
         EvDeleteCheckpoint "my-tag" ].
Proof. vm_compute. repeat split; reflexivity. Qed.

(** C2.  The example of the specification: with the ledger
    [a -> c1, b -> c2], deleting [a], the entry at position 0, answers
    that the tag is not associated with a snapshot; the ledger keeps
    both entries and [deleteCheckpoint] is not called. *)
Theorem delete_first_entry_refused :
  let w := world_of [mkEntry "c1" "a"; mkEntry "c2" "b"]
                    {[ "a" := mkCheckpoint short_talk None ]} quiet_repo in
  let r := deleteCommand_action plain_tag bare_context "a" w in
  r.1 = Resolved (message error "Tag not associated with git snapshot, a")
  /\ ledger r.2 = Some (Stringified (JArray [mkEntry "c1" "a"; mkEntry "c2" "b"]))
  /\ checkpoints r.2 = checkpoints w
  /\ trace r.2 = [ EvReadFileSync chatGitLogFile ].
Proof. vm_compute. repeat split; reflexivity. Qed.

(** C10.  Delete makes no call on the version-control tool and leaves
    the repository as it was; of the world it changes the ledger file and
    the checkpoint store only. *)
Theorem delete_leaves_repository_alone
    (decodeTagName : string -> string) (context : CommandContext)
    (args : string) (w : World) :
  let w' := (deleteCommand_action decodeTagName context args w).2 in
  repo w' = repo w
  /\ calls_between (fun e => negb (is_git_event e)) w w'
  /\ same_outside_ledger_and_store w w'.
Proof.
  unfold deleteCommand_action. run_cbv.
  repeat (case_step; run_cbv).
  all: split; [reflexivity|].
  all: split; [solve_calls|].
  all: repeat split; try reflexivity.
  all: intros path Hpath; try reflexivity.
  all: apply lookup_insert_ne; congruence.
Qed.

Section Save.

Variable INITIAL_HISTORY_LENGTH : nat.
Variable decodeTagName : string -> string.
Local Abbreviation save :=
  (saveCommand_action INITIAL_HISTORY_LENGTH decodeTagName).

(** A save that passes every check: what it answers and what it
    leaves in the three stores. *)
Lemma save_succeeds (context : CommandContext) (args : string) (w : World)
    (conversation : list Content) (h : string)
    (chatGitLog : list LedgerEntry) :
  save_cleared context (trim args) w ->
  context_history context = Some conversation ->
  INITIAL_HISTORY_LENGTH < length conversation ->
  snapshot_yields w h ->
  ledger_usable w chatGitLog ->
  let r := save context args w in
  r.1 = saved decodeTagName (trim args) h
  /\ ledger r.2
     = Some (Stringified (JArray (find_or_push (trim args) h chatGitLog)))
  /\ checkpoints r.2
     = <[ trim args := mkCheckpoint conversation (context_authType context) ]>
         (checkpoints w)
  /\ repo r.2 = repo_after_snapshot (trim args) h (repo w)
  /\ trace r.2
     = trace w ++ save_calls context (trim args) h conversation w.
Proof.
  intros (Htag & Hrepo & Hconfirm) Hchat Hlen Hsnap (Hentries & Hwrite & Hread).
  apply truthy_nonempty in Htag. apply Nat.leb_gt in Hlen.
  unfold snapshot_yields, repo_after_snapshot, save_calls, saved in *.
  unfold ledger_entries, ledger, context_history, context_authType in *.
  open_world w. subst.
  cbn [files status_isClean] in *.
  unfold saveCommand_action.
  cbv beta iota zeta delta [async bind when_ return_ pure negb].
  rewrite Htag. run_cbv.
  destruct (config context) as [cfg|]; [|discriminate].
  rewrite Hchat, Hlen.
  assert (Hgate :
    (if overwriteConfirmed context then false
     else match checkpoints0 !! trim args with Some _ => true | None => false end)
    = false).
  { destruct (overwriteConfirmed context); [reflexivity|].
    destruct Hconfirm as [?|Hnone]; [discriminate | rewrite Hnone; reflexivity]. }
  clear Hconfirm.
  destruct (overwriteConfirmed context);
    [| destruct (checkpoints0 !! trim args); [discriminate|] ].
  all: destruct status_isClean0 as [[|]|];
    [ | destruct Hsnap as [Hadd Hcommit] | contradiction ]; subst.
  all: run_cbv.
  all: destruct (files0 !! chatGitLogFile) as [[[l|]|]|] eqn:Hfile;
    try discriminate.
  all: try (destruct Hread as [Hread|Hread]; [discriminate|]).
  all: injection Hentries as <-; subst; run_cbv.
  all: rewrite ?Hfile; run_cbv; cbv beta iota delta [from_option id].
  all: unfold find_or_push; cbn [find_assign].
  all: try (destruct (find_assign (trim args) h l) as [[found|] l']; run_cbv).
  all: repeat split; try reflexivity; try apply lookup_insert_eq.
  all: repeat rewrite <- app_assoc; reflexivity.
Qed.

(** The other way round: [save] informs of a saved checkpoint only when
    the call has passed every check. *)
Lemma save_informs_when_passed (context : CommandContext) (args : string)
    (w : World) (answer : string) :
  (save context args w).1 = Resolved (message info answer) ->
  answer <> "No conversation found to save." ->
  exists conversation h chatGitLog,
    save_passes INITIAL_HISTORY_LENGTH context args w conversation h chatGitLog
    /\ (save context args w).1 = saved decodeTagName (trim args) h.
Proof.
  intros Hanswer Hnot. revert Hanswer.
  unfold save_passes, save_cleared, snapshot_yields, ledger_usable, saved.
  unfold ledger_entries, ledger, context_history.
  open_world w.
  unfold saveCommand_action. run_cbv.
  repeat (case_step; run_cbv).
  all: try discriminate.
  all: try (intros [= <-]; congruence).
  all: intros _.
  all: repeat match goal with
              | H : (_ <=? _)%nat = false |- _ => apply Nat.leb_gt in H
              end.
  all: eexists _, _, _.
  all: repeat match goal with |- _ /\ _ => split end.
  all: first [ reflexivity | discriminate | assumption
             | left; reflexivity | right; reflexivity | right; assumption
             | match goal with |- Ok ?u = Ok tt => destruct u; reflexivity end ].
Qed.

End Save.

(** ** The ledger under [save] *)

Lemma find_or_push_other (t h : string) (entry : LedgerEntry)
    (rest : list LedgerEntry) :
  tag entry <> t ->
  find_or_push t h (entry :: rest) = entry :: find_or_push t h rest.
Proof.
  intros Hne. apply String.eqb_neq in Hne.
  unfold find_or_push. cbn [find_assign]. rewrite Hne. cbn [negb].
  destruct (find_assign t h rest) as [[found|] rest']; reflexivity.
Qed.

Lemma find_or_push_same (t h : string) (entry : LedgerEntry)
    (rest : list LedgerEntry) :
  tag entry = t ->
  find_or_push t h (entry :: rest) = mkEntry h t :: rest.
Proof.
  intros <-. unfold find_or_push. cbn [find_assign].
  rewrite String.eqb_refl. reflexivity.
Qed.

Lemma existsb_tag_false (t : string) (chatGitLog : list LedgerEntry) :
  has_tag t chatGitLog = false <->
  ~ In t (map tag chatGitLog).
Proof.
  unfold has_tag.
  induction chatGitLog as [|entry rest IH]; simpl.
  - tauto.
  - rewrite orb_false_iff, IH, String.eqb_neq. tauto.
Qed.

Lemma update_absent (t h : string) (chatGitLog : list LedgerEntry) :
  ~ In t (map tag chatGitLog) ->
  rehash t h chatGitLog = chatGitLog.
Proof.
  unfold rehash.
  induction chatGitLog as [|entry rest IH]; simpl; intros Hnot; [reflexivity|].
  destruct (String.eqb_spec (tag entry) t) as [Heq|Hne]; [tauto|].
  rewrite IH by tauto. reflexivity.
Qed.

(** With at most one entry per tag, what the code does to the array is
    the upsert of the specification. *)
Lemma find_or_push_upsert (t h : string) (chatGitLog : list LedgerEntry) :
  List.NoDup (map tag chatGitLog) ->
  find_or_push t h chatGitLog = upsert_spec t h chatGitLog.
Proof.
  induction chatGitLog as [|entry rest IH]; intros Hnd.
  - reflexivity.
  - cbn [map] in Hnd. apply List.NoDup_cons_iff in Hnd as [Hfresh Hnd].
    unfold upsert_spec, has_tag, rehash. cbn [existsb map].
    destruct (String.eqb_spec (tag entry) t) as [Heq|Hne].
    + rewrite find_or_push_same by exact Heq. cbn [orb].
      fold (rehash t h rest).
      rewrite update_absent by (rewrite <- Heq; exact Hfresh).
      rewrite Heq. reflexivity.
    + rewrite find_or_push_other by exact Hne. cbn [orb].
      rewrite (IH Hnd). unfold upsert_spec, has_tag, rehash.
      destruct (existsb _ rest); reflexivity.
Qed.

Lemma upsert_tags_reused (t h : string) (chatGitLog : list LedgerEntry) :
  map tag (rehash t h chatGitLog) = map tag chatGitLog.
Proof.
  unfold rehash. rewrite map_map. apply map_ext. intros entry.
  destruct (String.eqb (tag entry) t); reflexivity.
Qed.

Lemma upsert_keeps_tags_apart (t h : string) (chatGitLog : list LedgerEntry) :
  List.NoDup (map tag chatGitLog) ->
  List.NoDup (map tag (upsert_spec t h chatGitLog)).
Proof.
  intros Hnd. unfold upsert_spec.
  destruct (has_tag t chatGitLog) eqn:Hex.
  - rewrite upsert_tags_reused. exact Hnd.
  - apply existsb_tag_false in Hex.
    rewrite map_app. cbn [map].
    apply List.NoDup_app.
    + exact Hnd.
    + repeat constructor. simpl. tauto.
    + intros x Hx [<-|[]]. exact (Hex Hx).
Qed.

Lemma upsert_has_entry (t h : string) (chatGitLog : list LedgerEntry) :
  In (mkEntry h t) (find_or_push t h chatGitLog).
Proof.
  induction chatGitLog as [|entry rest IH].
  - left. reflexivity.
  - destruct (String.eqb_spec (tag entry) t) as [Heq|Hne].
    + rewrite find_or_push_same by exact Heq. left. reflexivity.
    + rewrite find_or_push_other by exact Hne. right. exact IH.
Qed.

Lemma find_after_find_or_push (t h : string) (chatGitLog : list LedgerEntry) :
  List.find (fun entry => String.eqb (entry_tag entry) t)
            (find_or_push t h chatGitLog)
  = Some (mkEntry h t).
Proof.
  induction chatGitLog as [|entry rest IH].
  - cbn. unfold entry_tag. cbn [tag]. rewrite String.eqb_refl. reflexivity.
  - destruct (String.eqb_spec (tag entry) t) as [Heq|Hne].
    + rewrite find_or_push_same by exact Heq. cbn [List.find].
      unfold entry_tag. cbn [tag]. rewrite String.eqb_refl. reflexivity.
    + rewrite find_or_push_other by exact Hne. cbn [List.find].
      unfold entry_tag at 1. apply String.eqb_neq in Hne. rewrite Hne.
      exact IH.
Qed.

Lemma has_tag_after_save (t h : string) (chatGitLog : list LedgerEntry) :
  has_tag t (find_or_push t h chatGitLog) = true.
Proof.
  unfold has_tag. apply existsb_exists. exists (mkEntry h t).
  split; [apply upsert_has_entry | apply String.eqb_refl].
Qed.

Lemma ledger_entries_of_array (w : World) (chatGitLog : list LedgerEntry) :
  ledger w = Some (Stringified (JArray chatGitLog)) ->
  ledger_entries w = Some chatGitLog.
Proof. unfold ledger_entries. intros ->. reflexivity. Qed.

Section SaveTwice.

Variable INITIAL_HISTORY_LENGTH : nat.
Variable decodeTagName : string -> string.
Local Abbreviation save :=
  (saveCommand_action INITIAL_HISTORY_LENGTH decodeTagName).

(** C5.  On a ledger with at most one entry per tag, a save of the tag
    T that passes every check leaves at most one entry per tag: an
    entry for T gets the new commit hash where it stands and the
    length stays, otherwise one entry [{T, h}] is appended.  A second
    such save of T, on the ledger the first one left, sets the hash in
    place again, so both saves together add at most one entry. *)
Theorem save_keeps_one_entry_per_tag
    (context : CommandContext) (args : string) (w : World)
    (conversation : list Content) (h : string)
    (chatGitLog : list LedgerEntry)
    (context' : CommandContext) (args' : string) (w' : World)
    (conversation' : list Content) (h' : string)
    (chatGitLog1 : list LedgerEntry) :
  List.NoDup (map tag chatGitLog) ->
  save_passes INITIAL_HISTORY_LENGTH context args w conversation h chatGitLog ->
  trim args' = trim args ->
  ledger w' = ledger (save context args w).2 ->
  save_passes INITIAL_HISTORY_LENGTH context' args' w' conversation' h'
              chatGitLog1 ->
  let T := trim args in
  let r := save context args w in
  let r' := save context' args' w' in
  exists chatGitLog2,
    r.1 = saved decodeTagName T h
    /\ ledger_entries r.2 = Some chatGitLog1
    /\ List.NoDup (map tag chatGitLog1)
    /\ (if has_tag T chatGitLog
        then chatGitLog1 = rehash T h chatGitLog
             /\ length chatGitLog1 = length chatGitLog
        else chatGitLog1 = chatGitLog ++ [mkEntry h T])
    /\ r'.1 = saved decodeTagName T h'
    /\ ledger_entries r'.2 = Some chatGitLog2
    /\ List.NoDup (map tag chatGitLog2)
    /\ chatGitLog2 = rehash T h' chatGitLog1
    /\ length chatGitLog2 = length chatGitLog1
    /\ length chatGitLog2 <= S (length chatGitLog).
Proof.
  intros Hnd Hpass Htag Hledger Hpass' T r r'.
  destruct Hpass as (Hclr & Hchat & Hlen & Hsnap & Huse).
  destruct (save_succeeds INITIAL_HISTORY_LENGTH decodeTagName
              context args w conversation h chatGitLog
              Hclr Hchat Hlen Hsnap Huse)
    as (Hr & Hl & _).
  fold r in Hr, Hl. fold T in Hr, Hl.
  assert (H1 : chatGitLog1 = upsert_spec T h chatGitLog).
  { destruct Hpass' as (_ & _ & _ & _ & Hentries & _).
    unfold ledger_entries in Hentries. rewrite Hledger in Hentries.
    fold r in Hentries. rewrite Hl in Hentries.
    injection Hentries as <-. apply find_or_push_upsert, Hnd. }
  assert (Hnd1 : List.NoDup (map tag chatGitLog1)).
  { rewrite H1. apply upsert_keeps_tags_apart, Hnd. }
  destruct Hpass' as (Hclr' & Hchat' & Hlen' & Hsnap' & Huse').
  destruct (save_succeeds INITIAL_HISTORY_LENGTH decodeTagName
              context' args' w' conversation' h' chatGitLog1
              Hclr' Hchat' Hlen' Hsnap' Huse')
    as (Hr' & Hl' & _).
  fold r' in Hr', Hl'. rewrite Htag in Hr', Hl'. fold T in Hr', Hl'.
  rewrite (find_or_push_upsert T h' chatGitLog1 Hnd1) in Hl'.
  assert (Hhas : has_tag T chatGitLog1 = true).
  { rewrite H1, <- (find_or_push_upsert T h chatGitLog Hnd).
    apply has_tag_after_save. }
  assert (H2 : upsert_spec T h' chatGitLog1 = rehash T h' chatGitLog1).
  { unfold upsert_spec. rewrite Hhas. reflexivity. }
  rewrite H2 in Hl'.
  assert (Hlen1 : length chatGitLog1 <= S (length chatGitLog)).
  { rewrite H1. unfold upsert_spec.
    destruct (has_tag T chatGitLog).
    - unfold rehash. rewrite length_map. lia.
    - rewrite length_app. simpl. lia. }
  assert (Hlen2 : length (rehash T h' chatGitLog1) = length chatGitLog1).
  { unfold rehash. apply length_map. }
  exists (rehash T h' chatGitLog1).
  split; [exact Hr|].
  split.
  { apply ledger_entries_of_array. rewrite Hl.
    rewrite (find_or_push_upsert T h chatGitLog Hnd), H1. reflexivity. }
  split; [exact Hnd1|].
  split.
  { rewrite H1. unfold upsert_spec.
    destruct (has_tag T chatGitLog); [|reflexivity].
    split; [reflexivity | unfold rehash; apply length_map]. }
  split; [exact Hr'|].
  split; [apply ledger_entries_of_array, Hl'|].
  split.
  { rewrite <- H2. apply upsert_keeps_tags_apart, Hnd1. }
  split; [reflexivity|].
  split; [exact Hlen2 | lia].
Qed.

End SaveTwice.

(** Discharges the side conditions of an instance by evaluation. *)
Ltac by_evaluation :=
  vm_compute;
  repeat match goal with
         | |- _ /\ _ => split
         | |- _ <> _ => discriminate
         | |- _ -> False => discriminate
         | |- _ = _ => reflexivity
         | |- _ \/ _ => first [ left; reflexivity | right; reflexivity ]
         | |- (_ < _)%nat => lia
         | |- (_ <= _)%nat => lia
         | |- True => exact I
         end.

(** C5 at work: [my-tag] is in the ledger with an old commit; it is
    saved twice on a dirty tree, the second time with confirmation. *)
Lemma save_keeps_one_entry_per_tag_witness :
  let r := saveCommand_action 1 plain_tag (talking_context false short_talk)
                              "my-tag" reused_tag_world in
  let r' := saveCommand_action 1 plain_tag (talking_context true short_talk)
                               " my-tag " r.2 in
  exists chatGitLog2,
    r.1 = saved plain_tag "my-tag" "c3"
    /\ ledger_entries r.2 = Some [mkEntry "c3" "my-tag"]
    /\ List.NoDup (map tag [mkEntry "c3" "my-tag"])
    /\ ([mkEntry "c3" "my-tag"]
        = rehash "my-tag" "c3" [mkEntry "old-commit-hash" "my-tag"]
        /\ length [mkEntry "c3" "my-tag"]
           = length [mkEntry "old-commit-hash" "my-tag"])
    /\ r'.1 = saved plain_tag "my-tag" "c3"
    /\ ledger_entries r'.2 = Some chatGitLog2
    /\ List.NoDup (map tag chatGitLog2)
    /\ chatGitLog2 = rehash "my-tag" "c3" [mkEntry "c3" "my-tag"]
    /\ length chatGitLog2 = length [mkEntry "c3" "my-tag"]
    /\ length chatGitLog2 <= S (length [mkEntry "old-commit-hash" "my-tag"]).
Proof.
  intros r r'.
  apply (save_keeps_one_entry_per_tag 1 plain_tag
           (talking_context false short_talk) "my-tag" reused_tag_world
           short_talk "c3" [mkEntry "old-commit-hash" "my-tag"]
           (talking_context true short_talk) " my-tag " r.2
           short_talk "c3" [mkEntry "c3" "my-tag"]).
  - apply List.NoDup_cons; [simpl; tauto | apply List.NoDup_nil].
  - unfold save_passes, save_cleared, snapshot_yields, ledger_usable.
    by_evaluation.
  - reflexivity.
  - reflexivity.
  - unfold save_passes, save_cleared, snapshot_yields, ledger_usable.
    by_evaluation.
Defined.

Section Resume.

Variable INITIAL_HISTORY_LENGTH : nat.
Variable decodeTagName : string -> string.
Local Abbreviation resume :=
  (resumeCommand_action INITIAL_HISTORY_LENGTH decodeTagName).

(** A resume that passes every check: the commit of the ledger entry is
    checked out and the stored history is handed back, whole and in
    its display form. *)
Lemma resume_succeeds (context : CommandContext) (args : string) (w : World)
    (checkpoint : Checkpoint) (entry : LedgerEntry) :
  resume_cleared context (trim args) w checkpoint entry ->
  status_isClean (repo w) = Ok true ->
  checkout_out (repo w) = Ok tt ->
  let r := resume context args w in
  r.1 = Resolved
          (load_history
             (fold_left push_ui_item
                        (skipn INITIAL_HISTORY_LENGTH (history checkpoint)) [])
             (history checkpoint))
  /\ repo r.2 = checked_out (commitHash entry) (repo w)
  /\ files r.2 = files w
  /\ checkpoints r.2 = checkpoints w
  /\ trace r.2
     = trace w ++ [ EvLoggerInitialize; EvLoadCheckpoint (trim args);
                    EvReadFileSync chatGitLogFile; EvCheckIsRepo;
                    EvStatus ["--porcelain"];
                    EvCheckout (commitHash entry) ].
Proof.
  intros (Htag & Hcp & Hhist & Hread & (chatGitLog & Hl & Hfind) & Hauth & Hrepo)
         Hclean Hout.
  apply truthy_nonempty in Htag.
  unfold ledger, context_authType in *.
  open_world w. subst.
  unfold resumeCommand_action.
  cbv beta iota zeta delta [async bind when_ return_ pure negb].
  rewrite Htag. run_cbv. rewrite Hcp. cbv beta iota delta [from_option id].
  destruct checkpoint as [conversation saved_auth].
  cbn [history authType] in *.
  destruct conversation as [|turn conversation]; [congruence|].
  cbn [length Nat.eqb]. run_cbv. rewrite Hl. run_cbv.
  rewrite Hfind. run_cbv.
  rewrite Hauth. run_cbv.
  repeat split; try reflexivity.
  repeat rewrite <- app_assoc. reflexivity.
Qed.

(** With a dirty tree, whatever else holds, [resume] stops before the
    checkout. *)
Lemma resume_dirty_changes_nothing (context : CommandContext) (args : string)
    (w : World) :
  status_isClean (repo w) = Ok false ->
  let r := resume context args w in
  same_stores w r.2 /\ calls_between (fun e => negb (is_mutation e)) w r.2.
Proof.
  intros Hdirty. open_world w. subst.
  unfold resumeCommand_action. run_cbv.
  repeat (case_step; run_cbv).
  all: split; [repeat split; reflexivity | solve_calls].
Qed.

Lemma resume_dirty_refused (context : CommandContext) (args : string)
    (w : World) (checkpoint : Checkpoint) (entry : LedgerEntry) :
  status_isClean (repo w) = Ok false ->
  resume_cleared context (trim args) w checkpoint entry ->
  (resume context args w).1 = Resolved dirty_tree.
Proof.
  intros Hdirty
    (Htag & Hcp & Hhist & Hread & (chatGitLog & Hl & Hfind) & Hauth & Hrepo).
  apply truthy_nonempty in Htag.
  unfold ledger, context_authType in *.
  open_world w. subst.
  unfold resumeCommand_action.
  cbv beta iota zeta delta [async bind when_ return_ pure negb].
  rewrite Htag. run_cbv. rewrite Hcp. cbv beta iota delta [from_option id].
  destruct checkpoint as [conversation saved_auth].
  cbn [history authType] in *.
  destruct conversation as [|turn conversation]; [congruence|].
  cbn [length Nat.eqb]. run_cbv. rewrite Hl. run_cbv.
  rewrite Hfind. run_cbv.
  rewrite Hauth. run_cbv.
  reflexivity.
Qed.

(** C3, as amended.  With a dirty tree [resume] never checks anything
    out and changes none of the stores; its answer is the dirty-tree
    error once the checks that come first have passed: tag, checkpoint
    record, ledger entry, authentication type and repository. *)
Theorem resume_refuses_dirty_tree (context : CommandContext) (args : string)
    (w : World) :
  status_isClean (repo w) = Ok false ->
  let r := resume context args w in
  same_stores w r.2
  /\ calls_between (fun e => negb (is_mutation e)) w r.2
  /\ forall checkpoint entry,
       resume_cleared context (trim args) w checkpoint entry ->
       r.1 = Resolved dirty_tree.
Proof.
  intros Hdirty r.
  destruct (resume_dirty_changes_nothing context args w Hdirty) as [Hs Hc].
  split; [exact Hs|]. split; [exact Hc|].
  intros checkpoint entry Hclr.
  exact (resume_dirty_refused context args w checkpoint entry Hdirty Hclr).
Qed.

(** A record without history is no checkpoint: [resume] says so and
    touches nothing. *)
Lemma resume_empty_history (context : CommandContext) (args : string)
    (w : World) :
  trim args <> "" ->
  history (loaded w (trim args)) = [] ->
  let r := resume context args w in
  r.1 = Resolved
          (message info
             ("No saved checkpoint found with tag: "
              +:+ decodeTagName (trim args) +:+ "."))
  /\ same_stores w r.2
  /\ calls_between (fun e => negb (is_mutation e)) w r.2.
Proof.
  intros Htag Hempty. apply truthy_nonempty in Htag.
  unfold loaded in Hempty.
  open_world w.
  unfold resumeCommand_action.
  cbv beta iota zeta delta [async bind when_ return_ pure negb].
  rewrite Htag. run_cbv. rewrite Hempty. cbn [length Nat.eqb].
  split; [reflexivity|].
  split; [repeat split; reflexivity | solve_calls].
Qed.

Lemma display_of_short_history (conversation : list Content) :
  length conversation <= INITIAL_HISTORY_LENGTH ->
  fold_left push_ui_item (skipn INITIAL_HISTORY_LENGTH conversation) [] = [].
Proof.
  intros Hlen. rewrite skipn_all2 by exact Hlen. reflexivity.
Qed.

End Resume.

Section SaveGuards.

Variable INITIAL_HISTORY_LENGTH : nat.
Variable decodeTagName : string -> string.
Local Abbreviation save :=
  (saveCommand_action INITIAL_HISTORY_LENGTH decodeTagName).
Local Abbreviation resume :=
  (resumeCommand_action INITIAL_HISTORY_LENGTH decodeTagName).

Lemma save_short_history_changes_nothing (context : CommandContext)
    (args : string) (w : World) (conversation : list Content) :
  context_history context = Some conversation ->
  length conversation <= INITIAL_HISTORY_LENGTH ->
  let s := save context args w in
  same_stores w s.2 /\ calls_between (fun e => negb (is_mutation e)) w s.2.
Proof.
  intros Hchat Hlen. apply Nat.leb_le in Hlen.
  unfold context_history in Hchat.
  destruct (config context) as [cfg|] eqn:Hcfg; [|discriminate].
  open_world w.
  unfold saveCommand_action. run_cbv. rewrite Hcfg, Hchat, Hlen.
  repeat (case_step; run_cbv).
  all: split; [repeat split; reflexivity | solve_calls].
Qed.

Lemma save_short_history_answer (context : CommandContext)
    (args : string) (w : World) (conversation : list Content) :
  context_history context = Some conversation ->
  length conversation <= INITIAL_HISTORY_LENGTH ->
  save_cleared context (trim args) w ->
  (save context args w).1 = Resolved nothing_to_save.
Proof.
  intros Hchat Hlen (Htag & Hrepo & Hconfirm).
  apply Nat.leb_le in Hlen. apply truthy_nonempty in Htag.
  unfold context_history in Hchat.
  destruct (config context) as [cfg|] eqn:Hcfg; [|discriminate].
  open_world w. subst.
  unfold saveCommand_action.
  cbv beta iota zeta delta [async bind when_ return_ pure negb].
  rewrite Htag. run_cbv. rewrite Hcfg, Hchat, Hlen.
  destruct (overwriteConfirmed context); [reflexivity|].
  destruct Hconfirm as [?|Hnone]; [discriminate|].
  rewrite Hnone. reflexivity.
Qed.

(** C4, as amended.  A conversation no longer than the hidden initial
    context is not saved: [save] changes none of the stores and, once
    cleared, answers that there is nothing to save.  [resume] answers
    "not found", without a checkout, for a stored history that is empty;
    a stored history that is not empty is resumed even when it is no
    longer than the hidden initial context, with nothing to display. *)
Theorem short_history_save_and_resume
    (context : CommandContext) (args : string) (w : World)
    (conversation : list Content)
    (context' : CommandContext) (args' : string) (w' : World) :
  context_history context = Some conversation ->
  length conversation <= INITIAL_HISTORY_LENGTH ->
  trim args' <> "" ->
  length (history (loaded w' (trim args'))) <= INITIAL_HISTORY_LENGTH ->
  let s := save context args w in
  let r := resume context' args' w' in
  let stored := history (loaded w' (trim args')) in
  (same_stores w s.2
   /\ calls_between (fun e => negb (is_mutation e)) w s.2
   /\ (save_cleared context (trim args) w -> s.1 = Resolved nothing_to_save))
  /\ (stored = [] ->
      r.1 = Resolved
              (message info
                 ("No saved checkpoint found with tag: "
                  +:+ decodeTagName (trim args') +:+ "."))
      /\ same_stores w' r.2
      /\ calls_between (fun e => negb (is_mutation e)) w' r.2)
  /\ (forall checkpoint entry,
        resume_cleared context' (trim args') w' checkpoint entry ->
        status_isClean (repo w') = Ok true ->
        checkout_out (repo w') = Ok tt ->
        stored <> []
        /\ r.1 = Resolved (load_history [] stored)
        /\ In (EvCheckout (commitHash entry)) (trace r.2)).
Proof.
  intros Hchat Hlen Htag' Hstored s r stored.
  split; [|split].
  - destruct (save_short_history_changes_nothing context args w conversation
                Hchat Hlen) as [Hs Hc].
    split; [exact Hs|]. split; [exact Hc|].
    apply save_short_history_answer with (conversation := conversation);
      assumption.
  - intros Hempty.
    apply resume_empty_history; assumption.
  - intros checkpoint entry Hclr Hclean Hout.
    assert (Hload : stored = history checkpoint).
    { destruct Hclr as (_ & Hcp & _). unfold stored, loaded.
      rewrite Hcp. reflexivity. }
    destruct (resume_succeeds INITIAL_HISTORY_LENGTH decodeTagName
                context' args' w' checkpoint entry Hclr Hclean Hout)
      as (Hr & _ & _ & _ & Htrace).
    fold r in Hr, Htrace.
    split; [|split].
    + rewrite Hload. destruct Hclr as (_ & _ & Hne & _). exact Hne.
    + rewrite Hr, Hload.
      rewrite display_of_short_history
        by (rewrite <- Hload; exact Hstored).
      reflexivity.
    + rewrite Htrace. apply in_or_app. right. simpl. tauto.
Qed.



(** On a clean tree [save] stages and commits nothing, whatever else
    holds. *)
Lemma save_clean_tree_commits_nothing (context : CommandContext)
    (args : string) (w : World) :
  status_isClean (repo w) = Ok true ->
  let s := save context args w in
  repo s.2 = repo w
  /\ calls_between (fun e => negb (is_stage_or_commit e)) w s.2.
Proof.
  intros Hclean. open_world w. subst.
  unfold saveCommand_action. run_cbv.
  repeat (case_step; run_cbv).
  all: split; [reflexivity | solve_calls].
Qed.

End SaveGuards.

(** ** The display history *)

Lemma append_empty_r (s : string) : s +:+ "" = s.
Proof.
  induction s as [|c s IH]; [reflexivity|].
  change (String c (s +:+ "") = String c s). f_equal. exact IH.
Qed.

Lemma concat_empty_cons (x : string) (xs : list string) :
  String.concat "" (x :: xs) = x +:+ String.concat "" xs.
Proof.
  destruct xs as [|y ys]; simpl.
  - symmetry. apply append_empty_r.
  - reflexivity.
Qed.

Lemma joined_fragments (ps : list Part) :
  String.concat "" (map part_text (List.filter part_has_text ps))
  = String.concat "" (omap text ps).
Proof.
  induction ps as [|[[fragment|]] ps IH].
  - reflexivity.
  - cbn [List.filter omap list_omap part_has_text text].
    destruct fragment as [|c fragment]; cbn [truthy].
    + rewrite concat_empty_cons. exact IH.
    + cbn [map part_text text]. rewrite !concat_empty_cons, IH. reflexivity.
  - cbn [List.filter omap list_omap part_has_text text]. exact IH.
Qed.

Lemma or_else_empty (s : string) : or_else s "" = s.
Proof. destruct s; reflexivity. Qed.

Lemma rolemap_shown (r : string) :
  (if truthy r then default GEMINI (rolemap_get r) else GEMINI)
  = shown_role (Some r).
Proof.
  unfold shown_role, rolemap_get, rolemap.
  destruct (String.eqb_spec r "user") as [->|Huser]; [reflexivity|].
  rewrite lookup_insert_ne by congruence.
  destruct (String.eqb_spec r "model") as [->|Hmodel]; [reflexivity|].
  rewrite lookup_singleton_ne by congruence.
  destruct (inherits r) eqn:Hinherits.
  - destruct r; [discriminate | reflexivity].
  - destruct (truthy r); reflexivity.
Qed.

Lemma push_ui_item_spec (uiHistory : list HistoryItemWithoutId) (item : Content) :
  push_ui_item uiHistory item
  = uiHistory
    ++ List.filter (fun i => truthy (item_text i))
         [mkHistoryItem (shown_role (role item)) (turn_text item)].
Proof.
  unfold push_ui_item, turn_text. rewrite or_else_empty.
  assert (Htext :
    match parts item with
    | Some ps => String.concat "" (map part_text (List.filter part_has_text ps))
    | None => ""
    end = String.concat "" (omap text (default [] (parts item)))).
  { destruct (parts item) as [ps|]; [apply joined_fragments | reflexivity]. }
  rewrite Htext. cbn [List.filter item_text].
  destruct (truthy (String.concat "" (omap text (default [] (parts item)))));
    cbn [negb].
  - destruct (role item) as [r|]; [rewrite rolemap_shown|]; reflexivity.
  - symmetry. apply app_nil_r.
Qed.

Lemma ui_history_spec (conversation : list Content)
    (uiHistory : list HistoryItemWithoutId) :
  fold_left push_ui_item conversation uiHistory
  = uiHistory
    ++ List.filter (fun i => truthy (item_text i))
         (map (fun turn =>
                 mkHistoryItem (shown_role (role turn)) (turn_text turn))
              conversation).
Proof.
  revert uiHistory.
  induction conversation as [|turn conversation IH]; intros uiHistory.
  - symmetry. apply app_nil_r.
  - cbn [fold_left map]. rewrite IH, push_ui_item_spec, <- app_assoc.
    f_equal. cbn [List.filter item_text].
    destruct (truthy (turn_text turn)); reflexivity.
Qed.

(** On a plain role the loop does what the specification says. *)
Lemma shown_role_plain (r : option string) :
  match r with
  | Some s => inherits s = false
  | None => True
  end ->
  shown_role r = display_role r.
Proof.
  destruct r as [s|]; [|reflexivity].
  intros Hplain. unfold shown_role, display_role. rewrite Hplain.
  reflexivity.
Qed.

Lemma display_history_plain (INITIAL_HISTORY_LENGTH : nat)
    (conversation : list Content) :
  plain_roles (skipn INITIAL_HISTORY_LENGTH conversation) ->
  display_history INITIAL_HISTORY_LENGTH conversation
  = display_history_spec INITIAL_HISTORY_LENGTH conversation.
Proof.
  unfold display_history, display_history_spec, plain_roles.
  induction 1 as [|turn rest Hturn _ IH]; [reflexivity|].
  cbn [map List.filter item_text].
  rewrite (shown_role_plain _ Hturn), IH. reflexivity.
Qed.

Section SaveThenResume.

Variable INITIAL_HISTORY_LENGTH : nat.
Variable decodeTagName : string -> string.
Local Abbreviation save :=
  (saveCommand_action INITIAL_HISTORY_LENGTH decodeTagName).
Local Abbreviation resume :=
  (resumeCommand_action INITIAL_HISTORY_LENGTH decodeTagName).

(** C7.  On a clean tree [save] stages and commits nothing and leaves
    the repository as it was; when it passes every check, HEAD is read
    all the same, and its hash is the one in the answer and in the
    ledger entry of the tag, the entry a lookup of the tag finds. *)
Theorem save_on_clean_tree (context : CommandContext) (args : string)
    (w : World) :
  status_isClean (repo w) = Ok true ->
  let s := save context args w in
  repo s.2 = repo w
  /\ commits (repo s.2) = commits (repo w)
  /\ calls_between (fun e => negb (is_stage_or_commit e)) w s.2
  /\ forall conversation h chatGitLog,
       save_passes INITIAL_HISTORY_LENGTH context args w conversation h
                   chatGitLog ->
       HEAD (repo w) = Ok h
       /\ s.1 = saved decodeTagName (trim args) h
       /\ (exists calls,
              trace s.2 = trace w ++ calls /\ In (EvRevparse ["HEAD"]) calls)
       /\ (exists chatGitLog',
              ledger s.2 = Some (Stringified (JArray chatGitLog'))
              /\ List.find (fun e => String.eqb (entry_tag e) (trim args))
                           chatGitLog'
                 = Some (mkEntry h (trim args))).
Proof.
  intros Hclean s.
  destruct (save_clean_tree_commits_nothing INITIAL_HISTORY_LENGTH
              decodeTagName context args w Hclean) as [Hrepo Hcalls].
  fold s in Hrepo, Hcalls.
  split; [exact Hrepo|]. split; [rewrite Hrepo; reflexivity|].
  split; [exact Hcalls|].
  intros conversation h chatGitLog (Hclr & Hchat & Hlen & Hsnap & Huse).
  destruct (save_succeeds INITIAL_HISTORY_LENGTH decodeTagName
              context args w conversation h chatGitLog
              Hclr Hchat Hlen Hsnap Huse)
    as (Hr & Hl & _ & _ & Htrace).
  fold s in Hr, Hl, Htrace.
  unfold snapshot_yields in Hsnap. rewrite Hclean in Hsnap.
  split; [exact Hsnap|]. split; [exact Hr|]. split.
  - eexists. split; [exact Htrace|].
    unfold save_calls. rewrite Hclean.
    apply in_or_app. right. apply in_or_app. right.
    apply in_or_app. right. apply in_or_app. right.
    left. reflexivity.
  - eexists. split; [exact Hl | apply find_after_find_or_push].
Qed.

(** The round trip on plain roles.  Saving the tag T with a
    conversation longer than the hidden initial context and resuming T
    afterwards, on the checkpoint store and the ledger the save left,
    hands back the conversation itself as the raw history; as display
    history it hands back what the specification describes when no
    turn behind the hidden context has a role that names a property
    every object inherits. *)
Theorem save_then_resume_round_trip
    (context : CommandContext) (args : string) (w : World)
    (conversation : list Content) (h : string)
    (chatGitLog : list LedgerEntry)
    (context' : CommandContext) (args' : string) (w' : World) :
  save_passes INITIAL_HISTORY_LENGTH context args w conversation h chatGitLog ->
  trim args' = trim args ->
  checkpoints w' = checkpoints (save context args w).2 ->
  ledger w' = ledger (save context args w).2 ->
  read_fails w' = None ->
  auth_differs (context_authType context) (context_authType context') = false ->
  checkIsRepo_out (repo w') = Ok true ->
  status_isClean (repo w') = Ok true ->
  checkout_out (repo w') = Ok tt ->
  plain_roles (skipn INITIAL_HISTORY_LENGTH conversation) ->
  let s := save context args w in
  let r := resume context' args' w' in
  s.1 = saved decodeTagName (trim args) h
  /\ r.1 = Resolved
            (load_history
               (display_history_spec INITIAL_HISTORY_LENGTH conversation)
               conversation)
  /\ HEAD (repo r.2) = Ok h.
Proof.
  intros (Hclr & Hchat & Hlen & Hsnap & Huse) Htag Hcps Hledger Hread Hauth
         Hrepo Hclean Hout Hplain s r.
  destruct (save_succeeds INITIAL_HISTORY_LENGTH decodeTagName
              context args w conversation h chatGitLog
              Hclr Hchat Hlen Hsnap Huse)
    as (Hs & Hl & Hc & _).
  fold s in Hs, Hl, Hc, Hcps, Hledger.
  split; [exact Hs|].
  assert (Hclr' :
    resume_cleared context' (trim args') w'
      (mkCheckpoint conversation (context_authType context))
      (mkEntry h (trim args))).
  { rewrite Htag. destruct Hclr as (Hne & _).
    split; [exact Hne|].
    split; [rewrite Hcps, Hc; apply lookup_insert_eq|].
    split; [cbn [history]; destruct conversation; [simpl in Hlen; lia | discriminate]|].
    split; [exact Hread|].
    split.
    { eexists. split; [rewrite Hledger; exact Hl|].
      apply find_after_find_or_push. }
    split; [exact Hauth | exact Hrepo]. }
  destruct (resume_succeeds INITIAL_HISTORY_LENGTH decodeTagName
              context' args' w' _ _ Hclr' Hclean Hout)
    as (Hr & Hrepo' & _).
  fold r in Hr, Hrepo'. cbn [history commitHash] in Hr, Hrepo'.
  split.
  - rewrite Hr, ui_history_spec. cbn [app].
    fold (display_history INITIAL_HISTORY_LENGTH conversation).
    rewrite (display_history_plain _ _ Hplain). reflexivity.
  - rewrite Hrepo'. reflexivity.
Qed.

End SaveThenResume.

Section Listing.

Variable decodeTagName : string -> string.
Local Abbreviation tags := (getSavedChatGitTags decodeTagName).

(** The enumeration rejects in one case only: the ledger file is there,
    can be read, and is not JSON.  [JSON.parse] stands outside both
    [try] blocks. *)
Lemma listing_rejects_iff (context : CommandContext) (mtSortDesc : bool)
    (w : World) :
  (exists e, (tags context mtSortDesc w).1 = Rejected e)
  <-> ledger w = Some NotJson /\ read_fails w = None.
Proof.
  unfold ledger. open_world w.
  unfold getSavedChatGitTags. run_cbv.
  split.
  - intros [e He]. revert He.
    repeat (case_step; run_cbv).
    all: try discriminate.
    all: intros _; split; congruence.
  - intros [Hfile ->]. repeat (rewrite Hfile; run_cbv).
    eexists. reflexivity.
Qed.

(** A ledger file that cannot be read gives the empty list. *)
Lemma listing_unreadable_ledger (context : CommandContext) (mtSortDesc : bool)
    (w : World) (e : string) :
  read_fails w = Some e ->
  (tags context mtSortDesc w).1 = Resolved [].
Proof.
  intros Hread. open_world w. subst.
  unfold getSavedChatGitTags. run_cbv.
  destruct (files0 !! chatGitLogFile); reflexivity.
Qed.

(** So does a ledger that is JSON but no array. *)
Lemma listing_ledger_not_an_array (context : CommandContext)
    (mtSortDesc : bool) (w : World) :
  ledger w = Some (Stringified JOther) ->
  (tags context mtSortDesc w).1 = Resolved [].
Proof.
  unfold ledger. intros Hfile. open_world w.
  unfold getSavedChatGitTags. run_cbv.
  repeat (first [rewrite Hfile | case_step]; run_cbv); reflexivity.
Qed.

(** One round of the loop, for the lemmas on it. *)
Local Abbreviation round geminiDir :=
  (fun (loop : M (list ChatDetail) (list ChatDetail)) (entry : LedgerEntry) =>
     bind loop (fun chatDetails =>
       bind (stat_mtime (path_join geminiDir
                           ("checkpoint-" +:+ tag entry +:+ ".json")))
            (fun stats_mtime =>
               pure (chatDetails
                       ++ [ mkChatDetail (decodeTagName (tag entry))
                                         stats_mtime ])))).

Lemma loop_throw_goes_on (geminiDir : string) (chatGitLog : list LedgerEntry)
    (loop : M (list ChatDetail) (list ChatDetail)) (w w1 : World) (e : string) :
  loop w = (Throw e, w1) ->
  fold_left (round geminiDir) chatGitLog loop w = (Throw e, w1).
Proof.
  revert loop.
  induction chatGitLog as [|entry rest IH]; intros loop Hloop.
  - exact Hloop.
  - cbn [fold_left]. apply IH. unfold bind at 1. rewrite Hloop. reflexivity.
Qed.

Lemma loop_stops_at_missing_file (geminiDir : string)
    (chatGitLog : list LedgerEntry) (entry : LedgerEntry)
    (loop : M (list ChatDetail) (list ChatDetail)) (w : World) :
  In entry chatGitLog ->
  mtimes w !! checkpoint_path geminiDir entry = None ->
  (exists c w1, loop w = (c, w1) /\ mtimes w1 = mtimes w
                /\ forall r, c <> Return r) ->
  exists e w', fold_left (round geminiDir) chatGitLog loop w = (Throw e, w').
Proof.
  intros Hin Hmissing. revert loop.
  induction chatGitLog as [|x rest IH]; intros loop (c & w1 & Hloop & Hm & Hc).
  - destruct Hin.
  - cbn [fold_left].
    destruct c as [chatDetails|r|e].
    + destruct Hin as [->|Hin].
      * eexists. eexists. apply loop_throw_goes_on.
        unfold bind at 1. rewrite Hloop.
        unfold checkpoint_path in Hmissing. run_cbv.
        fold (mtimes w1). rewrite Hm, Hmissing. reflexivity.
      * apply IH; [exact Hin|].
        unfold bind at 1. rewrite Hloop. run_cbv. fold (mtimes w1).
        destruct (mtimes w1 !! _).
        -- eexists. eexists. split; [reflexivity|].
           split; [exact Hm | discriminate].
        -- eexists. eexists. split; [reflexivity|].
           split; [exact Hm | discriminate].
    + exfalso. exact (Hc r eq_refl).
    + eexists. eexists. apply loop_throw_goes_on.
      unfold bind at 1. rewrite Hloop. reflexivity.
Qed.

Lemma collect_stops_at_missing_file (geminiDir : string)
    (chatGitLog : list LedgerEntry) (entry : LedgerEntry) (w : World) :
  In entry chatGitLog ->
  mtimes w !! checkpoint_path geminiDir entry = None ->
  exists e w',
    collect_chatDetails (R := list ChatDetail) decodeTagName geminiDir
                        chatGitLog w
    = (Throw e, w').
Proof.
  intros Hin Hmissing.
  apply (loop_stops_at_missing_file geminiDir chatGitLog entry (pure []) w Hin
           Hmissing).
  eexists. eexists. split; [reflexivity|].
  split; [reflexivity | discriminate].
Qed.

(** A ledger entry whose checkpoint file is not there gives the empty
    list as well. *)
Lemma listing_missing_checkpoint_file (context : CommandContext)
    (mtSortDesc : bool) (w : World) (cfg : Config) (geminiDir : string)
    (chatGitLog : list LedgerEntry) (entry : LedgerEntry) :
  read_fails w = None ->
  ledger w = Some (Stringified (JArray chatGitLog)) ->
  config context = Some cfg ->
  projectTempDir cfg = Some geminiDir ->
  In entry chatGitLog ->
  mtimes w !! checkpoint_path geminiDir entry = None ->
  (tags context mtSortDesc w).1 = Resolved [].
Proof.
  unfold ledger. intros Hread Hfile Hcfg Hdir Hin Hmissing.
  open_world w. subst.
  unfold getSavedChatGitTags. run_cbv. rewrite Hcfg, Hdir.
  repeat (rewrite Hfile; run_cbv).
  destruct geminiDir as [|c geminiDir]; [reflexivity|].
  match goal with
  | |- context [collect_chatDetails _ ?dir _ ?w0] =>
      destruct (collect_stops_at_missing_file dir chatGitLog entry w0 Hin
                  Hmissing) as (e & w' & Hloop)
  end.
  rewrite Hloop. reflexivity.
Qed.

End Listing.

(** C9.  The ledger file is there and holds no JSON: the promise of
    [getSavedChatGitTags] rejects with the error of [JSON.parse], and
    with it those of [list], which adds no item, and of both
    completions. *)
Theorem listing_unparsable_ledger_rejects :
  let w := garbled_ledger_world in
  let context := talking_context false short_talk in
  (getSavedChatGitTags plain_tag context false w).1
    = Rejected "SyntaxError: Unexpected token in JSON"
  /\ (listCommand_action plain_tag context "" w).1
     = Rejected "SyntaxError: Unexpected token in JSON"
  /\ trace (listCommand_action plain_tag context "" w).2
     = [ EvExistsSync chatGitLogFile; EvReadFileSync chatGitLogFile ]
  /\ (resumeCommand_completion plain_tag context "" w).1
     = Rejected "SyntaxError: Unexpected token in JSON"
  /\ (deleteCommand_completion plain_tag context "" w).1
     = Rejected "SyntaxError: Unexpected token in JSON".
Proof. vm_compute. repeat split; reflexivity. Qed.

(** ** The properties at concrete worlds *)

(** C3, the claim as written fails.  The tree is dirty in all three
    worlds.  Without a checkpoint for the tag the answer is "not found";
    with a checkpoint but no ledger entry it is the ledger error; with
    both, saved under another authentication type, it is the mismatch
    error.  None of them is the dirty-tree error. *)
Lemma resume_dirty_tree_reports_earlier_check :
  let context := talking_context false short_talk in
  let resume := resumeCommand_action 1 plain_tag context "good-tag" in
  status_isClean dirty_repo = Ok false
  /\ (resume (world_of [] ∅ dirty_repo)).1
     = Resolved (message info "No saved checkpoint found with tag: good-tag.")
  /\ (resume (world_of [mkEntry "another-hash" "other-tag"]
                       {[ "good-tag" := mkCheckpoint short_talk None ]}
                       dirty_repo)).1
     = Resolved (message error "No git commit associated with tag: good-tag.")
  /\ (resume (good_tag_world short_talk (Some "gemini-api-key") dirty_repo)).1
     = Resolved
         (message error
            "Cannot resume chat. It was saved with a different authentication method (gemini-api-key) than the current one (oauth-personal).")
  /\ (resume (world_of [] ∅ dirty_repo)).1 <> Resolved dirty_tree.
Proof. vm_compute. repeat split; try reflexivity. discriminate. Qed.

(** C3 at work: checkpoint and ledger entry are there, the
    authentication type is the saved one, the tree is dirty. *)
Lemma resume_refuses_dirty_tree_witness :
  let context := talking_context false short_talk in
  let w := good_tag_world short_talk (Some "oauth-personal") dirty_repo in
  let r := resumeCommand_action 1 plain_tag context " good-tag" w in
  same_stores w r.2
  /\ calls_between (fun e => negb (is_mutation e)) w r.2
  /\ r.1 = Resolved dirty_tree.
Proof.
  intros context w r.
  destruct (resume_refuses_dirty_tree 1 plain_tag context " good-tag" w
              eq_refl) as (Hstores & Hcalls & Hanswer).
  split; [exact Hstores|]. split; [exact Hcalls|].
  apply (Hanswer (mkCheckpoint short_talk (Some "oauth-personal"))
                 (mkEntry "1234567890abcdef" "good-tag")).
  unfold resume_cleared.
  split; [vm_compute; discriminate|].
  split; [reflexivity|].
  split; [discriminate|].
  split; [reflexivity|].
  split; [eexists; split; reflexivity|].
  split; reflexivity.
Defined.

(** C4, the claim as written fails.  The hidden initial context is one
    turn long, as the tests of [save] have it, and the stored history is
    one turn long.  [resume] does not answer "not found": it checks the
    commit of the ledger entry out and loads the history, with nothing
    to display. *)
Lemma resume_loads_history_of_one_turn :
  let context := talking_context false short_talk in
  let w := good_tag_world one_turn (Some "oauth-personal") quiet_repo in
  let r := resumeCommand_action 1 plain_tag context "good-tag" w in
  length (history (loaded w "good-tag")) <= 1
  /\ r.1 = Resolved (load_history [] one_turn)
  /\ r.1 <> Resolved
              (message info "No saved checkpoint found with tag: good-tag.")
  /\ trace r.2
     = [ EvLoggerInitialize; EvLoadCheckpoint "good-tag";
         EvReadFileSync chatGitLogFile; EvCheckIsRepo;
         EvStatus ["--porcelain"]; EvCheckout "1234567890abcdef" ]
  /\ HEAD (repo r.2) = Ok "1234567890abcdef".
Proof.
  vm_compute. repeat split; try reflexivity; try discriminate.
Qed.

(** C4 at work: a save of a single turn, a resume of an empty stored
    history, and a resume of a stored history of a single turn. *)
Lemma short_history_save_and_resume_witness :
  let context := talking_context false one_turn in
  let s := saveCommand_action 1 plain_tag context "my-tag" fresh_world in
  let empty := good_tag_world [] None quiet_repo in
  let short := good_tag_world one_turn None quiet_repo in
  let r := resumeCommand_action 1 plain_tag context "good-tag" empty in
  let r' := resumeCommand_action 1 plain_tag context "good-tag" short in
  (same_stores fresh_world s.2 /\ s.1 = Resolved nothing_to_save)
  /\ (r.1 = Resolved
              (message info "No saved checkpoint found with tag: good-tag.")
      /\ same_stores empty r.2)
  /\ (r'.1 = Resolved (load_history [] one_turn)
      /\ In (EvCheckout "1234567890abcdef") (trace r'.2)).
Proof.
  intros context s empty short r r'.
  assert (Hshort : length one_turn <= 1) by (simpl; lia).
  assert (Htag : trim "good-tag" <> "") by (vm_compute; discriminate).
  destruct (short_history_save_and_resume 1 plain_tag
              context "my-tag" fresh_world one_turn
              context "good-tag" empty eq_refl Hshort Htag)
    as ((Hstores & _ & Hanswer) & Hempty & _).
  { vm_compute. lia. }
  destruct (short_history_save_and_resume 1 plain_tag
              context "my-tag" fresh_world one_turn
              context "good-tag" short eq_refl Hshort Htag)
    as (_ & _ & Hresumed).
  { vm_compute. lia. }
  split; [|split].
  - split; [exact Hstores|]. apply Hanswer.
    unfold save_cleared. by_evaluation.
  - destruct (Hempty eq_refl) as (Hr & Hs & _). split; [exact Hr | exact Hs].
  - destruct (Hresumed (mkCheckpoint one_turn None)
                       (mkEntry "1234567890abcdef" "good-tag"))
      as (_ & Hr & Hcheckout).
    + unfold resume_cleared.
      split; [exact Htag|].
      split; [reflexivity|].
      split; [discriminate|].
      split; [reflexivity|].
      split; [eexists; split; reflexivity|].
      split; reflexivity.
    + reflexivity.
    + reflexivity.
    + split; [exact Hr | exact Hcheckout].
Defined.

(** The round trip at work: a conversation with fragments, an unknown
    role and a turn without parts is saved on a clean tree and
    resumed. *)
Lemma save_then_resume_round_trip_witness :
  let context := talking_context false mixed_talk in
  let s := saveCommand_action 1 plain_tag context " my-tag " fresh_world in
  let r := resumeCommand_action 1 plain_tag context "my-tag" s.2 in
  display_history_spec 1 mixed_talk
    = [ mkHistoryItem USER "hello gemini";
        mkHistoryItem GEMINI "hello world";
        mkHistoryItem GEMINI "42" ]
  /\ s.1 = saved plain_tag "my-tag" "c2"
  /\ r.1 = Resolved (load_history (display_history_spec 1 mixed_talk) mixed_talk)
  /\ HEAD (repo r.2) = Ok "c2".
Proof.
  intros context s r.
  split; [reflexivity|].
  apply (save_then_resume_round_trip 1 plain_tag
           context " my-tag " fresh_world mixed_talk "c2" []
           context "my-tag" s.2).
  - unfold save_passes, save_cleared, snapshot_yields, ledger_usable.
    by_evaluation.
  - reflexivity.
  - reflexivity.
  - reflexivity.
  - reflexivity.
  - reflexivity.
  - reflexivity.
  - reflexivity.
  - reflexivity.
  - unfold plain_roles. cbn [skipn mixed_talk].
    repeat (constructor; [first [reflexivity | exact I]|]). constructor.
Defined.

(** C6.  A turn whose role names a property every object inherits,
    here [constructor], is saved and resumed.  The specification maps
    an unknown role to [model], and the loop of [resume] falls back on
    [MessageType.GEMINI] for what [rolemap] does not have; but
    [rolemap] is a plain object, the lookup finds the inherited value,
    and the turn is displayed under that value, which is no display
    role at all. *)
Theorem round_trip_shows_inherited_role :
  let context := talking_context false odd_role_talk in
  let s := saveCommand_action 1 plain_tag context "my-tag" fresh_world in
  let r := resumeCommand_action 1 plain_tag context "my-tag" s.2 in
  s.1 = saved plain_tag "my-tag" "c2"
  /\ r.1 = Resolved
            (load_history [mkHistoryItem (INHERITED "constructor") "hello"]
                          odd_role_talk)
  /\ display_history_spec 1 odd_role_talk = [mkHistoryItem GEMINI "hello"].
Proof. vm_compute. repeat split; reflexivity. Qed.

(** C7 at work: a first save, on a clean tree whose HEAD is [c2]. *)
Lemma save_on_clean_tree_witness :
  let context := talking_context false short_talk in
  let s := saveCommand_action 1 plain_tag context "my-tag" fresh_world in
  status_isClean (repo fresh_world) = Ok true
  /\ repo s.2 = repo fresh_world
  /\ calls_between (fun e => negb (is_stage_or_commit e)) fresh_world s.2
  /\ HEAD (repo fresh_world) = Ok "c2"
  /\ s.1 = saved plain_tag "my-tag" "c2"
  /\ (exists chatGitLog',
         ledger s.2 = Some (Stringified (JArray chatGitLog'))
         /\ List.find (fun e => String.eqb (entry_tag e) (trim "my-tag"))
                      chatGitLog'
            = Some (mkEntry "c2" (trim "my-tag"))).
Proof.
  intros context s.
  destruct (save_on_clean_tree 1 plain_tag context "my-tag" fresh_world
              eq_refl) as (Hrepo & _ & Hcalls & Hsaved).
  destruct (Hsaved short_talk "c2" []) as (Hhead & Hanswer & _ & Hledger).
  { unfold save_passes, save_cleared, snapshot_yields, ledger_usable.
    by_evaluation. }
  split; [reflexivity|].
  split; [exact Hrepo|]. split; [exact Hcalls|].
  split; [exact Hhead|]. split; [exact Hanswer | exact Hledger].
Defined.


(** ** Cases of chatGitCommand.test.ts *)

(** [list] shows the tags oldest first. *)
Example list_sorts_by_mtime_ascending :
  trace (listCommand_action plain_tag (test_context false []) ""
           (two_checkpoints "test1" "test2")).2
  = [ EvExistsSync chatGitLogFile; EvReadFileSync chatGitLogFile;
      EvStat "/project/root/.gemini/tmp/mockhash/checkpoint-test1.json";
      EvStat "/project/root/.gemini/tmp/mockhash/checkpoint-test2.json";
      EvAddItem [ mkChatDetail "test1" "2026-01-01T10:00:00.000Z";
                  mkChatDetail "test2" "2026-01-01T11:00:00.000Z" ] ].
Proof. vm_compute. reflexivity. Qed.

(** The completion of [resume] suggests the newest tag first, and only
    the tags that start with what has been typed. *)
Example completion_newest_first :
  (resumeCommand_completion plain_tag (test_context false []) ""
     (two_checkpoints "test1" "test2")).1
  = Resolved ["test2"; "test1"]
  /\ (resumeCommand_completion plain_tag (test_context false []) "b"
        (two_checkpoints "alpha" "beta")).1
     = Resolved ["beta"]
  /\ (deleteCommand_completion plain_tag (test_context false []) "a"
        (two_checkpoints "alpha" "beta")).1
     = Resolved ["alpha"].
Proof. vm_compute. repeat split; reflexivity. Qed.

(** A blank tag is refused before anything else is looked at. *)
Example blank_tag_refused :
  saveCommand_action 1 plain_tag (test_context false short_talk) "  " fresh_world
  = (Resolved (message error "Missing tag. Usage: /chat save <tag>"), fresh_world)
  /\ resumeCommand_action 1 plain_tag (test_context false []) "" fresh_world
     = (Resolved (message error "Missing tag. Usage: /chat-git resume <tag>"),
        fresh_world)
  /\ deleteCommand_action plain_tag (test_context false []) " " fresh_world
     = (Resolved (message error "Missing tag. Usage: /chat-git delete <tag>"),
        fresh_world).
Proof. vm_compute. repeat split; reflexivity. Qed.

(** A commit that fails ends [save] before the checkpoint is written. *)
Example save_reports_failed_commit :
  let s := saveCommand_action 1 plain_tag (test_context false short_talk)
             "my-tag" (world_of [] ∅ failing_commit_repo) in
  s.1 = Resolved
          (message error "Failed git add or commit, Error: Commit failed")
  /\ checkpoints s.2 = ∅
  /\ ledger s.2 = Some (Stringified (JArray [])).
Proof. vm_compute. repeat split; reflexivity. Qed.

(** A checkout that fails is reported with the commit hash. *)
Example resume_reports_failed_checkout :
  (resumeCommand_action 1 plain_tag (test_context false [])
     "good-tag"
     (good_tag_world one_turn (Some "oauth-personal") failing_checkout_repo)).1
  = Resolved
      (message error
         "Failed git checkout 1234567890abcdef, Error: Checkout failed").
Proof. vm_compute. reflexivity. Qed.

(** ** White space *)

Lemma append_cons (a : ascii) (s t : string) :
  String a s +:+ t = String a (s +:+ t).
Proof. reflexivity. Qed.

Lemma append_empty_l (s : string) : "" +:+ s = s.
Proof. reflexivity. Qed.

Lemma string_app_assoc (s1 s2 s3 : string) :
  (s1 +:+ s2) +:+ s3 = s1 +:+ (s2 +:+ s3).
Proof.
  induction s1 as [|a s1 IH]; [reflexivity|].
  rewrite !append_cons, IH. reflexivity.
Qed.

Lemma string_length_app (s1 s2 : string) :
  String.length (s1 +:+ s2) = String.length s1 + String.length s2.
Proof.
  induction s1 as [|a s1 IH]; [reflexivity|].
  rewrite append_cons. cbn [String.length]. rewrite IH. reflexivity.
Qed.

Lemma rev_app_append (s1 s2 : string) :
  String.rev_app s1 s2 = String.rev s1 +:+ s2.
Proof.
  unfold String.rev. revert s2.
  induction s1 as [|a s1 IH]; intros s2; [reflexivity|].
  cbn [String.rev_app].
  rewrite (IH (String a s2)), (IH (String a "")), string_app_assoc.
  reflexivity.
Qed.

Lemma rev_cons (a : ascii) (s : string) :
  String.rev (String a s) = String.rev s +:+ String a "".
Proof. unfold String.rev at 1. cbn [String.rev_app]. apply rev_app_append. Qed.

Lemma rev_append (s1 s2 : string) :
  String.rev (s1 +:+ s2) = String.rev s2 +:+ String.rev s1.
Proof.
  induction s1 as [|a s1 IH].
  - rewrite append_empty_l. symmetry. apply append_empty_r.
  - rewrite append_cons, !rev_cons, IH, string_app_assoc. reflexivity.
Qed.

Lemma rev_involutive (s : string) : String.rev (String.rev s) = s.
Proof.
  induction s as [|a s IH]; [reflexivity|].
  rewrite rev_cons, rev_append, IH. reflexivity.
Qed.

Lemma string_length_ind (P : string -> Prop) :
  (forall s, (forall t, String.length t < String.length s -> P t) -> P s) ->
  forall s, P s.
Proof.
  intros Hstep s.
  assert (H : forall n t, String.length t < n -> P t).
  { induction n as [|n IH]; intros t Ht; [lia|].
    apply Hstep. intros u Hu. apply IH. lia. }
  apply (H (S (String.length s))). lia.
Qed.

(** The string taken apart as far as [stripWs] looks at it. *)
Ltac strip_cases backwards s :=
  let a := fresh "a" in
  let b := fresh "b" in
  let c := fresh "c" in
  let s1 := fresh "s1" in
  let s2 := fresh "s2" in
  let s3 := fresh "s3" in
  destruct s as [|a s1]; cbn [stripWs];
  [ | destruct (isWs1 a) eqn:?;
      [ | destruct s1 as [|b s2];
          [ | destruct (if backwards then isWs2 b a else isWs2 a b) eqn:?;
              [ | destruct s2 as [|c s3];
                  [ | destruct (if backwards then isWs3 c b a
                                else isWs3 a b c) eqn:? ] ] ] ] ].

Lemma stripWs_shorter (backwards : bool) (s : string) :
  String.length (stripWs backwards s) <= String.length s.
Proof.
  induction s as [s IH] using string_length_ind.
  strip_cases backwards s; try reflexivity.
  all: etransitivity; [apply IH; cbn [String.length]; lia|].
  all: cbn [String.length]; lia.
Qed.

Lemma stripWs_suffix (backwards : bool) (s : string) :
  exists pre, s = pre +:+ stripWs backwards s.
Proof.
  induction s as [s IH] using string_length_ind.
  strip_cases backwards s; try (exists ""; reflexivity).
  - destruct (IH s1) as [pre Hpre]; [cbn [String.length]; lia|].
    exists (String a pre). rewrite append_cons, <- Hpre. reflexivity.
  - destruct (IH s2) as [pre Hpre]; [cbn [String.length]; lia|].
    exists (String a (String b pre)). rewrite !append_cons, <- Hpre.
    reflexivity.
  - destruct (IH s3) as [pre Hpre]; [cbn [String.length]; lia|].
    exists (String a (String b (String c pre))).
    rewrite !append_cons, <- Hpre. reflexivity.
Qed.

Lemma stripWs_idempotent (backwards : bool) (s : string) :
  stripWs backwards (stripWs backwards s) = stripWs backwards s.
Proof.
  induction s as [s IH] using string_length_ind.
  strip_cases backwards s; try (apply IH; cbn [String.length]; lia).
  all: cbn [stripWs].
  all: repeat match goal with H : _ = false |- _ => rewrite H; clear H end.
  all: reflexivity.
Qed.

Lemma stripWs_unfold (backwards : bool) (a : ascii) (s1 : string) :
  stripWs backwards (String a s1)
  = if isWs1 a then stripWs backwards s1 else
      match s1 with
      | EmptyString => String a s1
      | String b s2 =>
          if (if backwards then isWs2 b a else isWs2 a b)
          then stripWs backwards s2 else
          match s2 with
          | EmptyString => String a s1
          | String c s3 =>
              if (if backwards then isWs3 c b a else isWs3 a b c)
              then stripWs backwards s3 else String a s1
          end
      end.
Proof. reflexivity. Qed.

(** A string [stripWs] leaves alone stays so when cut short. *)
Lemma stripWs_fixed_prefix (p q : string) :
  stripWs false (p +:+ q) = p +:+ q -> stripWs false p = p.
Proof.
  intros Hfixed.
  assert (Hless : forall t u : string,
             String.length u < String.length t -> stripWs false u <> t).
  { intros t u Hlen Heq. pose proof (stripWs_shorter false u) as Hle.
    rewrite Heq in Hle. lia. }
  destruct p as [|a p1]; [reflexivity|].
  rewrite append_cons in Hfixed. rewrite stripWs_unfold in Hfixed |- *.
  destruct (isWs1 a);
    [exfalso; eapply Hless; [|exact Hfixed]; cbn [String.length]; lia|].
  destruct p1 as [|b p2]; [reflexivity|].
  rewrite append_cons in Hfixed. cbv beta iota in Hfixed |- *.
  destruct (isWs2 a b);
    [exfalso; eapply Hless; [|exact Hfixed]; cbn [String.length]; lia|].
  destruct p2 as [|c p3]; [reflexivity|].
  rewrite append_cons in Hfixed. cbv beta iota in Hfixed |- *.
  destruct (isWs3 a b c);
    [exfalso; eapply Hless; [|exact Hfixed]; cbn [String.length]; lia|].
  reflexivity.
Qed.

Lemma trimEnd_prefix (s : string) : exists rest, s = trimEnd s +:+ rest.
Proof.
  unfold trimEnd.
  destruct (stripWs_suffix true (String.rev s)) as [pre Hpre].
  exists (String.rev pre).
  rewrite <- rev_append, <- Hpre, rev_involutive. reflexivity.
Qed.

Lemma trim_idempotent (s : string) : trim (trim s) = trim s.
Proof.
  unfold trim, trimStart.
  set (t := stripWs false s).
  assert (Ht : stripWs false t = t) by apply stripWs_idempotent.
  destruct (trimEnd_prefix t) as [rest Hrest].
  rewrite Hrest in Ht. apply stripWs_fixed_prefix in Ht.
  rewrite Ht. unfold trimEnd.
  rewrite rev_involutive, stripWs_idempotent. reflexivity.
Qed.

(** ** More on [resume] *)

(** The world taken apart, its fields under names of their own. *)
Ltac expose_world w :=
  destruct w as [fs rfail wfail mts cps [isrepo isclean added commitd head cmts
                                          checkedout] tr];
  cbn [repo trace files checkpoints read_fails write_fails mtimes
       checkIsRepo_out status_isClean add_out commit_out HEAD commits
       checkout_out] in *.

Lemma auth_compatible_agrees (saved current : option string) :
  auth_compatible saved current -> auth_differs saved current = false.
Proof.
  unfold auth_differs.
  intros [-> | [-> | [-> | [-> | ->]]]]; try reflexivity.
  - destruct current; reflexivity.
  - destruct saved; reflexivity.
  - destruct saved as [a|]; [|reflexivity].
    destruct (truthy a); reflexivity.
  - destruct current as [b|]; [|reflexivity].
    rewrite String.eqb_refl. destruct (truthy b); reflexivity.
Qed.

Lemma find_tag_absent (t : string) (chatGitLog : list LedgerEntry) :
  Forall (fun entry => tag entry <> t) chatGitLog ->
  List.find (fun e => String.eqb (entry_tag e) t) chatGitLog = None.
Proof.
  induction 1 as [|entry rest Hne _ IH]; [reflexivity|].
  cbn [List.find]. unfold entry_tag at 1.
  apply String.eqb_neq in Hne. rewrite Hne. exact IH.
Qed.

Section ResumeMore.

Variable INITIAL_HISTORY_LENGTH : nat.
Variable decodeTagName : string -> string.
Local Abbreviation resume :=
  (resumeCommand_action INITIAL_HISTORY_LENGTH decodeTagName).

(** X1.  A checkpoint saved under one authentication type is not
    resumed under another: with both types set and different, [resume]
    answers with an error that names both, before any call on git, and
    changes nothing. *)
Theorem resume_refuses_other_authentication
    (context : CommandContext) (args : string) (w : World)
    (checkpoint : Checkpoint) (entry : LedgerEntry)
    (chatGitLog : list LedgerEntry) (saved current : string) :
  resume_has_checkpoint (trim args) w checkpoint ->
  read_fails w = None ->
  ledger w = Some (Stringified (JArray chatGitLog)) ->
  List.find (fun e => String.eqb (entry_tag e) (trim args)) chatGitLog
    = Some entry ->
  authType checkpoint = Some saved ->
  context_authType context = Some current ->
  saved <> "" -> current <> "" -> saved <> current ->
  let r := resume context args w in
  r.1 = Resolved
          (message error
             ("Cannot resume chat. It was saved with a different authentication method ("
              +:+ saved +:+ ") than the current one (" +:+ current +:+ ")."))
  /\ same_stores w r.2
  /\ trace r.2
     = trace w ++ [ EvLoggerInitialize; EvLoadCheckpoint (trim args);
                    EvReadFileSync chatGitLogFile ].
Proof.
  intros (Htag & Hcp & Hhist) Hread Hl Hfind Hsaved Hcurrent Hs Hc Hne.
  apply truthy_nonempty in Htag, Hs, Hc.
  apply String.eqb_neq in Hne.
  unfold ledger, context_authType in *.
  open_world w. subst.
  unfold resumeCommand_action.
  cbv beta iota zeta delta [async bind when_ return_ pure negb].
  rewrite Htag. run_cbv. rewrite Hcp. cbv beta iota delta [from_option id].
  destruct checkpoint as [conversation saved_auth].
  cbn [history authType] in *. subst.
  destruct conversation as [|turn conversation]; [congruence|].
  cbn [length Nat.eqb]. run_cbv. rewrite Hl. run_cbv.
  rewrite Hfind. run_cbv. rewrite Hcurrent.
  unfold auth_differs. rewrite Hs, Hc, Hne. cbn [andb negb].
  cbv beta iota delta [from_option id].
  repeat split; try reflexivity.
  repeat rewrite <- app_assoc. reflexivity.
Qed.

(** X2.  A checkpoint without a ledger entry cannot be resumed: the
    answer names the missing commit, no call on git is made and nothing
    changes. *)
Theorem resume_without_ledger_entry
    (context : CommandContext) (args : string) (w : World)
    (checkpoint : Checkpoint) (chatGitLog : list LedgerEntry) :
  resume_has_checkpoint (trim args) w checkpoint ->
  read_fails w = None ->
  ledger w = Some (Stringified (JArray chatGitLog)) ->
  Forall (fun entry => tag entry <> trim args) chatGitLog ->
  let r := resume context args w in
  r.1 = Resolved
          (message error
             ("No git commit associated with tag: "
              +:+ decodeTagName (trim args) +:+ "."))
  /\ same_stores w r.2
  /\ trace r.2
     = trace w ++ [ EvLoggerInitialize; EvLoadCheckpoint (trim args);
                    EvReadFileSync chatGitLogFile ].
Proof.
  intros (Htag & Hcp & Hhist) Hread Hl Habs.
  apply truthy_nonempty in Htag.
  apply find_tag_absent in Habs. rename Habs into Hfind.
  unfold ledger in *.
  open_world w. subst.
  unfold resumeCommand_action.
  cbv beta iota zeta delta [async bind when_ return_ pure negb].
  rewrite Htag. run_cbv. rewrite Hcp. cbv beta iota delta [from_option id].
  destruct checkpoint as [conversation saved_auth].
  cbn [history authType] in *.
  destruct conversation as [|turn conversation]; [congruence|].
  cbn [length Nat.eqb]. run_cbv. rewrite Hl. run_cbv.
  rewrite Hfind. run_cbv.
  repeat split; try reflexivity.
  repeat rewrite <- app_assoc. reflexivity.
Qed.

(** X3.  A ledger that cannot be had as an array (absent, unreadable,
    no JSON, no array) ends [resume] with the error of the read, before
    any call on git; nothing changes. *)
Theorem resume_with_unusable_ledger
    (context : CommandContext) (args : string) (w : World)
    (checkpoint : Checkpoint) :
  resume_has_checkpoint (trim args) w checkpoint ->
  ledger_unusable w ->
  let r := resume context args w in
  (exists err,
      r.1 = Resolved
              (message error
                 ("Error reading from chat-git log file " +:+ chatGitLogFile
                  +:+ ", " +:+ err)))
  /\ same_stores w r.2
  /\ trace r.2
     = trace w ++ [ EvLoggerInitialize; EvLoadCheckpoint (trim args);
                    EvReadFileSync chatGitLogFile ].
Proof.
  intros (Htag & Hcp & Hhist) Hbad.
  apply truthy_nonempty in Htag.
  unfold ledger_unusable, ledger in *.
  open_world w.
  unfold resumeCommand_action.
  cbv beta iota zeta delta [async bind when_ return_ pure negb].
  rewrite Htag. run_cbv. rewrite Hcp. cbv beta iota delta [from_option id].
  destruct checkpoint as [conversation saved_auth].
  cbn [history authType] in *.
  destruct conversation as [|turn conversation]; [congruence|].
  cbn [length Nat.eqb]. run_cbv.
  repeat (case_step; run_cbv).
  all: first
    [ split; [eexists; reflexivity|];
      split; [repeat split; reflexivity|];
      repeat rewrite <- app_assoc; reflexivity
    | exfalso; destruct Hbad as [H|[H|[H|H]]]; congruence ].
Qed.

(** X4.  A resume that passes every check - the stored authentication
    type being absent, as in records of old, or the current one - checks
    out the commit of the first ledger entry of the tag, once, and hands
    the stored history back, with the display history its loop builds:
    the one of the specification when no turn behind the hidden
    context has a role that names a property every object inherits.
    The checkpoint store and the commit history stay as they were. *)
Theorem resume_checks_out_recorded_commit
    (context : CommandContext) (args : string) (w : World)
    (checkpoint : Checkpoint) (entry : LedgerEntry)
    (chatGitLog : list LedgerEntry) :
  resume_has_checkpoint (trim args) w checkpoint ->
  read_fails w = None ->
  ledger w = Some (Stringified (JArray chatGitLog)) ->
  List.find (fun e => String.eqb (entry_tag e) (trim args)) chatGitLog
    = Some entry ->
  auth_compatible (authType checkpoint) (context_authType context) ->
  checkIsRepo_out (repo w) = Ok true ->
  status_isClean (repo w) = Ok true ->
  checkout_out (repo w) = Ok tt ->
  let r := resume context args w in
  r.1 = Resolved
          (load_history
             (display_history INITIAL_HISTORY_LENGTH (history checkpoint))
             (history checkpoint))
  /\ (plain_roles (skipn INITIAL_HISTORY_LENGTH (history checkpoint)) ->
      display_history INITIAL_HISTORY_LENGTH (history checkpoint)
      = display_history_spec INITIAL_HISTORY_LENGTH (history checkpoint))
  /\ HEAD (repo r.2) = Ok (commitHash entry)
  /\ commits (repo r.2) = commits (repo w)
  /\ checkpoints r.2 = checkpoints w
  /\ trace r.2
     = trace w ++ [ EvLoggerInitialize; EvLoadCheckpoint (trim args);
                    EvReadFileSync chatGitLogFile; EvCheckIsRepo;
                    EvStatus ["--porcelain"];
                    EvCheckout (commitHash entry) ].
Proof.
  intros (Htag & Hcp & Hhist) Hread Hl Hfind Hauth Hrepo Hclean Hout r.
  apply auth_compatible_agrees in Hauth.
  assert (Hclr : resume_cleared context (trim args) w checkpoint entry).
  { repeat split; try assumption. exists chatGitLog. split; assumption. }
  destruct (resume_succeeds INITIAL_HISTORY_LENGTH decodeTagName
              context args w checkpoint entry Hclr Hclean Hout)
    as (Hr & Hrepo' & Hfiles & Hstore & Htrace).
  fold r in Hr, Hrepo', Hfiles, Hstore, Htrace.
  split; [rewrite Hr, ui_history_spec; reflexivity|].
  split; [apply display_history_plain|].
  split; [rewrite Hrepo'; reflexivity|].
  split; [rewrite Hrepo'; reflexivity|].
  split; [exact Hstore | exact Htrace].
Qed.

(** X5.  When the checkout fails, [resume] reports it with the commit
    hash and the error, and the repository, the ledger and the
    checkpoint store are as before. *)
Theorem resume_failed_checkout_changes_nothing
    (context : CommandContext) (args : string) (w : World)
    (checkpoint : Checkpoint) (entry : LedgerEntry) (err : string) :
  resume_cleared context (trim args) w checkpoint entry ->
  status_isClean (repo w) = Ok true ->
  checkout_out (repo w) = Err err ->
  let r := resume context args w in
  r.1 = Resolved
          (message error
             ("Failed git checkout " +:+ commitHash entry +:+ ", " +:+ err))
  /\ same_stores w r.2
  /\ trace r.2
     = trace w ++ [ EvLoggerInitialize; EvLoadCheckpoint (trim args);
                    EvReadFileSync chatGitLogFile; EvCheckIsRepo;
                    EvStatus ["--porcelain"];
                    EvCheckout (commitHash entry) ].
Proof.
  intros (Htag & Hcp & Hhist & Hread & (chatGitLog & Hl & Hfind) & Hauth & Hrepo)
         Hclean Hout.
  apply truthy_nonempty in Htag.
  unfold ledger, context_authType in *.
  open_world w. subst.
  unfold resumeCommand_action.
  cbv beta iota zeta delta [async bind when_ return_ pure negb].
  rewrite Htag. run_cbv. rewrite Hcp. cbv beta iota delta [from_option id].
  destruct checkpoint as [conversation saved_auth].
  cbn [history authType] in *.
  destruct conversation as [|turn conversation]; [congruence|].
  cbn [length Nat.eqb]. run_cbv. rewrite Hl. run_cbv.
  rewrite Hfind. run_cbv.
  rewrite Hauth. run_cbv.
  repeat split; try reflexivity.
  repeat rewrite <- app_assoc. reflexivity.
Qed.

(** X6.  Whatever the world, [resume] writes nothing: the checkpoint
    store and the commit history are as before, and no call it makes
    writes a file, saves or deletes a checkpoint, stages or commits. *)
Theorem resume_never_writes
    (context : CommandContext) (args : string) (w : World) :
  let r := resume context args w in
  checkpoints r.2 = checkpoints w
  /\ commits (repo r.2) = commits (repo w)
  /\ calls_between (fun e => negb (is_write e)) w r.2.
Proof.
  open_world w.
  unfold resumeCommand_action. run_cbv.
  repeat (case_step; run_cbv).
  all: repeat split; try reflexivity.
  all: solve_calls.
Qed.

(** X30.  The repository is looked at last, once the checkpoint, the
    ledger entry and the authentication type have passed: a working
    directory that is no repository, a check or a status that fails,
    or a dirty tree each end [resume] with their message, without a
    checkout and with nothing changed. *)
Theorem resume_unfit_repository
    (context : CommandContext) (args : string) (w : World)
    (checkpoint : Checkpoint) (entry : LedgerEntry)
    (chatGitLog : list LedgerEntry) (answer : SlashCommandActionReturn) :
  resume_has_checkpoint (trim args) w checkpoint ->
  read_fails w = None ->
  ledger w = Some (Stringified (JArray chatGitLog)) ->
  List.find (fun e => String.eqb (entry_tag e) (trim args)) chatGitLog
    = Some entry ->
  auth_compatible (authType checkpoint) (context_authType context) ->
  repository_unfit (repo w) answer ->
  let r := resume context args w in
  r.1 = Resolved answer
  /\ same_stores w r.2
  /\ calls_between (fun e => negb (is_mutation e)) w r.2.
Proof.
  intros (Htag & Hcp & Hhist) Hread Hl Hfind Hauth Hunfit.
  apply truthy_nonempty in Htag. apply auth_compatible_agrees in Hauth.
  unfold ledger, context_authType, repository_unfit in *.
  expose_world w. subst.
  unfold resumeCommand_action.
  cbv beta iota zeta delta [async bind when_ return_ pure negb].
  rewrite Htag. run_cbv. rewrite Hcp. cbv beta iota delta [from_option id].
  destruct checkpoint as [conversation saved_auth].
  cbn [history authType] in *.
  destruct conversation as [|turn conversation]; [congruence|].
  cbn [length Nat.eqb]. run_cbv. rewrite Hl. run_cbv.
  rewrite Hfind. run_cbv. rewrite Hauth. run_cbv.
  destruct isrepo as [[|]|e]; [destruct isclean as [[|]|e]|..];
    try contradiction; subst; run_cbv.
  all: split; [reflexivity|].
  all: split; [repeat split; reflexivity | solve_calls].
Qed.

End ResumeMore.

Ltac resume_has_checkpoint_here :=
  unfold resume_has_checkpoint;
  split; [vm_compute; discriminate|];
  split; [reflexivity | discriminate].

Lemma resume_refuses_other_authentication_witness :
  let context := talking_context false short_talk in
  let r := resumeCommand_action 1 plain_tag context " good-tag " other_auth_world in
  r.1 = Resolved
          (message error
             "Cannot resume chat. It was saved with a different authentication method (gemini-api-key) than the current one (oauth-personal).")
  /\ same_stores other_auth_world r.2
  /\ trace r.2
     = [ EvLoggerInitialize; EvLoadCheckpoint "good-tag";
         EvReadFileSync chatGitLogFile ].
Proof.
  intros context r.
  apply (resume_refuses_other_authentication 1 plain_tag context " good-tag "
           other_auth_world (mkCheckpoint short_talk (Some "gemini-api-key"))
           (mkEntry "1234567890abcdef" "good-tag")
           [mkEntry "1234567890abcdef" "good-tag"]
           "gemini-api-key" "oauth-personal").
  - resume_has_checkpoint_here.
  - reflexivity.
  - reflexivity.
  - reflexivity.
  - reflexivity.
  - reflexivity.
  - discriminate.
  - discriminate.
  - discriminate.
Defined.

Lemma resume_without_ledger_entry_witness :
  let context := talking_context false short_talk in
  let r := resumeCommand_action 1 plain_tag context "good-tag" unlisted_tag_world in
  r.1 = Resolved
          (message error "No git commit associated with tag: good-tag.")
  /\ same_stores unlisted_tag_world r.2
  /\ trace r.2
     = [ EvLoggerInitialize; EvLoadCheckpoint "good-tag";
         EvReadFileSync chatGitLogFile ].
Proof.
  intros context r.
  apply (resume_without_ledger_entry 1 plain_tag context "good-tag"
           unlisted_tag_world
           (mkCheckpoint short_talk (Some "oauth-personal"))
           [mkEntry "abc" "other-tag"]).
  - resume_has_checkpoint_here.
  - reflexivity.
  - reflexivity.
  - constructor; [discriminate | constructor].
Defined.

Lemma resume_with_unusable_ledger_witness :
  let context := talking_context false short_talk in
  let r := resumeCommand_action 1 plain_tag context "good-tag" lost_ledger_world in
  (exists err,
      r.1 = Resolved
              (message error
                 ("Error reading from chat-git log file " +:+ chatGitLogFile
                  +:+ ", " +:+ err)))
  /\ same_stores lost_ledger_world r.2
  /\ trace r.2
     = [ EvLoggerInitialize; EvLoadCheckpoint "good-tag";
         EvReadFileSync chatGitLogFile ].
Proof.
  intros context r.
  apply (resume_with_unusable_ledger 1 plain_tag context "good-tag"
           lost_ledger_world
           (mkCheckpoint short_talk (Some "oauth-personal"))).
  - resume_has_checkpoint_here.
  - right. left. reflexivity.
Defined.

Lemma resume_checks_out_recorded_commit_witness :
  let context := talking_context false short_talk in
  let r := resumeCommand_action 1 plain_tag context "good-tag" legacy_world in
  r.1 = Resolved (load_history (display_history 1 mixed_talk) mixed_talk)
  /\ (plain_roles (skipn 1 mixed_talk) ->
      display_history 1 mixed_talk = display_history_spec 1 mixed_talk)
  /\ HEAD (repo r.2) = Ok "1234567890abcdef"
  /\ commits (repo r.2) = []
  /\ checkpoints r.2 = checkpoints legacy_world
  /\ trace r.2
     = [ EvLoggerInitialize; EvLoadCheckpoint "good-tag";
         EvReadFileSync chatGitLogFile; EvCheckIsRepo;
         EvStatus ["--porcelain"]; EvCheckout "1234567890abcdef" ].
Proof.
  intros context r.
  apply (resume_checks_out_recorded_commit 1 plain_tag context "good-tag"
           legacy_world (mkCheckpoint mixed_talk None)
           (mkEntry "1234567890abcdef" "good-tag")
           [mkEntry "1234567890abcdef" "good-tag"]).
  - resume_has_checkpoint_here.
  - reflexivity.
  - reflexivity.
  - reflexivity.
  - left. reflexivity.
  - reflexivity.
  - reflexivity.
  - reflexivity.
Defined.

Lemma resume_failed_checkout_changes_nothing_witness :
  let context := talking_context false short_talk in
  let w := good_tag_world short_talk (Some "oauth-personal")
                          failing_checkout_repo in
  let r := resumeCommand_action 1 plain_tag context "good-tag" w in
  r.1 = Resolved
          (message error
             "Failed git checkout 1234567890abcdef, Error: Checkout failed")
  /\ same_stores w r.2
  /\ trace r.2
     = [ EvLoggerInitialize; EvLoadCheckpoint "good-tag";
         EvReadFileSync chatGitLogFile; EvCheckIsRepo;
         EvStatus ["--porcelain"]; EvCheckout "1234567890abcdef" ].
Proof.
  intros context w r.
  apply (resume_failed_checkout_changes_nothing 1 plain_tag context "good-tag"
           w (mkCheckpoint short_talk (Some "oauth-personal"))
           (mkEntry "1234567890abcdef" "good-tag") "Error: Checkout failed").
  - unfold resume_cleared.
    split; [vm_compute; discriminate|].
    split; [reflexivity|].
    split; [discriminate|].
    split; [reflexivity|].
    split; [eexists; split; reflexivity|].
    split; reflexivity.
  - reflexivity.
  - reflexivity.
Defined.

Lemma resume_unfit_repository_witness :
  let context := talking_context false short_talk in
  let w := good_tag_world short_talk (Some "oauth-personal") no_git_repo in
  let r := resumeCommand_action 1 plain_tag context "good-tag" w in
  r.1 = Resolved repo_check_failed
  /\ same_stores w r.2
  /\ calls_between (fun e => negb (is_mutation e)) w r.2.
Proof.
  intros context w r.
  apply (resume_unfit_repository 1 plain_tag context "good-tag" w
           (mkCheckpoint short_talk (Some "oauth-personal"))
           (mkEntry "1234567890abcdef" "good-tag")
           [mkEntry "1234567890abcdef" "good-tag"] repo_check_failed).
  - resume_has_checkpoint_here.
  - reflexivity.
  - reflexivity.
  - reflexivity.
  - right. right. right. right. reflexivity.
  - reflexivity.
Defined.

(** ** More on [save] *)

Lemma find_or_push_other_tags (t h : string) (chatGitLog : list LedgerEntry) :
  other_tags t (find_or_push t h chatGitLog) = other_tags t chatGitLog.
Proof.
  unfold other_tags.
  induction chatGitLog as [|entry rest IH].
  - cbn. rewrite String.eqb_refl. reflexivity.
  - destruct (String.eqb_spec (tag entry) t) as [Heq|Hne].
    + rewrite find_or_push_same by exact Heq.
      cbn [List.filter tag]. rewrite String.eqb_refl.
      apply String.eqb_eq in Heq. rewrite Heq. reflexivity.
    + rewrite find_or_push_other by exact Hne.
      cbn [List.filter]. rewrite IH. reflexivity.
Qed.

Section SaveMore.

Variable INITIAL_HISTORY_LENGTH : nat.
Variable decodeTagName : string -> string.
Local Abbreviation save :=
  (saveCommand_action INITIAL_HISTORY_LENGTH decodeTagName).

(** X7.  Outside a repository [save] stops at its second step, before
    the checkpoint store is even asked for the tag: a check that says
    no and a check that fails give their two messages, and nothing
    changes. *)
Theorem save_outside_repository
    (context : CommandContext) (args : string) (w : World) :
  trim args <> "" ->
  checkIsRepo_out (repo w) <> Ok true ->
  let s := save context args w in
  s.1 = Resolved
          match checkIsRepo_out (repo w) with
          | Ok _ => not_a_repo
          | Err _ => repo_check_failed
          end
  /\ same_stores w s.2
  /\ trace s.2 = trace w ++ [ EvLoggerInitialize; EvCheckIsRepo ].
Proof.
  intros Htag Hrepo. apply truthy_nonempty in Htag.
  expose_world w.
  unfold saveCommand_action.
  cbv beta iota zeta delta [async bind when_ return_ pure negb].
  rewrite Htag. run_cbv.
  destruct isrepo as [[|]|e]; [congruence| |]; run_cbv.
  all: repeat split; try reflexivity.
  all: repeat rewrite <- app_assoc; reflexivity.
Qed.

(** X8.  Without a chat client a cleared [save] answers so; neither
    the repository nor the stores are touched. *)
Theorem save_without_chat_client
    (context : CommandContext) (args : string) (w : World) :
  save_cleared context (trim args) w ->
  context_history context = None ->
  let s := save context args w in
  s.1 = Resolved
          (message error "No chat client available to save conversation.")
  /\ same_stores w s.2
  /\ calls_between (fun e => negb (is_mutation e)) w s.2.
Proof.
  intros (Htag & Hrepo & Hconfirm) Hchat.
  apply truthy_nonempty in Htag.
  unfold context_history in Hchat.
  open_world w. subst.
  unfold saveCommand_action.
  cbv beta iota zeta delta [async bind when_ return_ pure negb].
  rewrite Htag. run_cbv.
  destruct (overwriteConfirmed context);
    [| destruct Hconfirm as [?|Hnone]; [discriminate | rewrite Hnone] ].
  all: destruct (config context) as [cfg|]; [rewrite Hchat|]; run_cbv.
  all: split; [reflexivity|].
  all: split; [repeat split; reflexivity | solve_calls].
Qed.

(** X9.  When the snapshot fails - the status, the staging, the commit
    or the reading of HEAD - [save] reports the error and writes no
    record: the checkpoint is not saved and the ledger not touched. *)
Theorem save_failed_snapshot_persists_nothing
    (context : CommandContext) (args : string) (w : World)
    (conversation : list Content) (err : string) :
  save_cleared context (trim args) w ->
  context_history context = Some conversation ->
  INITIAL_HISTORY_LENGTH < length conversation ->
  snapshot_fails w err ->
  let s := save context args w in
  s.1 = Resolved (message error ("Failed git add or commit, " +:+ err))
  /\ same_stores w s.2
  /\ calls_between (fun e => negb (is_record_write e)) w s.2.
Proof.
  intros (Htag & Hrepo & Hconfirm) Hchat Hlen Hsnap.
  apply truthy_nonempty in Htag. apply Nat.leb_gt in Hlen.
  unfold snapshot_fails, context_history in *.
  expose_world w. subst.
  unfold saveCommand_action.
  cbv beta iota zeta delta [async bind when_ return_ pure negb].
  rewrite Htag. run_cbv.
  destruct (config context) as [cfg|]; [|discriminate].
  rewrite Hchat, Hlen.
  destruct (overwriteConfirmed context);
    [| destruct Hconfirm as [?|Hnone]; [discriminate | rewrite Hnone] ].
  all: destruct isclean as [[|]|e];
    [ | destruct Hsnap as [Hadd | [Hadd Hcommit]] | ]; subst.
  all: run_cbv.
  all: split; [reflexivity|].
  all: split; [repeat split; reflexivity | solve_calls].
Qed.

(** X10.  A failure at the ledger comes too late to undo anything:
    [save] reports it, yet the checkpoint is in the store and the commit
    of a dirty tree is made, while the ledger file is as before. *)
Theorem save_ledger_failure_keeps_checkpoint
    (context : CommandContext) (args : string) (w : World)
    (conversation : list Content) (h : string) :
  save_cleared context (trim args) w ->
  context_history context = Some conversation ->
  INITIAL_HISTORY_LENGTH < length conversation ->
  snapshot_yields w h ->
  ledger_fails w ->
  let s := save context args w in
  (exists err,
      s.1 = Resolved
              (message error
                 ("Reading or writing to " +:+ chatGitLogFile +:+ " failed "
                  +:+ err)))
  /\ checkpoints s.2
     = <[ trim args := mkCheckpoint conversation (context_authType context) ]>
         (checkpoints w)
  /\ repo s.2 = repo_after_snapshot (trim args) h (repo w)
  /\ files s.2 = files w.
Proof.
  intros (Htag & Hrepo & Hconfirm) Hchat Hlen Hsnap Hfails.
  apply truthy_nonempty in Htag. apply Nat.leb_gt in Hlen.
  unfold snapshot_yields, repo_after_snapshot, ledger_fails in *.
  unfold ledger, context_history, context_authType in *.
  expose_world w. subst.
  cbn [files status_isClean] in *.
  unfold saveCommand_action.
  cbv beta iota zeta delta [async bind when_ return_ pure negb].
  rewrite Htag. run_cbv.
  destruct (config context) as [cfg|]; [|discriminate].
  rewrite Hchat, Hlen.
  destruct (overwriteConfirmed context);
    [| destruct Hconfirm as [?|Hnone]; [discriminate | rewrite Hnone] ].
  all: destruct isclean as [[|]|];
    [ | destruct Hsnap as [Hadd Hcommit] | contradiction ]; subst.
  all: run_cbv.
  all: destruct rfail as [e|], wfail as [e'|].
  all: destruct (fs !! chatGitLogFile) as [[[l|]|]|] eqn:Hfile.
  all: try (exfalso; clear - Hfails; intuition congruence).
  all: run_cbv; rewrite ?Hfile; run_cbv.
  all: try (destruct (find_assign (trim args) h l) as [[found|] l']; run_cbv).
  all: split; [eexists; reflexivity|].
  all: repeat split; reflexivity.
Qed.

(** X11.  A save of a dirty tree that passes every check makes one
    commit, of everything under the working directory and without the
    hooks, with the tag in its message; the new commit is HEAD and the
    one the ledger records for the tag. *)
Theorem save_dirty_tree_commits_once
    (context : CommandContext) (args : string) (w : World)
    (conversation : list Content) (h : string)
    (chatGitLog : list LedgerEntry) :
  save_passes INITIAL_HISTORY_LENGTH context args w conversation h chatGitLog ->
  status_isClean (repo w) = Ok false ->
  let s := save context args w in
  commits (repo s.2)
  = (h, "commit made with chat-git tag " +:+ trim args) :: commits (repo w)
  /\ HEAD (repo s.2) = Ok h
  /\ (exists chatGitLog',
         ledger s.2 = Some (Stringified (JArray chatGitLog'))
         /\ List.find (fun e => String.eqb (entry_tag e) (trim args))
                      chatGitLog'
            = Some (mkEntry h (trim args)))
  /\ (exists before after,
         trace s.2
         = trace w ++ before
           ++ [ EvAdd "./*";
                EvCommit ("commit made with chat-git tag " +:+ trim args)
                         ["--no-verify"] ]
           ++ after
         /\ forallb (fun e => negb (is_stage_or_commit e)) (before ++ after)
            = true).
Proof.
  intros (Hclr & Hchat & Hlen & Hsnap & Huse) Hdirty s.
  destruct (save_succeeds INITIAL_HISTORY_LENGTH decodeTagName
              context args w conversation h chatGitLog
              Hclr Hchat Hlen Hsnap Huse)
    as (_ & Hl & _ & Hrepo & Htrace).
  fold s in Hl, Hrepo, Htrace.
  unfold repo_after_snapshot in Hrepo. rewrite Hdirty in Hrepo.
  split; [rewrite Hrepo; reflexivity|].
  split; [rewrite Hrepo; reflexivity|].
  split.
  { eexists. split; [exact Hl | apply find_after_find_or_push]. }
  unfold save_calls in Htrace. rewrite Hdirty in Htrace.
  exists ([ EvLoggerInitialize; EvCheckIsRepo ]
          ++ (if overwriteConfirmed context then []
              else [ EvCheckpointExists (trim args) ])
          ++ [ EvStatus ["--porcelain"] ]).
  eexists. split.
  - rewrite Htrace. repeat rewrite <- app_assoc. reflexivity.
  - destruct (overwriteConfirmed context), (ledger w); reflexivity.
Qed.

(** X12.  A save that passes every check leaves the other tags alone:
    their ledger entries are the same, in the same order, and so are
    their checkpoints. *)
Theorem save_keeps_other_tags
    (context : CommandContext) (args : string) (w : World)
    (conversation : list Content) (h : string)
    (chatGitLog : list LedgerEntry) :
  save_passes INITIAL_HISTORY_LENGTH context args w conversation h chatGitLog ->
  let s := save context args w in
  (exists chatGitLog',
      ledger_entries s.2 = Some chatGitLog'
      /\ other_tags (trim args) chatGitLog' = other_tags (trim args) chatGitLog)
  /\ forall t, t <> trim args -> checkpoints s.2 !! t = checkpoints w !! t.
Proof.
  intros (Hclr & Hchat & Hlen & Hsnap & Huse) s.
  destruct (save_succeeds INITIAL_HISTORY_LENGTH decodeTagName
              context args w conversation h chatGitLog
              Hclr Hchat Hlen Hsnap Huse)
    as (_ & Hl & Hc & _).
  fold s in Hl, Hc.
  split.
  - eexists. split; [apply ledger_entries_of_array; exact Hl|].
    apply find_or_push_other_tags.
  - intros t Hne. rewrite Hc. apply lookup_insert_ne. congruence.
Qed.

(** X13.  The answer of success is earned: [save] gives an information
    message other than "nothing to save" only when the call has passed
    every check, and the message is the one that names the tag and the
    commit. *)
Theorem save_success_answer_is_earned
    (context : CommandContext) (args : string) (w : World) (answer : string) :
  (save context args w).1 = Resolved (message info answer) ->
  answer <> "No conversation found to save." ->
  exists conversation h chatGitLog,
    save_passes INITIAL_HISTORY_LENGTH context args w conversation h chatGitLog
    /\ answer
       = "Conversation checkpoint saved with tag: " +:+ decodeTagName (trim args)
         +:+ " and git commit hash " +:+ h +:+ ".".
Proof.
  intros Hanswer Hnot.
  destruct (save_informs_when_passed INITIAL_HISTORY_LENGTH decodeTagName
              context args w answer Hanswer Hnot)
    as (conversation & h & chatGitLog & Hpass & Hsaved).
  exists conversation, h, chatGitLog. split; [exact Hpass|].
  rewrite Hanswer in Hsaved. unfold saved in Hsaved.
  injection Hsaved as ->. reflexivity.
Qed.

End SaveMore.

Ltac save_cleared_here :=
  unfold save_cleared;
  split; [vm_compute; discriminate|];
  split; [reflexivity|];
  first [left; reflexivity | right; reflexivity].

Ltac save_passes_here :=
  unfold save_passes, snapshot_yields, ledger_usable;
  split; [save_cleared_here|];
  by_evaluation.

Lemma save_outside_repository_witness :
  let context := talking_context false short_talk in
  let w := good_tag_world short_talk None outside_repo in
  let s := saveCommand_action 1 plain_tag context "good-tag" w in
  s.1 = Resolved not_a_repo
  /\ same_stores w s.2
  /\ trace s.2 = [ EvLoggerInitialize; EvCheckIsRepo ].
Proof.
  intros context w s.
  apply (save_outside_repository 1 plain_tag context "good-tag" w).
  - discriminate.
  - discriminate.
Defined.

Lemma save_without_chat_client_witness :
  let s := saveCommand_action 1 plain_tag confirmed_bare_context "my-tag"
                              fresh_world in
  s.1 = Resolved
          (message error "No chat client available to save conversation.")
  /\ same_stores fresh_world s.2
  /\ calls_between (fun e => negb (is_mutation e)) fresh_world s.2.
Proof.
  intros s.
  apply (save_without_chat_client 1 plain_tag confirmed_bare_context "my-tag"
           fresh_world).
  - save_cleared_here.
  - reflexivity.
Defined.

Lemma save_failed_snapshot_persists_nothing_witness :
  let context := talking_context false short_talk in
  let w := world_of [] ∅ failing_commit_repo in
  let s := saveCommand_action 1 plain_tag context "my-tag" w in
  s.1 = Resolved
          (message error "Failed git add or commit, Error: Commit failed")
  /\ same_stores w s.2
  /\ calls_between (fun e => negb (is_record_write e)) w s.2.
Proof.
  intros context w s.
  apply (save_failed_snapshot_persists_nothing 1 plain_tag context "my-tag" w
           short_talk "Error: Commit failed").
  - save_cleared_here.
  - reflexivity.
  - simpl. lia.
  - right. split; reflexivity.
Defined.

Lemma save_ledger_failure_keeps_checkpoint_witness :
  let context := talking_context false short_talk in
  let s := saveCommand_action 1 plain_tag context "my-tag" read_only_world in
  (exists err,
      s.1 = Resolved
              (message error
                 ("Reading or writing to " +:+ chatGitLogFile +:+ " failed "
                  +:+ err)))
  /\ checkpoints s.2
     = <[ "my-tag" := mkCheckpoint short_talk (Some "oauth-personal") ]> ∅
  /\ repo s.2 = committed "c3" "commit made with chat-git tag my-tag" dirty_repo
  /\ files s.2 = files read_only_world.
Proof.
  intros context s.
  apply (save_ledger_failure_keeps_checkpoint 1 plain_tag context "my-tag"
           read_only_world short_talk "c3").
  - save_cleared_here.
  - reflexivity.
  - simpl. lia.
  - split; reflexivity.
  - right. discriminate.
Defined.

Lemma save_dirty_tree_commits_once_witness :
  let context := talking_context false short_talk in
  let s := saveCommand_action 1 plain_tag context "my-tag" reused_tag_world in
  commits (repo s.2) = [("c3", "commit made with chat-git tag my-tag")]
  /\ HEAD (repo s.2) = Ok "c3"
  /\ (exists chatGitLog',
         ledger s.2 = Some (Stringified (JArray chatGitLog'))
         /\ List.find (fun e => String.eqb (entry_tag e) "my-tag") chatGitLog'
            = Some (mkEntry "c3" "my-tag"))
  /\ (exists before after,
         trace s.2
         = [] ++ before
           ++ [ EvAdd "./*";
                EvCommit "commit made with chat-git tag my-tag"
                         ["--no-verify"] ]
           ++ after
         /\ forallb (fun e => negb (is_stage_or_commit e)) (before ++ after)
            = true).
Proof.
  intros context s.
  apply (save_dirty_tree_commits_once 1 plain_tag context "my-tag"
           reused_tag_world short_talk "c3"
           [mkEntry "old-commit-hash" "my-tag"]).
  - save_passes_here.
  - reflexivity.
Defined.

Lemma save_keeps_other_tags_witness :
  let context := talking_context false short_talk in
  let s := saveCommand_action 1 plain_tag context "my-tag" unlisted_tag_world in
  (exists chatGitLog',
      ledger_entries s.2 = Some chatGitLog'
      /\ other_tags "my-tag" chatGitLog'
         = other_tags "my-tag" [mkEntry "abc" "other-tag"])
  /\ forall t, t <> "my-tag" ->
       checkpoints s.2 !! t = checkpoints unlisted_tag_world !! t.
Proof.
  intros context s.
  apply (save_keeps_other_tags 1 plain_tag context "my-tag"
           unlisted_tag_world short_talk "c2" [mkEntry "abc" "other-tag"]).
  save_passes_here.
Defined.

Lemma save_success_answer_is_earned_witness :
  let context := talking_context false short_talk in
  exists conversation h chatGitLog,
    save_passes 1 context "my-tag" fresh_world conversation h chatGitLog
    /\ "Conversation checkpoint saved with tag: my-tag and git commit hash c2."
       = "Conversation checkpoint saved with tag: " +:+ plain_tag (trim "my-tag")
         +:+ " and git commit hash " +:+ h +:+ ".".
Proof.
  intros context.
  apply (save_success_answer_is_earned 1 plain_tag context "my-tag" fresh_world
           "Conversation checkpoint saved with tag: my-tag and git commit hash c2.").
  - reflexivity.
  - discriminate.
Defined.

(** ** More on [delete] *)

Section DeleteMore.

Variable decodeTagName : string -> string.
Local Abbreviation delete := (deleteCommand_action decodeTagName).

(** X14.  Whatever the ledger, deleting a tag it has no entry for takes
    its last entry out, the entry of another tag: [findIndex] gives -1,
    which [!tagIndex] lets through and [splice] counts from the end.
    The ledger is written back, the store asked to delete, and the
    answer goes by the store alone. *)
Theorem delete_unknown_tag_removes_last_entry
    (context : CommandContext) (args : string) (w : World)
    (chatGitLog : list LedgerEntry) :
  trim args <> "" ->
  read_fails w = None -> write_fails w = None ->
  ledger w = Some (Stringified (JArray chatGitLog)) ->
  Forall (fun entry => tag entry <> trim args) chatGitLog ->
  let r := delete context args w in
  r.1 = Resolved
          (deleted_answer decodeTagName (trim args)
                          (isSome (checkpoints w !! trim args)))
  /\ ledger r.2 = Some (Stringified (JArray (removelast chatGitLog)))
  /\ checkpoints r.2 = base.delete (trim args) (checkpoints w)
  /\ trace r.2 = trace w ++ delete_calls (trim args) (removelast chatGitLog).
Proof.
  intros Htag Hr Hw Hl Habs.
  apply truthy_nonempty in Htag. apply tag_eqb_absent in Habs.
  unfold ledger, deleted_answer, delete_calls in *.
  expose_world w. subst.
  unfold deleteCommand_action.
  cbv beta iota zeta delta [async bind when_ return_ pure negb].
  rewrite Htag. run_cbv. rewrite Hl.
  unfold findIndex. rewrite (findIndex_from_none _ _ _ Habs).
  rewrite splice_last. cbn [Z.eqb]. run_cbv.
  destruct (cps !! trim args) as [c|] eqn:Hcp; run_cbv.
  all: split; [reflexivity|].
  all: split; [apply lookup_insert_eq|].
  all: split; [|repeat rewrite <- app_assoc; reflexivity].
  - reflexivity.
  - symmetry. apply delete_id. exact Hcp.
Qed.

(** X15.  Whatever the ledger, the tag of its first entry cannot be
    deleted: the index 0 is taken for "not found", the answer says the
    tag has no snapshot, and ledger and checkpoint stay. *)
Theorem delete_refuses_first_entry
    (context : CommandContext) (args : string) (w : World)
    (entry : LedgerEntry) (rest : list LedgerEntry) :
  trim args <> "" ->
  read_fails w = None ->
  ledger w = Some (Stringified (JArray (entry :: rest))) ->
  tag entry = trim args ->
  let r := delete context args w in
  r.1 = Resolved
          (message error
             ("Tag not associated with git snapshot, " +:+ trim args))
  /\ same_stores w r.2
  /\ trace r.2 = trace w ++ [ EvReadFileSync chatGitLogFile ].
Proof.
  intros Htag Hr Hl Hentry.
  apply truthy_nonempty in Htag.
  unfold ledger in *.
  expose_world w. subst.
  unfold deleteCommand_action.
  cbv beta iota zeta delta [async bind when_ return_ pure negb].
  rewrite Htag. run_cbv. rewrite Hl.
  unfold findIndex. cbn [findIndex_from]. unfold entry_tag.
  rewrite Hentry, String.eqb_refl. cbn [Z.eqb].
  repeat split; reflexivity.
Qed.

(** X16.  A tag whose first entry lies behind the head of the ledger is
    deleted as meant: that entry alone leaves the ledger, the other
    files stay, the record leaves the store, and the answer tells
    whether there was a record. *)
Theorem delete_removes_later_entry
    (context : CommandContext) (args : string) (w : World)
    (before : list LedgerEntry) (entry : LedgerEntry)
    (after : list LedgerEntry) :
  trim args <> "" ->
  read_fails w = None -> write_fails w = None ->
  ledger w = Some (Stringified (JArray (before ++ entry :: after))) ->
  before <> [] ->
  Forall (fun e => tag e <> trim args) before ->
  tag entry = trim args ->
  let r := delete context args w in
  r.1 = Resolved
          (deleted_answer decodeTagName (trim args)
                          (isSome (checkpoints w !! trim args)))
  /\ ledger r.2 = Some (Stringified (JArray (before ++ after)))
  /\ (forall path, path <> chatGitLogFile ->
        files r.2 !! path = files w !! path)
  /\ checkpoints r.2 = base.delete (trim args) (checkpoints w)
  /\ trace r.2 = trace w ++ delete_calls (trim args) (before ++ after).
Proof.
  intros Htag Hr Hw Hl Hne Hbefore Hentry.
  apply truthy_nonempty in Htag. apply tag_eqb_absent in Hbefore.
  unfold ledger, deleted_answer, delete_calls in *.
  expose_world w. subst.
  unfold deleteCommand_action.
  cbv beta iota zeta delta [async bind when_ return_ pure negb].
  rewrite Htag. run_cbv. rewrite Hl.
  unfold findIndex.
  rewrite (findIndex_from_first _ before entry after 0%Z Hbefore)
    by (unfold entry_tag; rewrite Hentry; apply String.eqb_refl).
  rewrite Z.add_0_l, splice_one.
  assert (Hz : (Z.of_nat (length before) =? 0)%Z = false).
  { apply Z.eqb_neq. destruct before; [congruence | simpl; lia]. }
  rewrite Hz. run_cbv.
  destruct (cps !! trim args) as [c|] eqn:Hcp; run_cbv.
  all: split; [reflexivity|].
  all: split; [apply lookup_insert_eq|].
  all: split; [intros path Hpath; apply lookup_insert_ne; congruence|].
  all: split; [|repeat rewrite <- app_assoc; reflexivity].
  - reflexivity.
  - symmetry. apply delete_id. exact Hcp.
Qed.

(** X17.  With a ledger that cannot be had as an array [delete] stops
    at the ledger: it reports the error, does not call the store, and
    the checkpoint of the tag stays. *)
Theorem delete_with_unusable_ledger
    (context : CommandContext) (args : string) (w : World) :
  trim args <> "" ->
  ledger_unusable w ->
  let r := delete context args w in
  (exists err,
      r.1 = Resolved
              (message error
                 ("Reading or writing to " +:+ chatGitLogFile +:+ " failed, "
                  +:+ err)))
  /\ same_stores w r.2
  /\ trace r.2 = trace w ++ [ EvReadFileSync chatGitLogFile ].
Proof.
  intros Htag Hbad.
  apply truthy_nonempty in Htag.
  unfold ledger_unusable, ledger in *.
  expose_world w.
  unfold deleteCommand_action.
  cbv beta iota zeta delta [async bind when_ return_ pure negb].
  rewrite Htag. run_cbv.
  destruct rfail as [e|]; run_cbv.
  2: destruct (fs !! chatGitLogFile) as [[[l|]|]|] eqn:Hfile; run_cbv.
  2: exfalso; clear - Hbad; intuition congruence.
  all: split; [eexists; reflexivity|].
  all: split; [repeat split; reflexivity | reflexivity].
Qed.

End DeleteMore.

Lemma delete_unknown_tag_removes_last_entry_witness :
  let r := deleteCommand_action plain_tag bare_context "d" three_tags_world in
  r.1 = Resolved
          (message error "Error: No checkpoint found with tag 'd'.")
  /\ ledger r.2
     = Some (Stringified (JArray [mkEntry "c1" "a"; mkEntry "c2" "b"]))
  /\ checkpoints r.2 = base.delete "d" (checkpoints three_tags_world)
  /\ trace r.2 = delete_calls "d" [mkEntry "c1" "a"; mkEntry "c2" "b"].
Proof.
  intros r.
  apply (delete_unknown_tag_removes_last_entry plain_tag bare_context "d"
           three_tags_world
           [mkEntry "c1" "a"; mkEntry "c2" "b"; mkEntry "c3" "c"]).
  - discriminate.
  - reflexivity.
  - reflexivity.
  - reflexivity.
  - repeat (constructor; [discriminate|]). constructor.
Defined.

Lemma delete_refuses_first_entry_witness :
  let r := deleteCommand_action plain_tag bare_context " a " three_tags_world in
  r.1 = Resolved (message error "Tag not associated with git snapshot, a")
  /\ same_stores three_tags_world r.2
  /\ trace r.2 = [ EvReadFileSync chatGitLogFile ].
Proof.
  intros r.
  apply (delete_refuses_first_entry plain_tag bare_context " a "
           three_tags_world (mkEntry "c1" "a")
           [mkEntry "c2" "b"; mkEntry "c3" "c"]).
  - vm_compute. discriminate.
  - reflexivity.
  - reflexivity.
  - reflexivity.
Defined.

Lemma delete_removes_later_entry_witness :
  let r := deleteCommand_action plain_tag bare_context "b" three_tags_world in
  r.1 = Resolved
          (message info "Conversation checkpoint 'b' has been deleted.")
  /\ ledger r.2
     = Some (Stringified (JArray [mkEntry "c1" "a"; mkEntry "c3" "c"]))
  /\ (forall path, path <> chatGitLogFile ->
        files r.2 !! path = files three_tags_world !! path)
  /\ checkpoints r.2 = base.delete "b" (checkpoints three_tags_world)
  /\ trace r.2 = delete_calls "b" [mkEntry "c1" "a"; mkEntry "c3" "c"].
Proof.
  intros r.
  apply (delete_removes_later_entry plain_tag bare_context "b"
           three_tags_world [mkEntry "c1" "a"] (mkEntry "c2" "b")
           [mkEntry "c3" "c"]).
  - discriminate.
  - reflexivity.
  - reflexivity.
  - reflexivity.
  - discriminate.
  - constructor; [discriminate | constructor].
  - reflexivity.
Defined.

Lemma delete_with_unusable_ledger_witness :
  let r := deleteCommand_action plain_tag bare_context "good-tag"
                                lost_ledger_world in
  (exists err,
      r.1 = Resolved
              (message error
                 ("Reading or writing to " +:+ chatGitLogFile +:+ " failed, "
                  +:+ err)))
  /\ same_stores lost_ledger_world r.2
  /\ trace r.2 = [ EvReadFileSync chatGitLogFile ].
Proof.
  intros r.
  apply (delete_with_unusable_ledger plain_tag bare_context "good-tag"
           lost_ledger_world).
  - discriminate.
  - right. left. reflexivity.
Defined.

(** ** A blank tag *)

(** X18.  A tag that is empty once trimmed is refused by [save],
    [resume] and [delete] alike, each with its usage message, and
    without a single call: the world is the one before. *)
Theorem blank_tag_changes_nothing
    (INITIAL_HISTORY_LENGTH : nat) (decodeTagName : string -> string)
    (context : CommandContext) (args : string) (w : World) :
  trim args = "" ->
  saveCommand_action INITIAL_HISTORY_LENGTH decodeTagName context args w
  = (Resolved (message error "Missing tag. Usage: /chat save <tag>"), w)
  /\ resumeCommand_action INITIAL_HISTORY_LENGTH decodeTagName context args w
     = (Resolved (message error "Missing tag. Usage: /chat-git resume <tag>"),
        w)
  /\ deleteCommand_action decodeTagName context args w
     = (Resolved (message error "Missing tag. Usage: /chat-git delete <tag>"),
        w).
Proof.
  intros Hblank.
  unfold saveCommand_action, resumeCommand_action, deleteCommand_action.
  cbv beta iota zeta delta [async bind when_ return_ pure negb].
  rewrite Hblank. repeat split; reflexivity.
Qed.

Lemma blank_tag_changes_nothing_witness :
  let args := String (ascii_of_nat 9) "  " in
  let context := talking_context true short_talk in
  let w := good_tag_world short_talk None dirty_repo in
  saveCommand_action 1 plain_tag context args w
  = (Resolved (message error "Missing tag. Usage: /chat save <tag>"), w)
  /\ resumeCommand_action 1 plain_tag context args w
     = (Resolved (message error "Missing tag. Usage: /chat-git resume <tag>"),
        w)
  /\ deleteCommand_action plain_tag context args w
     = (Resolved (message error "Missing tag. Usage: /chat-git delete <tag>"),
        w).
Proof.
  intros args context w.
  apply (blank_tag_changes_nothing 1 plain_tag context args w).
  reflexivity.
Defined.

(** ** Sorting *)

Section Sorting.

Context {A : Type} (cmp : A -> A -> comparison).
Hypothesis cmp_antisym : forall a b, cmp b a = CompOpp (cmp a b).

Lemma sort_insert_permutation (x : A) (l : list A) :
  Permutation (sort_insert cmp x l) (x :: l).
Proof.
  induction l as [|y l IH]; cbn [sort_insert]; [reflexivity|].
  destruct (cmp x y); try reflexivity.
  all: rewrite IH; apply perm_swap.
Qed.

Lemma array_sort_from_permutation (l acc : list A) :
  Permutation (fold_left (fun acc x => sort_insert cmp x acc) l acc) (acc ++ l).
Proof.
  revert acc. induction l as [|x l IH]; intros acc; cbn [fold_left].
  - rewrite app_nil_r. reflexivity.
  - rewrite IH, sort_insert_permutation. cbn [app].
    apply Permutation_middle.
Qed.

Lemma array_sort_permutation (l : list A) : Permutation (array_sort cmp l) l.
Proof. apply (array_sort_from_permutation l []). Qed.

Lemma sort_insert_in_order (x : A) (l : list A) :
  in_order (not_after cmp) l -> in_order (not_after cmp) (sort_insert cmp x l).
Proof.
  unfold not_after.
  induction l as [|y l IH]; intros Hl; [exact I|].
  cbn [sort_insert].
  assert (Hback : cmp x y <> Lt -> cmp y x <> Gt).
  { intros Hxy. rewrite cmp_antisym. destruct (cmp x y); cbn; congruence. }
  assert (Hrest : in_order (fun a b => cmp a b <> Gt) (sort_insert cmp x l)).
  { apply IH. destruct l; [exact I | apply Hl]. }
  destruct (cmp x y) eqn:Hxy.
  - destruct l as [|z l]; cbn [sort_insert] in *.
    + split; [apply Hback; congruence | exact I].
    + destruct (cmp x z); (split; [|exact Hrest]);
        first [apply Hback; congruence | apply Hl].
  - split; [congruence | exact Hl].
  - destruct l as [|z l]; cbn [sort_insert] in *.
    + split; [apply Hback; congruence | exact I].
    + destruct (cmp x z); (split; [|exact Hrest]);
        first [apply Hback; congruence | apply Hl].
Qed.

Lemma array_sort_from_in_order (l acc : list A) :
  in_order (not_after cmp) acc ->
  in_order (not_after cmp)
           (fold_left (fun acc x => sort_insert cmp x acc) l acc).
Proof.
  revert acc. induction l as [|x l IH]; intros acc Hacc; cbn [fold_left].
  - exact Hacc.
  - apply IH, sort_insert_in_order, Hacc.
Qed.

Lemma array_sort_in_order (l : list A) :
  in_order (not_after cmp) (array_sort cmp l).
Proof. apply array_sort_from_in_order. exact I. Qed.

End Sorting.

Lemma by_mtime_antisym (mtSortDesc : bool) (a b : ChatDetail) :
  by_mtime mtSortDesc b a = CompOpp (by_mtime mtSortDesc a b).
Proof.
  unfold by_mtime, localeCompare.
  destruct mtSortDesc; apply String.compare_antisym.
Qed.

(** ** More on the enumeration *)

Lemma only_calls_refl (P : Event -> bool) (w : World) : only_calls P w w.
Proof.
  repeat split. exists []. rewrite app_nil_r. split; reflexivity.
Qed.

Lemma only_calls_trans (P : Event -> bool) (w1 w2 w3 : World) :
  only_calls P w1 w2 -> only_calls P w2 w3 -> only_calls P w1 w3.
Proof.
  intros (Hf & Hr & Hw & Hm & Hc & Hp & evs & Ht & He)
         (Hf' & Hr' & Hw' & Hm' & Hc' & Hp' & evs' & Ht' & He').
  repeat split; try congruence.
  exists (evs ++ evs'). split.
  - rewrite Ht', Ht, app_assoc. reflexivity.
  - rewrite forallb_app, He, He'. reflexivity.
Qed.

Lemma only_calls_log (P : Event -> bool) (e : Event) (w : World) :
  P e = true -> only_calls P w (log e w).
Proof.
  intros He. repeat split. exists [e]. split; [reflexivity|].
  cbn. rewrite He. reflexivity.
Qed.

Lemma only_calls_weaken (P Q : Event -> bool) (w w' : World) :
  (forall e, P e = true -> Q e = true) ->
  only_calls P w w' -> only_calls Q w w'.
Proof.
  intros HPQ (Hf & Hr & Hw & Hm & Hc & Hp & evs & Ht & He).
  repeat split; try assumption.
  exists evs. split; [exact Ht|].
  apply forallb_forall. intros e Hin. apply HPQ.
  apply (proj1 (forallb_forall P evs) He e Hin).
Qed.

Section ListingMore.

Variable decodeTagName : string -> string.
Local Abbreviation tags := (getSavedChatGitTags decodeTagName).
Local Abbreviation list_chats := (listCommand_action decodeTagName).
Local Abbreviation complete_resume := (resumeCommand_completion decodeTagName).
Local Abbreviation complete_delete := (deleteCommand_completion decodeTagName).
Local Abbreviation a_round geminiDir :=
  (fun (loop : M (list ChatDetail) (list ChatDetail)) (entry : LedgerEntry) =>
     bind loop (fun chatDetails =>
       bind (stat_mtime (path_join geminiDir
                           ("checkpoint-" +:+ tag entry +:+ ".json")))
            (fun stats_mtime =>
               pure (chatDetails
                       ++ [ mkChatDetail (decodeTagName (tag entry))
                                         stats_mtime ])))).

Lemma stat_only_reads (R : Type) (path : string) (w : World) :
  only_calls is_fs_read w (stat_mtime (R := R) path w).2.
Proof.
  unfold stat_mtime, bind, emit, get.
  destruct (mtimes (log (EvStat path) w) !! path);
    apply only_calls_log; reflexivity.
Qed.

Lemma loop_only_reads (geminiDir : string) (chatGitLog : list LedgerEntry) :
  forall loop : M (list ChatDetail) (list ChatDetail),
    (forall w, only_calls is_fs_read w (loop w).2) ->
    forall w,
      only_calls is_fs_read w
                 (fold_left (a_round geminiDir) chatGitLog loop w).2.
Proof.
  induction chatGitLog as [|entry rest IH]; intros loop Hloop w.
  - apply Hloop.
  - cbn [fold_left]. apply IH. clear w. intros w.
    unfold bind at 1. specialize (Hloop w).
    destruct (loop w) as [[chatDetails|r|e] w1]; cbn [snd] in *;
      try exact Hloop.
    eapply only_calls_trans; [exact Hloop|].
    pose proof (stat_only_reads (list ChatDetail)
                  (path_join geminiDir ("checkpoint-" +:+ tag entry +:+ ".json"))
                  w1) as Hstat.
    unfold bind.
    destruct (stat_mtime _ w1) as [[t|r|e] w2]; exact Hstat.
Qed.

Lemma collect_only_reads (geminiDir : string) (chatGitLog : list LedgerEntry)
    (w : World) :
  only_calls is_fs_read w
    (collect_chatDetails (R := list ChatDetail) decodeTagName geminiDir
                         chatGitLog w).2.
Proof.
  apply (loop_only_reads geminiDir chatGitLog (pure [])).
  intros w0. apply only_calls_refl.
Qed.

Lemma listing_frame (context : CommandContext) (mtSortDesc : bool) (w : World) :
  only_calls is_fs_read w (tags context mtSortDesc w).2.
Proof.
  expose_world w.
  unfold getSavedChatGitTags. run_cbv.
  repeat
    (first
       [ match goal with
         | |- context [collect_chatDetails ?d ?g ?l ?w0] =>
             let H := fresh "Hloop" in
             pose proof (collect_only_reads g l w0) as H;
             destruct (collect_chatDetails d g l w0) as [[?|?|?] w1];
             cbn [snd] in H
         end
       | case_step ];
     run_cbv).
  all: try (eapply only_calls_trans; [|exact Hloop]).
  all: unfold only_calls, calls_between; cbn.
  all: repeat split.
  all: try (eexists; split; [repeat rewrite <- app_assoc; reflexivity
                            | reflexivity]).
  all: exists []; rewrite app_nil_r; split; reflexivity.
Qed.

(** X19.  The enumeration, and with it both completions, only looks:
    whatever the world, it leaves files, checkpoints and repository as
    they were and calls nothing but [existsSync], [readFileSync] and
    [stat]; [list] adds, at most, its one item to the display. *)
Theorem listing_only_reads
    (context : CommandContext) (mtSortDesc : bool) (arg : string) (w : World) :
  only_calls is_fs_read w (tags context mtSortDesc w).2
  /\ only_calls is_fs_read w (complete_resume context arg w).2
  /\ only_calls is_fs_read w (complete_delete context arg w).2
  /\ only_calls is_read_or_display w (list_chats context arg w).2.
Proof.
  pose proof (listing_frame context mtSortDesc w) as Hany.
  pose proof (listing_frame context true w) as Hdesc.
  pose proof (listing_frame context false w) as Hasc.
  split; [exact Hany|].
  unfold resumeCommand_completion, deleteCommand_completion, listCommand_action.
  unfold async, await, bind, return_, ui_addItem, emit.
  destruct (tags context true w) as [[chatDetails|e] w1];
    destruct (tags context false w) as [[chatDetails'|e'] w2];
    cbn [snd] in *.
  all: split; [exact Hdesc|]; split; [exact Hdesc|].
  all: assert (Hshow : only_calls is_read_or_display w w2)
    by (apply (only_calls_weaken is_fs_read); [|exact Hasc];
        intros [] He; (discriminate || reflexivity)).
  all: first
    [ exact Hshow
    | apply (only_calls_trans _ _ w2);
      [exact Hshow | apply only_calls_log; reflexivity] ].
Qed.

(** X20.  The promise of the enumeration rejects in one case only: the
    ledger file is there, can be read, and is not JSON.  In every other
    case it resolves; and [list] and the completions reject with it. *)
Theorem listing_rejects_only_on_bad_json
    (context : CommandContext) (mtSortDesc : bool) (arg : string) (w : World) :
  ((exists e, (tags context mtSortDesc w).1 = Rejected e)
   <-> ledger w = Some NotJson /\ read_fails w = None)
  /\ ((exists e, (list_chats context arg w).1 = Rejected e)
      <-> ledger w = Some NotJson /\ read_fails w = None)
  /\ ((exists e, (complete_resume context arg w).1 = Rejected e)
      <-> ledger w = Some NotJson /\ read_fails w = None)
  /\ ((exists e, (complete_delete context arg w).1 = Rejected e)
      <-> ledger w = Some NotJson /\ read_fails w = None).
Proof.
  pose proof (listing_rejects_iff decodeTagName context mtSortDesc w) as Hany.
  pose proof (listing_rejects_iff decodeTagName context true w) as Hdesc.
  pose proof (listing_rejects_iff decodeTagName context false w) as Hasc.
  split; [exact Hany|].
  unfold resumeCommand_completion, deleteCommand_completion, listCommand_action.
  unfold async, await, bind, return_, ui_addItem, emit.
  destruct (tags context true w) as [[chatDetails|e] w1];
    destruct (tags context false w) as [[chatDetails'|e'] w2];
    cbn [fst] in *.
  all: split; [etransitivity; [|exact Hasc] |
               split; (etransitivity; [|exact Hdesc])].
  all: split; intros [e0 He0]; first [discriminate | eexists; reflexivity].
Qed.

Lemma loop_collects (geminiDir : string) (times : gmap string string)
    (chatGitLog : list LedgerEntry) :
  Forall (fun entry => is_Some (times !! checkpoint_path geminiDir entry))
         chatGitLog ->
  forall (loop : M (list ChatDetail) (list ChatDetail)) (w w1 : World)
         (acc : list ChatDetail),
    loop w = (Normal acc, w1) ->
    mtimes w1 = times ->
    exists w2,
      fold_left (a_round geminiDir) chatGitLog loop w
      = (Normal (acc ++ map (chat_detail decodeTagName geminiDir times)
                            chatGitLog),
         w2).
Proof.
  induction 1 as [|entry rest [t Ht] _ IH]; intros loop w w1 acc Hloop Htimes.
  - exists w1. cbn [fold_left map]. rewrite app_nil_r. exact Hloop.
  - cbn [fold_left map].
    destruct (IH (a_round geminiDir loop entry) w
                 (log (EvStat (checkpoint_path geminiDir entry)) w1)
                 (acc ++ [chat_detail decodeTagName geminiDir times entry]))
      as (w2 & Hw2).
    + unfold bind at 1. rewrite Hloop.
      unfold stat_mtime, bind, emit, get, pure, chat_detail.
      fold (checkpoint_path geminiDir entry).
      change (mtimes (log (EvStat (checkpoint_path geminiDir entry)) w1))
        with (mtimes w1).
      rewrite Htimes, Ht. reflexivity.
    + exact Htimes.
    + exists w2. rewrite Hw2, <- app_assoc. reflexivity.
Qed.

Lemma listing_result (context : CommandContext) (mtSortDesc : bool)
    (w : World) (geminiDir : string) (chatGitLog : list LedgerEntry) :
  listing_ready context w geminiDir chatGitLog ->
  exists w',
    tags context mtSortDesc w
    = (Resolved
         (array_sort (by_mtime mtSortDesc)
            (map (chat_detail decodeTagName geminiDir (mtimes w)) chatGitLog)),
       w').
Proof.
  intros (Hread & Hfile & (cfg & Hcfg & Hdir) & Hne & Hall).
  apply truthy_nonempty in Hne.
  unfold ledger in Hfile.
  expose_world w. subst.
  unfold getSavedChatGitTags. run_cbv. rewrite Hcfg, Hdir.
  repeat (rewrite Hfile; run_cbv).
  destruct geminiDir as [|c geminiDir]; [discriminate|].
  match goal with
  | |- context [collect_chatDetails _ ?dir _ ?w0] =>
      destruct (loop_collects dir mts chatGitLog Hall (pure []) w0 w0 []
                  eq_refl eq_refl) as (w2 & Hloop)
  end.
  unfold collect_chatDetails. rewrite Hloop. cbn [app].
  eexists. unfold by_mtime. reflexivity.
Qed.

(** X21.  When the ledger can be read and every entry has its
    checkpoint file, the enumeration gives one chat per ledger entry,
    under the decoded tag and with the modification time of the file,
    in the order of the modification times: oldest first, or newest
    first when asked so. *)
Theorem listing_lists_every_entry_in_order
    (context : CommandContext) (mtSortDesc : bool) (w : World)
    (geminiDir : string) (chatGitLog : list LedgerEntry) :
  listing_ready context w geminiDir chatGitLog ->
  exists chatDetails,
    (tags context mtSortDesc w).1 = Resolved chatDetails
    /\ Permutation chatDetails
         (map (chat_detail decodeTagName geminiDir (mtimes w)) chatGitLog)
    /\ in_order (not_after (by_mtime mtSortDesc)) chatDetails.
Proof.
  intros Hready.
  destruct (listing_result context mtSortDesc w geminiDir chatGitLog Hready)
    as (w' & Hresult).
  eexists. split; [rewrite Hresult; reflexivity|].
  split.
  - apply array_sort_permutation.
  - apply array_sort_in_order. apply by_mtime_antisym.
Qed.

(** X22.  Under the same conditions the completions of [resume] and
    [delete] suggest the same names: the decoded tags of the ledger
    entries that start with what has been typed, and nothing else. *)
Theorem completion_suggests_matching_tags
    (context : CommandContext) (partialArg : string) (w : World)
    (geminiDir : string) (chatGitLog : list LedgerEntry) :
  listing_ready context w geminiDir chatGitLog ->
  exists names,
    (complete_resume context partialArg w).1 = Resolved names
    /\ (complete_delete context partialArg w).1 = Resolved names
    /\ forall suggestion,
         In suggestion names
         <-> String.prefix partialArg suggestion = true
             /\ exists entry,
                  In entry chatGitLog
                  /\ suggestion = decodeTagName (tag entry).
Proof.
  intros Hready.
  destruct (listing_result context true w geminiDir chatGitLog Hready)
    as (w' & Hresult).
  unfold resumeCommand_completion, deleteCommand_completion.
  unfold async, await, bind, return_.
  rewrite Hresult. cbn [fst].
  eexists. split; [reflexivity|]. split; [reflexivity|].
  intros suggestion. rewrite List.filter_In. unfold startsWith.
  rewrite (Permutation_in' (eq_refl suggestion)
             (Permutation_map name
                (array_sort_permutation (by_mtime true) _))).
  rewrite map_map, List.in_map_iff. cbn [name chat_detail].
  split.
  - intros [(entry & <- & Hin) Hprefix]. split; [exact Hprefix|].
    exists entry. split; [exact Hin | reflexivity].
  - intros [Hprefix (entry & Hin & ->)]. split; [|exact Hprefix].
    exists entry. split; [reflexivity | exact Hin].
Qed.

(** X23.  One ledger entry without its checkpoint file hides every
    chat: the enumeration gives the empty list, [list] displays an
    empty list and the completions suggest nothing. *)
Theorem listing_missing_file_hides_all
    (context : CommandContext) (mtSortDesc : bool) (arg : string) (w : World)
    (cfg : Config) (geminiDir : string) (chatGitLog : list LedgerEntry)
    (entry : LedgerEntry) :
  read_fails w = None ->
  ledger w = Some (Stringified (JArray chatGitLog)) ->
  config context = Some cfg ->
  projectTempDir cfg = Some geminiDir ->
  In entry chatGitLog ->
  mtimes w !! checkpoint_path geminiDir entry = None ->
  (tags context mtSortDesc w).1 = Resolved []
  /\ (complete_resume context arg w).1 = Resolved []
  /\ (complete_delete context arg w).1 = Resolved []
  /\ exists calls,
       trace (list_chats context arg w).2 = trace w ++ calls ++ [EvAddItem []].
Proof.
  intros Hread Hfile Hcfg Hdir Hin Hmissing.
  pose proof (listing_missing_checkpoint_file decodeTagName context mtSortDesc
                w cfg geminiDir chatGitLog entry Hread Hfile Hcfg Hdir Hin
                Hmissing) as Hany.
  pose proof (listing_missing_checkpoint_file decodeTagName context true
                w cfg geminiDir chatGitLog entry Hread Hfile Hcfg Hdir Hin
                Hmissing) as Hdesc.
  pose proof (listing_missing_checkpoint_file decodeTagName context false
                w cfg geminiDir chatGitLog entry Hread Hfile Hcfg Hdir Hin
                Hmissing) as Hasc.
  pose proof (listing_frame context false w)
    as (_ & _ & _ & _ & _ & _ & calls & Hcalls & _).
  split; [exact Hany|].
  unfold resumeCommand_completion, deleteCommand_completion, listCommand_action.
  unfold async, await, bind, return_, ui_addItem, emit.
  destruct (tags context true w) as [[chatDetails|e] w1];
    destruct (tags context false w) as [[chatDetails'|e'] w2];
    cbn [fst snd] in *; try discriminate.
  injection Hdesc as ->. injection Hasc as ->.
  repeat split.
  exists calls. cbn [log trace]. rewrite Hcalls, app_assoc. reflexivity.
Qed.

End ListingMore.

Ltac listing_ready_here :=
  unfold listing_ready;
  split; [reflexivity|];
  split; [reflexivity|];
  split; [eexists; split; reflexivity|];
  split; [discriminate|];
  repeat (constructor; [eexists; reflexivity|]); constructor.

Lemma listing_lists_every_entry_in_order_witness :
  let context := test_context false [] in
  let w := two_checkpoints "alpha" "beta" in
  exists chatDetails,
    (getSavedChatGitTags plain_tag context true w).1 = Resolved chatDetails
    /\ Permutation chatDetails
         (map (chat_detail plain_tag "/project/root/.gemini/tmp/mockhash"
                           (mtimes w))
              [mkEntry "abc" "alpha"; mkEntry "def" "beta"])
    /\ in_order (not_after (by_mtime true)) chatDetails.
Proof.
  intros context w.
  apply (listing_lists_every_entry_in_order plain_tag context true w
           "/project/root/.gemini/tmp/mockhash"
           [mkEntry "abc" "alpha"; mkEntry "def" "beta"]).
  listing_ready_here.
Defined.

Lemma completion_suggests_matching_tags_witness :
  let context := test_context false [] in
  let w := two_checkpoints "alpha" "beta" in
  exists names,
    (resumeCommand_completion plain_tag context "al" w).1 = Resolved names
    /\ (deleteCommand_completion plain_tag context "al" w).1 = Resolved names
    /\ forall suggestion,
         In suggestion names
         <-> String.prefix "al" suggestion = true
             /\ exists entry,
                  In entry [mkEntry "abc" "alpha"; mkEntry "def" "beta"]
                  /\ suggestion = plain_tag (tag entry).
Proof.
  intros context w.
  apply (completion_suggests_matching_tags plain_tag context "al" w
           "/project/root/.gemini/tmp/mockhash"
           [mkEntry "abc" "alpha"; mkEntry "def" "beta"]).
  listing_ready_here.
Defined.

Lemma listing_missing_file_hides_all_witness :
  let context := test_context false [] in
  (getSavedChatGitTags plain_tag context false one_file_gone).1 = Resolved []
  /\ (resumeCommand_completion plain_tag context "" one_file_gone).1
     = Resolved []
  /\ (deleteCommand_completion plain_tag context "" one_file_gone).1
     = Resolved []
  /\ exists calls,
       trace (listCommand_action plain_tag context "" one_file_gone).2
       = trace one_file_gone ++ calls ++ [EvAddItem []].
Proof.
  intros context.
  apply (listing_missing_file_hides_all plain_tag context false "" one_file_gone
           (mkConfig (Some []) (Some "oauth-personal")
                     (Some "/project/root/.gemini/tmp/mockhash"))
           "/project/root/.gemini/tmp/mockhash"
           [mkEntry "abc" "alpha"; mkEntry "def" "beta"]
           (mkEntry "def" "beta")).
  - reflexivity.
  - reflexivity.
  - reflexivity.
  - reflexivity.
  - right. left. reflexivity.
  - reflexivity.
Defined.

(** ** Surrounding white space *)

Lemma trim_no_leading_space (s : string) : stripWs false (trim s) = trim s.
Proof.
  unfold trim, trimStart.
  set (t := stripWs false s).
  assert (Ht : stripWs false t = t) by apply stripWs_idempotent.
  destruct (trimEnd_prefix t) as [rest Hrest].
  rewrite Hrest in Ht. apply stripWs_fixed_prefix in Ht. exact Ht.
Qed.

(** X24.  The commands take their argument trimmed and nothing else of
    it: white space around the argument makes no difference to what
    [save], [resume], [delete], [fork-git], [diff] and the two worktree
    commands do, since to trim twice is to trim once. *)
Theorem commands_ignore_surrounding_space
    (INITIAL_HISTORY_LENGTH : nat) (decodeTagName : string -> string)
    (execSync : string -> Result string) (execAsync : Shell)
    (context : CommandContext) (args : string) :
  trim (trim args) = trim args
  /\ saveCommand_action INITIAL_HISTORY_LENGTH decodeTagName context args
     = saveCommand_action INITIAL_HISTORY_LENGTH decodeTagName context
                          (trim args)
  /\ resumeCommand_action INITIAL_HISTORY_LENGTH decodeTagName context args
     = resumeCommand_action INITIAL_HISTORY_LENGTH decodeTagName context
                            (trim args)
  /\ deleteCommand_action decodeTagName context args
     = deleteCommand_action decodeTagName context (trim args)
  /\ forkGitCommand_action INITIAL_HISTORY_LENGTH decodeTagName execSync
                           context args
     = forkGitCommand_action INITIAL_HISTORY_LENGTH decodeTagName execSync
                             context (trim args)
  /\ diffCommand_action execAsync args
     = diffCommand_action execAsync (trim args)
  /\ worktreeAddCommand_action execAsync args
     = worktreeAddCommand_action execAsync (trim args)
  /\ worktreeRemoveCommand_action execAsync args
     = worktreeRemoveCommand_action execAsync (trim args).
Proof.
  unfold saveCommand_action, resumeCommand_action, deleteCommand_action,
    forkGitCommand_action, diffCommand_action, worktreeAddCommand_action,
    worktreeRemoveCommand_action.
  rewrite trim_idempotent. repeat split; reflexivity.
Qed.

(** ** Plain git commands *)

Lemma or_else_given (s d : string) : s <> "" -> or_else s d = s.
Proof. unfold or_else. destruct s; [congruence | reflexivity]. Qed.

Lemma or_else_nonempty (s d : string) : d <> "" -> or_else s d <> "".
Proof. unfold or_else. destruct s; [cbn; congruence | discriminate]. Qed.

Lemma fixed_no_ws (u : string) : stripWs false u = u -> ws_width u = 0.
Proof.
  intros Hfixed.
  assert (Hless : forall t v : string,
             String.length v < String.length t -> stripWs false v <> t).
  { intros t v Hlen Heq. pose proof (stripWs_shorter false v) as Hle.
    rewrite Heq in Hle. lia. }
  destruct u as [|a u1]; [reflexivity|].
  rewrite stripWs_unfold in Hfixed. unfold ws_width.
  destruct (isWs1 a);
    [exfalso; eapply Hless; [|exact Hfixed]; cbn [String.length]; lia|].
  destruct u1 as [|b u2]; [reflexivity|].
  destruct (isWs2 a b);
    [exfalso; eapply Hless; [|exact Hfixed]; cbn [String.length]; lia|].
  destruct u2 as [|c u3]; [reflexivity|].
  destruct (isWs3 a b c);
    [exfalso; eapply Hless; [|exact Hfixed]; cbn [String.length]; lia|].
  reflexivity.
Qed.

(** The first piece of a string that does not start with white space
    is not empty. *)
Lemma split_ws_first (u : string) :
  stripWs false u = u -> u <> "" ->
  exists first rest, split_ws u = first :: rest /\ first <> "".
Proof.
  intros Hfixed Hne. apply fixed_no_ws in Hfixed.
  destruct u as [|a u1]; [congruence|].
  unfold split_ws. cbn [split_ws_go]. rewrite Hfixed.
  destruct (split_ws_go u1 0 false) as [|first rest];
    eexists _, _; (split; [reflexivity | discriminate]).
Qed.

Lemma prefix_app (p r : string) : String.prefix p (p +:+ r) = true.
Proof.
  induction p as [|a p IH]; [destruct r; reflexivity|].
  rewrite append_cons. cbn [String.prefix].
  destruct (ascii_dec a a); [exact IH | congruence].
Qed.

Lemma prefix_cut (p s : string) :
  String.prefix p s = true -> s = p +:+ substring_from (String.length p) s.
Proof.
  revert s. induction p as [|a p IH]; intros s Hp.
  - destruct s; reflexivity.
  - destruct s as [|b s]; [discriminate|].
    cbn [String.prefix] in Hp.
    destruct (ascii_dec a b) as [->|]; [|discriminate].
    rewrite append_cons. cbn [String.length substring_from].
    rewrite <- (IH s Hp). reflexivity.
Qed.

Lemma worktree_paths (partialArg : string) (lines paths : list string)
    (path : string) :
  In path (fold_left (push_worktree_path partialArg) lines paths)
  <-> In path paths
      \/ (In ("worktree " +:+ path) lines
          /\ String.prefix partialArg path = true).
Proof.
  revert paths. induction lines as [|line lines IH]; intros paths.
  - cbn [fold_left In]. tauto.
  - cbn [fold_left]. rewrite IH. unfold push_worktree_path, startsWith.
    destruct (String.prefix "worktree " line) eqn:Hline.
    + apply prefix_cut in Hline.
      set (found := substring_from (String.length "worktree ") line) in *.
      clearbody found.
      assert (Hsame : line = "worktree " +:+ path <-> found = path).
      { rewrite Hline at 1. split; [apply String.app_inj | congruence]. }
      destruct (String.prefix partialArg found) eqn:Hfound.
      * rewrite in_app_iff. cbn [In]. rewrite Hsame.
        intuition (subst; try assumption; try congruence).
      * cbn [In]. rewrite Hsame.
        intuition (subst; try assumption; try congruence).
    + cbn [In].
      assert (Hother : line <> "worktree " +:+ path).
      { intros ->. rewrite prefix_app in Hline. discriminate. }
      tauto.
Qed.

Section GitMore.

Variable execAsync : Shell.

(** X25.  Each of [status], [branch], [diff], [worktree list] and
    [worktree prune] runs one command line, the same whatever came
    before, and answers with the error of git when git failed and
    with an information otherwise, which is never empty and is the
    standard output when there is one.  [diff] names the file only
    when one is given. *)
Theorem git_queries_answer (args : string) (calls : list string) :
  answers_for execAsync "git status --short" calls
              (statusCommand_action execAsync calls)
  /\ answers_for execAsync "git branch -vv" calls
                 (branchCommand_action execAsync calls)
  /\ answers_for execAsync
                 (if truthy (trim args)
                  then "git diff --stat " +:+ trim args
                  else "git diff --stat")
                 calls (diffCommand_action execAsync args calls)
  /\ answers_for execAsync "git worktree list" calls
                 (worktreeListCommand_action execAsync calls)
  /\ answers_for execAsync "git worktree prune -v" calls
                 (worktreePruneCommand_action execAsync calls).
Proof.
  unfold answers_for, statusCommand_action, branchCommand_action,
    diffCommand_action, worktreeListCommand_action,
    worktreePruneCommand_action, runGit.
  destruct (truthy (trim args)) eqn:Hfile.
  all: cbn [String.concat].
  all: change ("git " +:+ "status" +:+ " " +:+ "--short")
         with "git status --short".
  all: change ("git " +:+ "branch" +:+ " " +:+ "-vv") with "git branch -vv".
  all: change ("git " +:+ "worktree" +:+ " " +:+ "list")
         with "git worktree list".
  all: change ("git " +:+ "worktree" +:+ " " +:+ "prune" +:+ " " +:+ "-v")
         with "git worktree prune -v".
  all: change ("git " +:+ "diff" +:+ " " +:+ "--stat") with "git diff --stat".
  all: change ("git " +:+ "diff" +:+ " " +:+ "--stat" +:+ " " +:+ trim args)
         with ("git diff --stat " +:+ trim args).
  all: repeat match goal with
              | |- context [execAsync ?c] => destruct (execAsync c) as [?out|?err]
              end.
  all: cbn [fst snd]; repeat split.
  all: eexists; split; [reflexivity|]; split;
    [ apply or_else_nonempty; discriminate
    | intros Hgiven; repeat rewrite (or_else_given _ _ Hgiven); reflexivity ].
Qed.

(** X26.  The two worktree commands that take an argument run git only
    when there is one.  With nothing but white space they answer with
    their usage and run nothing; otherwise [worktree remove] passes the
    trimmed argument on, and [worktree add] its pieces, the white space
    between them brought down to single blanks. *)
Theorem worktree_commands_need_an_argument (args : string)
    (calls : list string) :
  if truthy (trim args)
  then answers_for execAsync
         ("git worktree add " +:+ String.concat " " (split_ws (trim args)))
         calls (worktreeAddCommand_action execAsync args calls)
       /\ answers_for execAsync ("git worktree remove " +:+ trim args) calls
            (worktreeRemoveCommand_action execAsync args calls)
  else worktreeAddCommand_action execAsync args calls
       = (message error usage_worktree_add, calls)
       /\ worktreeRemoveCommand_action execAsync args calls
          = (message error "Usage: /git worktree remove <path>", calls).
Proof.
  unfold answers_for, worktreeAddCommand_action, worktreeRemoveCommand_action,
    runGit.
  destruct (truthy (trim args)) eqn:Hgiven; cbn [negb].
  - assert (Hne : trim args <> "")
      by (destruct (trim args); [discriminate | discriminate]).
    destruct (split_ws_first (trim args) (trim_no_leading_space args) Hne)
      as (first & rest & Hparts & Hfirst).
    rewrite Hparts. cbn [length Nat.eqb orb head default from_option id].
    rewrite (truthy_nonempty first Hfirst). cbn [negb].
    change (String.concat " " ("worktree" :: "add" :: first :: rest))
      with ("worktree add " +:+ String.concat " " (first :: rest)).
    change ("git " +:+ "worktree add " +:+ String.concat " " (first :: rest))
      with ("git worktree add " +:+ String.concat " " (first :: rest)).
    change ("git " +:+ String.concat " " ["worktree"; "remove"; trim args])
      with ("git worktree remove " +:+ trim args).
    repeat match goal with
           | |- context [execAsync ?c] => destruct (execAsync c) as [?out|?err]
           end.
    all: cbn [fst snd]; repeat split.
    all: eexists; split; [reflexivity|]; split;
      [ apply or_else_nonempty; discriminate
      | intros Hstdout; repeat rewrite (or_else_given _ _ Hstdout);
        reflexivity ].
  - assert (Hblank : trim args = "")
      by (destruct (trim args); [reflexivity | discriminate]).
    rewrite Hblank. split; reflexivity.
Qed.

(** X27.  The completions of the worktree commands suggest what git
    lists and nothing else: for [worktree remove] the paths of the
    [worktree] lines of the porcelain listing, for [worktree add] the
    branch names, trimmed and not empty; each only if it starts with
    what has been typed.  When git fails they suggest nothing. *)
Theorem worktree_completions (partialArg : string) (calls : list string) :
  let removing := worktreeRemoveCommand_completion execAsync partialArg calls in
  let adding := worktreeAddCommand_completion execAsync partialArg calls in
  removing.2 = calls ++ ["git worktree list --porcelain"]
  /\ adding.2 = calls ++ ["git branch --format=%(refname:short) -a"]
  /\ match execAsync "git worktree list --porcelain" with
     | Err _ => removing.1 = []
     | Ok out =>
         forall path,
           In path removing.1
           <-> In ("worktree " +:+ path) (split_on newline (stdout out))
               /\ String.prefix partialArg path = true
     end
  /\ match execAsync "git branch --format=%(refname:short) -a" with
     | Err _ => adding.1 = []
     | Ok out =>
         forall branch,
           In branch adding.1
           <-> (exists line,
                   In line (split_on newline (stdout out))
                   /\ branch = trim line)
               /\ branch <> ""
               /\ String.prefix partialArg branch = true
     end.
Proof.
  unfold worktreeRemoveCommand_completion, worktreeAddCommand_completion,
    runGit.
  change ("git " +:+ String.concat " " ["worktree"; "list"; "--porcelain"])
    with "git worktree list --porcelain".
  change ("git " +:+ String.concat " "
                       ["branch"; "--format=%(refname:short)"; "-a"])
    with "git branch --format=%(refname:short) -a".
  destruct (execAsync "git worktree list --porcelain") as [out|err];
    destruct (execAsync "git branch --format=%(refname:short) -a")
      as [out'|err'];
    cbn [fst snd].
  all: split; [reflexivity|]; split; [reflexivity|]; split.
  all: try reflexivity.
  all: try (intros path; rewrite worktree_paths; cbn [In]; tauto).
  all: intros branch; rewrite List.filter_In, List.in_map_iff.
  all: unfold startsWith; rewrite andb_true_iff.
  all: split.
  all: try (intros [(line & <- & Hin) [Hne Hp]];
            split; [exists line; split; [exact Hin | reflexivity]|];
            split; [destruct (trim line); discriminate | exact Hp]).
  all: intros [(line & Hin & ->) [Hne Hp]];
    (split; [exists line; split; [reflexivity | exact Hin]|]);
    (split; [apply truthy_nonempty; exact Hne | exact Hp]).
Qed.

End GitMore.

(** ** fork-git *)

Section ForkGitMore.

Variable INITIAL_HISTORY_LENGTH : nat.
Variable decodeTagName : string -> string.
Variable execSync : string -> Result string.
Local Abbreviation fork :=
  (forkGitCommand_action INITIAL_HISTORY_LENGTH decodeTagName execSync).

(** X28.  A cleared [fork-git] of a conversation longer than the hidden
    initial context saves the checkpoint whether or not git can name a
    commit: the answer carries the trimmed output of [git rev-parse
    HEAD], or the error in its place, and the record is in the store
    either way. *)
Theorem fork_git_saves_with_or_without_commit
    (context : CommandContext) (args : string) (w : World)
    (conversation : list Content) :
  fork_cleared context (trim args) w ->
  context_history context = Some conversation ->
  INITIAL_HISTORY_LENGTH < length conversation ->
  let r := fork context args w in
  r.1 = Resolved
          (message info
             ("Conversation checkpoint saved with tag: "
              +:+ decodeTagName (trim args) +:+ " and commitId: "
              +:+ fork_commitId execSync +:+ "."))
  /\ checkpoints r.2
     = <[ trim args := mkCheckpoint conversation (context_authType context) ]>
         (checkpoints w)
  /\ trace r.2
     = trace w
       ++ [ EvLoggerInitialize ]
       ++ (if overwriteConfirmed context then []
           else [ EvCheckpointExists (trim args) ])
       ++ [ EvSaveCheckpoint
              (mkCheckpoint conversation (context_authType context))
              (trim args) ].
Proof.
  intros (Htag & Hconfirm) Hchat Hlen.
  apply truthy_nonempty in Htag. apply Nat.ltb_lt in Hlen.
  unfold context_history, context_authType, fork_commitId in *.
  expose_world w.
  unfold forkGitCommand_action.
  cbv beta iota zeta delta [async bind when_ return_ pure negb].
  rewrite Htag. run_cbv.
  destruct (config context) as [cfg|]; [|discriminate].
  rewrite Hchat, Hlen.
  destruct (overwriteConfirmed context);
    [| destruct Hconfirm as [?|Hnone]; [discriminate | rewrite Hnone] ].
  all: run_cbv.
  all: repeat split; try reflexivity.
  all: repeat rewrite <- app_assoc; reflexivity.
Qed.

(** X29.  Whatever the world, [fork-git] leaves the ledger file, the
    other files and the repository as they were, calls neither
    simple-git nor the file system (what it learns of git it learns
    from [execSync]), and of the checkpoints touches at most the one
    of its tag. *)
Theorem fork_git_leaves_ledger_and_repository_alone
    (context : CommandContext) (args : string) (w : World) :
  let r := fork context args w in
  files r.2 = files w
  /\ repo r.2 = repo w
  /\ (forall t, t <> trim args -> checkpoints r.2 !! t = checkpoints w !! t)
  /\ calls_between
       (fun e => negb (is_git_event e) && negb (is_fs_read e)
                 && negb (match e with
                          | EvWriteFileSync _ _ => true
                          | _ => false
                          end))
       w r.2.
Proof.
  expose_world w.
  unfold forkGitCommand_action. run_cbv.
  repeat (case_step; run_cbv).
  all: split; [reflexivity|]; split; [reflexivity|]; split.
  all: try solve_calls.
  all: intros t Hne; try reflexivity.
  all: apply lookup_insert_ne; congruence.
Qed.

End ForkGitMore.

Lemma fork_git_saves_with_or_without_commit_witness :
  let context := talking_context false short_talk in
  let r := forkGitCommand_action 1 plain_tag no_git_shell context " my-tag "
                                 fresh_world in
  r.1 = Resolved
          (message info
             "Conversation checkpoint saved with tag: my-tag and commitId: Error: Command failed: git rev-parse HEAD.")
  /\ checkpoints r.2
     = <[ "my-tag" := mkCheckpoint short_talk (Some "oauth-personal") ]> ∅
  /\ trace r.2
     = [ EvLoggerInitialize; EvCheckpointExists "my-tag";
         EvSaveCheckpoint (mkCheckpoint short_talk (Some "oauth-personal"))
                          "my-tag" ].
Proof.
  intros context r.
  apply (fork_git_saves_with_or_without_commit 1 plain_tag no_git_shell
           context " my-tag " fresh_world short_talk).
  - split; [vm_compute; discriminate | right; reflexivity].
  - reflexivity.
  - simpl. lia.
Defined.
